(** * VGN grasp simulation: a shallow embedding of [src/vgn/simulation.py]

    The physics engine (pybullet), the random generator (numpy) and the
    spatial library (robot_helpers.spatial) are external collaborators of
    the program.  The embedding keeps them external:

    - the program is a tree of engine and generator calls ([prog]), written
      function by function after the Python source;
    - an engine is a [handler]: a deterministic function from a call and a
      world to a reply and a new world.  Running a program against a handler
      ([exec]) yields its result, the final world and the [trace] of calls
      with their replies, in program order;
    - rotations are an interface ([Spatial]); a rigid transform is a
      rotation with a translation, composed as usual.

    Python floats are modelled by exact rationals ([Q]); rounding is not
    modelled.  Python exceptions raised by the program itself
    ([AttributeError], [ValueError], [NotImplementedError]) are the [Raise]
    nodes of [prog]. *)

From Stdlib Require Import ZArith QArith List Bool String Lia Lqa.
Import ListNotations.

Set Implicit Arguments.

(* ================================================================== *)
(** ** Numbers and vectors *)

Definition vec3 : Type := (Q * Q * Q)%type.
Definition quat : Type := (Q * Q * Q * Q)%type.

Definition vx (v : vec3) : Q := fst (fst v).
Definition vy (v : vec3) : Q := snd (fst v).
Definition vz (v : vec3) : Q := snd v.

Definition vadd (a b : vec3) : vec3 :=
  (vx a + vx b, vy a + vy b, vz a + vz b)%Q.
Definition vsub (a b : vec3) : vec3 :=
  (vx a - vx b, vy a - vy b, vz a - vz b)%Q.
Definition vneg (a : vec3) : vec3 := (- vx a, - vy a, - vz a)%Q.

(** [x > y] on floats. *)
Definition Qgtb (x y : Q) : bool := negb (Qle_bool x y).
(** [x < y] on floats. *)
Definition Qltb (x y : Q) : bool := negb (Qle_bool y x).

(** [np.any(v < c)] and [np.any(v > c)] on a 3-vector. *)
Definition any_lt (v : vec3) (c : Q) : bool :=
  Qltb (vx v) c || Qltb (vy v) c || Qltb (vz v) c.
Definition any_gt (v : vec3) (c : Q) : bool :=
  Qgtb (vx v) c || Qgtb (vy v) c || Qgtb (vz v) c.

(** [np.pi], the double nearest to pi, is a rational number. *)
Definition np_pi : Q := 884279719003555 # 281474976710656.

(* ================================================================== *)
(** ** The spatial library: rotations and rigid transforms *)

Class Spatial : Type := {
  Rotation : Type;
  rot_identity : Rotation;
  rot_mul : Rotation -> Rotation -> Rotation;
  rot_apply : Rotation -> vec3 -> vec3;
  as_quat : Rotation -> quat;
  from_quat : quat -> Rotation;
  from_euler_xyz : vec3 -> Rotation;
  from_rotvec : vec3 -> Rotation
}.

Record Transform {SP : Spatial} : Type := mkTransform {
  rotation : Rotation;
  translation : vec3
}.
Arguments mkTransform {SP} rotation translation.

Section SpatialOps.
Context {SP : Spatial}.

(** [a * b]: first [b], then [a]. *)
Definition tmul (a b : Transform) : Transform :=
  mkTransform (rot_mul (rotation a) (rotation b))
              (vadd (rot_apply (rotation a) (translation b)) (translation a)).

Definition Transform_identity : Transform :=
  mkTransform rot_identity (0, 0, 0)%Q.

(** [Transform.translation(v)] and its short form [Transform.t(v)]. *)
Definition Transform_t (v : vec3) : Transform := mkTransform rot_identity v.
End SpatialOps.

(* ================================================================== *)
(** ** Calls to the engine and to the random generator *)

(** A contact point as pybullet reports it; the program reads field 2. *)
Record contact : Type := mkContact {
  contactFlag : Z;
  bodyUniqueIdA : Z;
  bodyUniqueIdB : Z
}.

Inductive joint_type : Type := JOINT_FIXED | JOINT_GEAR.

(** One constructor per pybullet or generator function the program calls,
    indexed by the type of the reply; the arguments are those the program
    passes.  [GetJointState] replies with the joint position (field 0 of
    pybullet's tuple), [SetJointMotorControlArray] is always called in
    velocity control, and [LoadURDF] takes pybullet's defaults where the
    program gives no base pose or scale. *)
Inductive call {SP : Spatial} : Type -> Type :=
| Connect (gui : bool) : call unit
| SetPhysicsEngineParameter (fixedTimeStep : Q) (numSubSteps : Z) : call unit
| SetGravity (g : vec3) : call unit
| ResetDebugVisualizerCamera (dist yaw pitch : Q) (target : vec3) : call unit
| SaveState : call Z
| RestoreState (stateId : Z) : call unit
| StepSimulation : call unit
| Sleep (seconds : Q) : call unit
| LoadURDF (path : string) (pos : vec3) (ori : quat) (scaling : Q) : call Z
| RemoveBody (uid : Z) : call unit
| CreateConstraint (parent parentLink child childLink : Z) (jt : joint_type)
    (axis parentFramePos childFramePos : vec3) : call Z
| ChangeConstraintGear (cid : Z) (gearRatio erp maxForce : Q) : call unit
| ChangeConstraintPivot (cid : Z) (pivot : vec3) (ori : quat) (maxForce : Q)
    : call unit
| ChangeDynamics (uid link : Z) (lateralFriction : Q) : call unit
| ResetBasePositionAndOrientation (uid : Z) (pos : vec3) (ori : quat)
    : call unit
| GetBasePositionAndOrientation (uid : Z) : call (vec3 * quat)
| ResetJointState (uid joint : Z) (value : Q) : call unit
| GetJointState (uid joint : Z) : call Q
| SetJointMotorControlArray (uid : Z) (joints : list Z)
    (targetVelocities forces : list Q) : call unit
| GetContactPoints (uid : Z) : call (list contact)
| GetAABB (uid : Z) : call (vec3 * vec3)
| RngUniform (lo hi : Q) : call Q
| RngUniform2 (lo hi : Q) : call (Q * Q)
| RngUniform3 (lo hi : vec3) : call vec3
| RngRotation : call Rotation.

Inductive exn : Type :=
| AttributeError (msg : string)
| ValueError (msg : string)
| NotImplementedError.

(** Programs over the calls. *)
Inductive prog {SP : Spatial} (A : Type) : Type :=
| Ret (a : A)
| Raise (e : exn)
| Vis (X : Type) (c : call X) (k : X -> prog A).

Arguments Ret {SP A} a.
Arguments Raise {SP A} e.
Arguments Vis {SP A X} c k.

Section Monad.
Context {SP : Spatial}.

Fixpoint bind {A B : Type} (p : prog A) (f : A -> prog B) : prog B :=
  match p with
  | Ret a => f a
  | Raise e => Raise e
  | Vis c k => Vis c (fun x => bind (k x) f)
  end.

Definition trigger {X : Type} (c : call X) : prog X := Vis c (fun x => Ret x).
End Monad.

Declare Scope prog_scope.
Delimit Scope prog_scope with prog.
Notation "x <- p ;; q" := (bind p (fun x => q))
  (at level 61, p at next level, right associativity) : prog_scope.
Notation "p ;; q" := (bind p (fun _ => q))
  (at level 61, right associativity) : prog_scope.
Notation "' pat <- p ;; q" := (bind p (fun x => match x with pat => q end))
  (at level 61, pat pattern, p at next level, right associativity) : prog_scope.
Open Scope prog_scope.

(* ================================================================== *)
(** ** Running a program against an engine *)

Inductive event {SP : Spatial} : Type :=
| Ev (X : Type) (c : call X) (reply : X).
Arguments Ev {SP X} c reply.

Definition trace {SP : Spatial} : Type := list event.

Definition handler {SP : Spatial} (W : Type) : Type :=
  forall X : Type, call X -> W -> X * W.

Inductive outcome {SP : Spatial} (W A : Type) : Type :=
| Done (a : A) (w : W) (t : trace)
| Failed (e : exn) (w : W) (t : trace).
Arguments Done {SP W A} a w t.
Arguments Failed {SP W A} e w t.

Section Exec.
Context {SP : Spatial} {W : Type}.

Definition prepend {A : Type} (t : trace) (o : outcome W A) : outcome W A :=
  match o with
  | Done a w t' => Done a w (t ++ t')
  | Failed e w t' => Failed e w (t ++ t')
  end.

(** The engine's reply to a call, and the world it leaves. *)
Definition reply {X : Type} (h : handler W) (c : call X) (w : W) : X :=
  fst (h X c w).
Definition next {X : Type} (h : handler W) (c : call X) (w : W) : W :=
  snd (h X c w).

Fixpoint exec {A : Type} (h : handler W) (p : prog A) (w : W) : outcome W A :=
  match p with
  | Ret a => Done a w []
  | Raise e => Failed e w []
  | Vis c k =>
      prepend [Ev c (reply h c w)] (exec h (k (reply h c w)) (next h c w))
  end.

Definition trace_of {A : Type} (o : outcome W A) : trace :=
  match o with Done _ _ t => t | Failed _ _ t => t end.

Definition world_of {A : Type} (o : outcome W A) : W :=
  match o with Done _ w _ => w | Failed _ w _ => w end.

Definition value_of {A : Type} (o : outcome W A) : option A :=
  match o with Done a _ _ => Some a | Failed _ _ _ => None end.
End Exec.

(** Counting the engine steps of a trace. *)
Definition is_step {SP : Spatial} (e : event) : bool :=
  match e with
  | Ev StepSimulation _ => true
  | _ => false
  end.

Definition step_count {SP : Spatial} (t : trace) : nat :=
  List.length (filter is_step t).

(* ================================================================== *)
(** ** Loops *)

Section Loops.
Context {SP : Spatial}.

(** [for _ in range(n): body] *)
Fixpoint repeat_prog (n : nat) (body : prog unit) : prog unit :=
  match n with
  | O => Ret tt
  | S n' => body ;; repeat_prog n' body
  end.

(** [for i in range(start, start + n): body i] *)
Fixpoint for_range (start n : nat) (body : nat -> prog unit) : prog unit :=
  match n with
  | O => Ret tt
  | S n' => body start ;; for_range (S start) n' body
  end.
End Loops.

(** [list.remove(x)]: drops the first occurrence; [None] stands for the
    [ValueError] Python raises when there is none. *)
Fixpoint list_remove (x : Z) (l : list Z) : option (list Z) :=
  match l with
  | [] => None
  | y :: r =>
      if Z.eqb x y then Some r
      else match list_remove x r with
           | Some r' => Some (y :: r')
           | None => None
           end
  end.

Definition LATERAL_FFRICITON : Q := 0.4.
Definition MAX_GRASP_FORCE : Q := 5.

(* ================================================================== *)
(** ** class GraspSim *)

Module GraspSim.
(** [snapshot_id] is [None] while the attribute has not been assigned:
    [__init__] does not create it, only [save_state] does. *)
Record t : Type := mk {
  rate : Q;
  dt : Q;
  sleep : bool;
  snapshot_id : option Z
}.

Section Methods.
Context {SP : Spatial}.

Definition configure_physics_engine (gui : bool) (rate : Q)
    (sub_step_count : Z) : prog (Q * Q) :=
  let dt := (1.0 / rate)%Q in
  trigger (Connect gui) ;;
  trigger (SetPhysicsEngineParameter dt sub_step_count) ;;
  trigger (SetGravity (0.0, 0.0, -9.81)%Q) ;;
  Ret (rate, dt).

Definition configure_visualizer : prog unit :=
  trigger (ResetDebugVisualizerCamera 1.2 30 (-30) (0.4, 0.0, 0.2)%Q).

Definition save_state (self : t) : prog t :=
  id <- trigger SaveState ;;
  Ret (mk (rate self) (dt self) (sleep self) (Some id)).

Definition restore_state (self : t) : prog unit :=
  match snapshot_id self with
  | None =>
      Raise (AttributeError "'GraspSim' object has no attribute 'snapshot_id'")
  | Some id => trigger (RestoreState id)
  end.

Definition step (self : t) : prog unit :=
  trigger StepSimulation ;;
  if sleep self then trigger (Sleep (dt self)) else Ret tt.
End Methods.
End GraspSim.

(* ================================================================== *)
(** ** class PandaGripper *)

Module PandaGripper.
Record t {SP : Spatial} : Type := mk {
  uid : Z;
  fixed_joint_uid : Z;
  max_width : Q;
  max_depth : Q;
  T_ee_com : Transform
}.
Arguments mk {SP} uid fixed_joint_uid max_width max_depth T_ee_com.

Section Methods.
Context {SP : Spatial}.

Definition width (self : t) : prog Q :=
  a <- trigger (GetJointState (uid self) 0) ;;
  b <- trigger (GetJointState (uid self) 1) ;;
  Ret (a + b)%Q.

Definition contacts (self : t) : prog (list contact) :=
  trigger (GetContactPoints (uid self)).

(** Returns [fixed_joint_uid]. *)
Definition create_joints (uid : Z) : prog Z :=
  fixed_joint_uid <-
    trigger (CreateConstraint uid (-1) (-1) (-1) JOINT_FIXED
               (0.0, 0.0, 0.0)%Q (0.0, 0.0, 0.0)%Q (0.0, 0.0, 0.0)%Q) ;;
  gear_joint_uid <-
    trigger (CreateConstraint uid 0 uid 1 JOINT_GEAR
               (1.0, 0.0, 0.0)%Q (0.0, 0.0, 0.0)%Q (0.0, 0.0, 0.0)%Q) ;;
  trigger (ChangeConstraintGear gear_joint_uid (-1) 0.1 50) ;;
  Ret fixed_joint_uid.

Definition update_fixed_joint (self : t) (target : Transform) : prog unit :=
  trigger (ChangeConstraintPivot (fixed_joint_uid self)
             (translation target) (as_quat (rotation target)) 50).

Definition reset (sim : GraspSim.t) (self : t) (pose : Transform)
    (width : Q) : prog unit :=
  let pose := tmul pose (T_ee_com self) in
  trigger (ResetBasePositionAndOrientation (uid self)
             (translation pose) (as_quat (rotation pose))) ;;
  update_fixed_joint self pose ;;
  trigger (ResetJointState (uid self) 0 (0.5 * width)%Q) ;;
  trigger (ResetJointState (uid self) 1 (0.5 * width)%Q) ;;
  GraspSim.step sim.

Definition close_fingers (sim : GraspSim.t) (self : t) : prog unit :=
  trigger (SetJointMotorControlArray (uid self) [0%Z; 1%Z]
             [(-0.1)%Q; (-0.1)%Q] [MAX_GRASP_FORCE; MAX_GRASP_FORCE]) ;;
  repeat_prog 60 (GraspSim.step sim).

(** The [i]-th mount target of [lift], from the base position [pos]. *)
Definition lift_target (pos : vec3) (i : nat) : vec3 :=
  vadd pos (0, 0, inject_Z (Z.of_nat i) * 1.0 / 60.0 * 0.1)%Q.

Definition lift (sim : GraspSim.t) (self : t) : prog unit :=
  po <- trigger (GetBasePositionAndOrientation (uid self)) ;;
  let pos := fst po in
  let ori := from_quat (snd po) in
  for_range 0 60 (fun i =>
    let target := lift_target pos i in
    update_fixed_joint self (mkTransform ori target) ;;
    GraspSim.step sim).

(** [__init__]: the hand is loaded with pybullet's default base pose and
    scale, and parked far away with the jaws open. *)
Definition init (sim : GraspSim.t) : prog t :=
  uid <- trigger (LoadURDF "assets/panda/hand.urdf" (0, 0, 0)%Q
                    (0, 0, 0, 1)%Q 1) ;;
  fixed_joint_uid <- create_joints uid ;;
  let self := mk uid fixed_joint_uid 0.08 0.05
                 (mkTransform rot_identity (0.0, 0.0, -0.025)%Q) in
  reset sim self (Transform_t (100, 100, 100)%Q) (max_width self) ;;
  Ret self.
End Methods.
End PandaGripper.

(* ================================================================== *)
(** ** Grasps and quality metrics *)

Record ParallelJawGrasp {SP : Spatial} : Type := mkGrasp {
  pose : Transform;
  width : Q
}.
Arguments mkGrasp {SP} pose width.

(** The metadata dictionary, in insertion order. *)
Definition metadata : Type := list (string * Z).

Module PhysicsMetric.
Section Methods.
Context {SP : Spatial}.

Definition quality (sim : GraspSim.t) (gripper : PandaGripper.t)
    (grasp : ParallelJawGrasp) : prog (Q * metadata) :=
  PandaGripper.reset sim gripper (pose grasp) (width grasp) ;;
  cs <- PandaGripper.contacts gripper ;;
  match cs with
  | [] =>
      PandaGripper.close_fingers sim gripper ;;
      PandaGripper.lift sim gripper ;;
      contacts <- PandaGripper.contacts gripper ;;
      w <- PandaGripper.width gripper ;;
      match Qgtb w (0.1 * PandaGripper.max_width gripper)%Q, contacts with
      | true, c0 :: _ => Ret (1.0%Q, [("object_uid"%string, bodyUniqueIdB c0)])
      | _, _ => Ret (0.0%Q, [])
      end
  | _ :: _ => Ret (0.0%Q, [])
  end.

Definition call_ := quality.
End Methods.
End PhysicsMetric.

Module RobustPhysicsMetric.
Record t : Type := mk {
  xyz : vec3;
  rpy : vec3;
  sample_count : nat
}.

Section Methods.
Context {SP : Spatial}.

(** One pass through the body of the sampling loop, up to and including
    the call of [quality]. *)
Definition trial (sim : GraspSim.t) (gripper : PandaGripper.t) (self : t)
    (pose : Transform) (width : Q) : prog (Q * metadata) :=
  e <- trigger (RngUniform3 (vneg (rpy self)) (rpy self)) ;;
  let R_err := from_euler_xyz e in
  t_err <- trigger (RngUniform3 (vneg (xyz self)) (xyz self)) ;;
  let grasp := mkGrasp (tmul pose (mkTransform R_err t_err)) width in
  GraspSim.restore_state sim ;;
  PhysicsMetric.quality sim gripper grasp.

Fixpoint trials (n : nat) (sim : GraspSim.t) (gripper : PandaGripper.t)
    (self : t) (pose : Transform) (width : Q) : prog (Q * metadata) :=
  match n with
  | O => Ret (1.0%Q, [])
  | S n' =>
      r <- trial sim gripper self pose width ;;
      if Qeq_bool (fst r) 0 then Ret (0.0%Q, [])
      else trials n' sim gripper self pose width
  end.

Definition call_ (sim : GraspSim.t) (gripper : PandaGripper.t) (self : t)
    (grasp : ParallelJawGrasp) : prog (Q * metadata) :=
  trials (sample_count self) sim gripper self (pose grasp) (width grasp).
End Methods.
End RobustPhysicsMetric.

(* ================================================================== *)
(** ** class Scene and its variants *)

Section LoadUrdf.
Context {SP : Spatial}.

Definition load_urdf (urdf : string) (pose : Transform) (scaling : Q)
    : prog Z :=
  let ori := as_quat (rotation pose) in
  let pos := translation pose in
  trigger (LoadURDF urdf pos ori scaling).
End LoadUrdf.

(** The [scalings] argument of [generate]: one float, or a list. *)
Inductive scalings_arg : Type :=
| ScalarScaling (x : Q)
| ListScaling (l : list Q).

Definition expand_scalings (scalings : scalings_arg) (urdfs : list string)
    : list Q :=
  match scalings with
  | ScalarScaling x => repeat x (List.length urdfs)
  | ListScaling l => l
  end.

Module Scene.
Record t {SP : Spatial} : Type := mk {
  support_urdf : string;
  size : Q;
  origin : option Transform;
  center : option Transform;
  support_uid : Z;
  object_uids : list Z
}.
Arguments mk {SP} support_urdf size origin center support_uid object_uids.

Section Methods.
Context {SP : Spatial}.

Definition init : t :=
  mk "assets/plane/model.urdf" 0.3 None None (-1) [].

Definition set_object_uids (self : t) (l : list Z) : t :=
  mk (support_urdf self) (size self) (origin self) (center self)
     (support_uid self) l.

Definition set_support_uid (self : t) (u : Z) : t :=
  mk (support_urdf self) (size self) (origin self) (center self)
     u (object_uids self).

Definition set_origin_center (self : t) (o c : Transform) : t :=
  mk (support_urdf self) (size self) (Some o) (Some c)
     (support_uid self) (object_uids self).

Definition object_count (self : t) : nat := List.length (object_uids self).

Definition add_support (self : t) (pose : Transform) : prog t :=
  u <- load_urdf (support_urdf self) pose 0.3 ;;
  Ret (set_support_uid self u).

Definition add_object (self : t) (urdf : string) (pose : Transform)
    (scaling : Q) : prog (t * Z) :=
  u <- load_urdf urdf pose scaling ;;
  let self := set_object_uids self (object_uids self ++ [u]) in
  trigger (ChangeDynamics u (-1) LATERAL_FFRICITON) ;;
  Ret (self, u).

Definition remove_support (self : t) : prog unit :=
  trigger (RemoveBody (support_uid self)).

Definition remove_object (self : t) (u : Z) : prog t :=
  trigger (RemoveBody u) ;;
  match list_remove u (object_uids self) with
  | Some l => Ret (set_object_uids self l)
  | None => Raise (ValueError "list.remove(x): x not in list")
  end.

(** The loop of [remove_all_objects] runs over a copy of the list. *)
Fixpoint remove_each (uids : list Z) (self : t) : prog t :=
  match uids with
  | [] => Ret self
  | u :: rest => self' <- remove_object self u ;; remove_each rest self'
  end.

Definition remove_all_objects (self : t) : prog t :=
  remove_each (object_uids self) self.

Definition clear (self : t) : prog t :=
  remove_support self ;;
  remove_all_objects self.

(** [generate] of the base class. *)
Definition generate (self : t) : prog t := Raise NotImplementedError.

Definition wait_for_objects_to_rest (sim : GraspSim.t) : prog unit :=
  repeat_prog 60 (GraspSim.step sim).

(** The test of [remove_outside_objects] on a position relative to the
    origin. *)
Definition outside (self : t) (xyz : vec3) : bool :=
  any_lt xyz 0.0 || any_gt xyz (size self).

(** The loop of [remove_outside_objects] runs over the list itself, which
    its body shortens: the list iterator keeps an index [i], yields
    element [i] of the list as it is now, and stops when [i] is past the
    end.  Every pass advances [i] and the list never grows, so
    [length object_uids] passes are enough ([fuel]). *)
Fixpoint outside_loop (fuel i : nat) (self : t) : prog t :=
  match fuel with
  | O => Ret self
  | S fuel' =>
      match nth_error (object_uids self) i with
      | None => Ret self
      | Some u =>
          po <- trigger (GetBasePositionAndOrientation u) ;;
          match origin self with
          | None =>
              Raise (AttributeError
                       "'NoneType' object has no attribute 'translation'")
          | Some o =>
              let xyz := vsub (fst po) (translation o) in
              if outside self xyz
              then self' <- remove_object self u ;;
                   outside_loop fuel' (S i) self'
              else outside_loop fuel' (S i) self
          end
      end
  end.

Definition remove_outside_objects (sim : GraspSim.t) (self : t) : prog t :=
  wait_for_objects_to_rest sim ;;
  outside_loop (List.length (object_uids self)) 0 self.
End Methods.
End Scene.

Module PackedScene.
Section Methods.
Context {SP : Spatial}.

(** One pass through the body of the attempt loop; [true] when the
    placement is free of contacts (the loop breaks). *)
Definition attempt (sim : GraspSim.t) (self : Scene.t) (origin : Transform)
    (u : Z) (z_offset : Q) (state_id : Z) : prog bool :=
  yaw <- trigger (RngUniform 0 (2 * np_pi)%Q) ;;
  let local_ori := from_rotvec (0, 0, yaw)%Q in
  ab <- trigger (RngUniform2 0.2 0.8) ;;
  let local_pos :=
    (fst ab * Scene.size self, snd ab * Scene.size self, z_offset)%Q in
  let pose := tmul origin (mkTransform local_ori local_pos) in
  trigger (ResetBasePositionAndOrientation u (translation pose)
             (as_quat (rotation pose))) ;;
  GraspSim.step sim ;;
  cs <- trigger (GetContactPoints u) ;;
  match cs with
  | _ :: _ => trigger (RestoreState state_id) ;; Ret false
  | [] => Ret true
  end.

(** [for _ in range(max_attempts): ... break / else]: [true] when the
    loop was left by [break], [false] when it ran out. *)
Fixpoint attempts (n : nat) (sim : GraspSim.t) (self : Scene.t)
    (origin : Transform) (u : Z) (z_offset : Q) (state_id : Z)
    : prog bool :=
  match n with
  | O => Ret false
  | S n' =>
      ok <- attempt sim self origin u z_offset state_id ;;
      if ok then Ret true
      else attempts n' sim self origin u z_offset state_id
  end.

(** The body of the loop over the objects. *)
Definition place_object (sim : GraspSim.t) (self : Scene.t)
    (origin : Transform) (max_attempts : nat) (urdf : string)
    (scaling : Q) : prog Scene.t :=
  su <- Scene.add_object self urdf Transform_identity scaling ;;
  let self := fst su in
  let u := snd su in
  lu <- trigger (GetAABB u) ;;
  let z_offset := (0.5 * (vz (snd lu) - vz (fst lu)) + 0.002)%Q in
  state_id <- trigger SaveState ;;
  placed <- attempts max_attempts sim self origin u z_offset state_id ;;
  if placed then Ret self else Scene.remove_object self u.

Fixpoint place_objects (sim : GraspSim.t) (self : Scene.t)
    (origin : Transform) (max_attempts : nat)
    (specs : list (string * Q)) : prog Scene.t :=
  match specs with
  | [] => Ret self
  | (urdf, scaling) :: rest =>
      self' <- place_object sim self origin max_attempts urdf scaling ;;
      place_objects sim self' origin max_attempts rest
  end.

Definition generate (sim : GraspSim.t) (self : Scene.t)
    (origin : Transform) (urdfs : list string) (scalings : scalings_arg)
    (max_attempts : nat) : prog Scene.t :=
  let scalings := expand_scalings scalings urdfs in
  let center :=
    tmul origin
         (Transform_t (0.5 * Scene.size self, 0.5 * Scene.size self, 0)%Q) in
  let self := Scene.set_origin_center self origin center in
  self <- Scene.add_support self center ;;
  self <- place_objects sim self origin max_attempts
            (combine urdfs scalings) ;;
  Scene.remove_outside_objects sim self.
End Methods.
End PackedScene.

Module PileScene.
Section Methods.
Context {SP : Spatial}.

Definition drop_object (sim : GraspSim.t) (self : Scene.t)
    (origin : Transform) (urdf : string) (scaling : Q) : prog Scene.t :=
  loc_ori <- trigger RngRotation ;;
  ab <- trigger (RngUniform2 (Scene.size self / 3) (2 * Scene.size self / 3)) ;;
  let loc_pos := (fst ab, snd ab, 0.25)%Q in
  let pose := tmul origin (mkTransform loc_ori loc_pos) in
  su <- Scene.add_object self urdf pose scaling ;;
  Scene.wait_for_objects_to_rest sim ;;
  Ret (fst su).

Fixpoint drop_objects (sim : GraspSim.t) (self : Scene.t)
    (origin : Transform) (specs : list (string * Q)) : prog Scene.t :=
  match specs with
  | [] => Ret self
  | (urdf, scaling) :: rest =>
      self' <- drop_object sim self origin urdf scaling ;;
      drop_objects sim self' origin rest
  end.

Definition generate (sim : GraspSim.t) (self : Scene.t)
    (origin : Transform) (urdfs : list string) (scalings : scalings_arg)
    : prog Scene.t :=
  let scalings := expand_scalings scalings urdfs in
  let center :=
    tmul origin
         (Transform_t (0.5 * Scene.size self, 0.5 * Scene.size self, 0)%Q) in
  let self := Scene.set_origin_center self origin center in
  self <- Scene.add_support self center ;;
  box <- load_urdf "assets/box/model.urdf"
           (Transform_t (0.02, 0.02, 0.05)%Q) 1.3 ;;
  self <- drop_objects sim self origin (combine urdfs scalings) ;;
  trigger (RemoveBody box) ;;
  Scene.remove_outside_objects sim self.
End Methods.
End PileScene.

(* ================================================================== *)
(** ** Reading a trace *)

Section Observers.
Context {SP : Spatial}.

(** The mount targets commanded along a trace, in order. *)
Definition pivot_of (e : event) : option (Z * vec3 * quat * Q) :=
  match e with
  | Ev (ChangeConstraintPivot cid pivot ori f) _ => Some (cid, pivot, ori, f)
  | _ => None
  end.

Fixpoint pivot_targets (t : trace) : list (Z * vec3 * quat * Q) :=
  match t with
  | [] => []
  | e :: t' =>
      match pivot_of e with
      | Some x => x :: pivot_targets t'
      | None => pivot_targets t'
      end
  end.

(** The joint positions commanded along a trace, in order. *)
Definition joint_reset_of (e : event) : option (Z * Z * Q) :=
  match e with
  | Ev (ResetJointState u j v) _ => Some (u, j, v)
  | _ => None
  end.

Fixpoint joint_resets (t : trace) : list (Z * Z * Q) :=
  match t with
  | [] => []
  | e :: t' =>
      match joint_reset_of e with
      | Some x => x :: joint_resets t'
      | None => joint_resets t'
      end
  end.

(** The calls of one [sim.step()]. *)
Definition step_events (sim : GraspSim.t) : trace :=
  Ev StepSimulation tt ::
  (if GraspSim.sleep sim then [Ev (Sleep (GraspSim.dt sim)) tt] else []).

(** The calls of [reset], in order. *)
Definition reset_events (sim : GraspSim.t) (g : PandaGripper.t)
    (p : Transform) (wd : Q) : trace :=
  let p' := tmul p (PandaGripper.T_ee_com g) in
  [ Ev (ResetBasePositionAndOrientation (PandaGripper.uid g)
          (translation p') (as_quat (rotation p'))) tt;
    Ev (ChangeConstraintPivot (PandaGripper.fixed_joint_uid g)
          (translation p') (as_quat (rotation p')) 50) tt;
    Ev (ResetJointState (PandaGripper.uid g) 0 (0.5 * wd)%Q) tt;
    Ev (ResetJointState (PandaGripper.uid g) 1 (0.5 * wd)%Q) tt ]
  ++ step_events sim.

(** The calls of [close_fingers], in order. *)
Definition close_events (sim : GraspSim.t) (g : PandaGripper.t) : trace :=
  Ev (SetJointMotorControlArray (PandaGripper.uid g) [0%Z; 1%Z]
        [(-0.1)%Q; (-0.1)%Q] [MAX_GRASP_FORCE; MAX_GRASP_FORCE]) tt ::
  List.concat (repeat (step_events sim) 60).

(** The calls of [lift], in order, when the base pose read is [po]. *)
Definition lift_events (sim : GraspSim.t) (g : PandaGripper.t)
    (po : vec3 * quat) : trace :=
  Ev (GetBasePositionAndOrientation (PandaGripper.uid g)) po ::
  List.concat (map (fun i =>
                 Ev (ChangeConstraintPivot (PandaGripper.fixed_joint_uid g)
                       (PandaGripper.lift_target (fst po) i)
                       (as_quat (from_quat (snd po))) 50) tt ::
                 step_events sim)
              (seq 0 60)).

(** Reading a trace through a partial view of its events. *)
Fixpoint collect {A : Type} (f : event -> option A) (t : trace) : list A :=
  match t with
  | [] => []
  | e :: t' =>
      match f e with
      | Some x => x :: collect f t'
      | None => collect f t'
      end
  end.



(** The bodies removed along a trace. *)
Definition removal_of (e : event) : option Z :=
  match e with
  | Ev (RemoveBody u) _ => Some u
  | _ => None
  end.

Definition removals (t : trace) : list Z := collect removal_of t.

(** The bodies created along a trace. *)
Definition load_of (e : event) : option Z :=
  match e with
  | Ev (LoadURDF _ _ _ _) u => Some u
  | _ => None
  end.

Definition loads (t : trace) : list Z := collect load_of t.

(** An event that neither creates nor removes a body. *)
Definition quiet_event (e : event) : bool :=
  match load_of e, removal_of e with
  | None, None => true
  | _, _ => false
  end.

Definition quiet (t : trace) : Prop := forallb quiet_event t = true.

(** A program whose calls neither create nor remove a body. *)
Definition neutral {A : Type} (p : prog A) : Prop :=
  forall (W : Type) (h : handler W) (w : W), quiet (trace_of (exec h p w)).

(** A program that never raises and returns a value with property [P]. *)
Definition returns_with {A : Type} (P : A -> Prop) (p : prog A) : Prop :=
  forall (W : Type) (h : handler W) (w : W),
    exists a w' t, exec h p w = Done a w' t /\ P a.

(** A program that never raises, whatever the engine replies. *)
Definition safe {A : Type} (p : prog A) : Prop :=
  forall (W : Type) (h : handler W) (w : W),
    exists a, value_of (exec h p w) = Some a.
End Observers.

(* ================================================================== *)
(** ** GraspSim.__init__ and the scene registry *)

Inductive scene_kind : Type := Packed | Pile.

(** The [scenes] dictionary. *)
Definition scenes (name : string) : option scene_kind :=
  if String.eqb name "packed" then Some Packed
  else if String.eqb name "pile" then Some Pile
  else None.

Record config : Type := mkConfig {
  cfg_gui : bool;
  cfg_sleep : bool;
  cfg_scene : string
}.

Section Session.
Context {SP : Spatial}.

Definition get_scene (name : string) : prog (scene_kind * Scene.t) :=
  match scenes name with
  | Some k => Ret (k, Scene.init)
  | None => Raise (ValueError (name ++ " scene does not exist."))
  end.

(** [GraspSim.__init__].  The camera object belongs to the rendering
    library and is left out; no attribute [snapshot_id] is created. *)
Definition GraspSim_init (cfg : config)
    : prog (GraspSim.t * PandaGripper.t * (scene_kind * Scene.t)) :=
  rd <- GraspSim.configure_physics_engine (cfg_gui cfg) 60 4 ;;
  GraspSim.configure_visualizer ;;
  let self := GraspSim.mk (fst rd) (snd rd) (cfg_sleep cfg) None in
  gripper <- PandaGripper.init self ;;
  scene <- get_scene (cfg_scene cfg) ;;
  Ret (self, gripper, scene).
End Session.

(* ================================================================== *)
(** ** The bodies of a session, read off a trace *)

Section Bodies.
Context {SP : Spatial}.

(** The bodies present after an event, from those present before it. *)
Definition live_step (B : list Z) (e : event) : list Z :=
  match e with
  | Ev (LoadURDF _ _ _ _) u => u :: B
  | Ev (RemoveBody u) _ => List.remove Z.eq_dec u B
  | _ => B
  end.

Definition live_bodies (B : list Z) (t : trace) : list Z :=
  fold_left live_step t B.

(** An engine hands out fresh handles: a body it creates is none of the
    bodies present. *)
Definition fresh_step (B : list Z) (e : event) : Prop :=
  match e with
  | Ev (LoadURDF _ _ _ _) u => ~ In u B
  | _ => True
  end.

Fixpoint fresh_loads (B : list Z) (t : trace) : Prop :=
  match t with
  | [] => True
  | e :: t' => fresh_step B e /\ fresh_loads (live_step B e) t'
  end.

(** The same, as a test. *)
Definition fresh_stepb (B : list Z) (e : event) : bool :=
  match e with
  | Ev (LoadURDF _ _ _ _) u => negb (existsb (Z.eqb u) B)
  | _ => true
  end.

Fixpoint fresh_loadsb (B : list Z) (t : trace) : bool :=
  match t with
  | [] => true
  | e :: t' => fresh_stepb B e && fresh_loadsb (live_step B e) t'
  end.

(** The managed object set is in sync with the session. *)
Definition in_sync (s : Scene.t) (B : list Z) : Prop :=
  NoDup (Scene.object_uids s) /\
  forall u, In u (Scene.object_uids s) -> In u B.
End Bodies.

Section SyncVocabulary.
Context {SP : Spatial} {W : Type} (h : handler W).

(** In sync, with the bodies [F] present and outside the managed set. *)
Definition sync_with (F : list Z) (s : Scene.t) (B : list Z) : Prop :=
  in_sync s B /\
  forall x, In x F -> In x B /\ ~ In x (Scene.object_uids s).

(** Running [p] from a scene [s] in sync leaves the scene [sc a] of its
    result [a] in sync, provided the engine hands out fresh handles. *)
Definition keeps {A : Type} (F : list Z) (sc : A -> Scene.t) (s : Scene.t)
    (p : prog A) : Prop :=
  forall (w : W) (B : list Z),
    sync_with F s B ->
    match exec h p w with
    | Done a _ t => fresh_loads B t -> sync_with F (sc a) (live_bodies B t)
    | Failed _ _ _ => True
    end.
End SyncVocabulary.

(** The operations of a scene: the methods of [Scene] and of its two
    subclasses. *)
Inductive scene_op {SP : Spatial} : Type :=
| OpAddObject (urdf : string) (pose : Transform) (scaling : Q)
| OpRemoveObject (u : Z)
| OpRemoveAllObjects
| OpClear
| OpRemoveOutsideObjects (sim : GraspSim.t)
| OpPackedGenerate (sim : GraspSim.t) (origin : Transform)
    (urdfs : list string) (scalings : scalings_arg) (max_attempts : nat)
| OpPileGenerate (sim : GraspSim.t) (origin : Transform)
    (urdfs : list string) (scalings : scalings_arg)
| OpAddSupport (pose : Transform)
| OpRemoveSupport
| OpWaitForObjectsToRest (sim : GraspSim.t)
| OpGenerate.

Definition run_op {SP : Spatial} (op : scene_op) (s : Scene.t) : prog Scene.t :=
  match op with
  | OpAddObject urdf pose scaling =>
      su <- Scene.add_object s urdf pose scaling ;; Ret (fst su)
  | OpRemoveObject u => Scene.remove_object s u
  | OpRemoveAllObjects => Scene.remove_all_objects s
  | OpClear => Scene.clear s
  | OpRemoveOutsideObjects sim => Scene.remove_outside_objects sim s
  | OpPackedGenerate sim origin urdfs scalings n =>
      PackedScene.generate sim s origin urdfs scalings n
  | OpPileGenerate sim origin urdfs scalings =>
      PileScene.generate sim s origin urdfs scalings
  | OpAddSupport pose => Scene.add_support s pose
  | OpRemoveSupport => Scene.remove_support s ;; Ret s
  | OpWaitForObjectsToRest sim => Scene.wait_for_objects_to_rest sim ;; Ret s
  | OpGenerate => Scene.generate s
  end.

(** When an operation is called within its precondition. *)
Definition op_pre {SP : Spatial} (op : scene_op) (s : Scene.t) : Prop :=
  match op with
  | OpRemoveObject u => In u (Scene.object_uids s)
  | OpRemoveOutsideObjects _ =>
      Scene.origin s <> None \/ Scene.object_uids s = []
  | OpGenerate => False
  | _ => True
  end.

(** The support's handle is not a handle of the managed set; asked of
    [remove_support] only. *)
Definition support_apart {SP : Spatial} (op : scene_op) (s : Scene.t) : Prop :=
  match op with
  | OpRemoveSupport => ~ In (Scene.support_uid s) (Scene.object_uids s)
  | _ => True
  end.

(* ================================================================== *)
(** ** Statements named by the specification *)

Section SpecWords.
Context {SP : Spatial} {W : Type} (h : handler W).

(** The boundary policy the specification asks of [reset] for a width
    beyond the maximum: the command is rejected (an exception is raised),
    or it is clamped (no finger joint is set beyond half the maximum
    width). *)
Definition reset_clamps_or_rejects (sim : GraspSim.t) (g : PandaGripper.t)
    (p : Transform) (wd : Q) (w : W) : Prop :=
  let o := exec h (PandaGripper.reset sim g p wd) w in
  value_of o = None \/
  (forall u j v, In (u, j, v) (joint_resets (trace_of o)) ->
                 (v <= 0.5 * PandaGripper.max_width g)%Q).

(** [n] sampled trials in a row, each with a quality other than 0: the
    run goes from world [w] to world [w'], makes the calls [t], and the
    trials return [rs], in order. *)
Inductive trials_pass (sim : GraspSim.t) (g : PandaGripper.t)
    (m : RobustPhysicsMetric.t) (p : Transform) (wd : Q)
    : nat -> W -> W -> trace -> list (Q * metadata) -> Prop :=
| pass_none (w : W) : trials_pass sim g m p wd 0 w w [] []
| pass_more (n : nat) (w w1 w2 : W) (t1 t2 : trace) (r : Q * metadata)
    (rs : list (Q * metadata)) :
    exec h (RobustPhysicsMetric.trial sim g m p wd) w = Done r w1 t1 ->
    ~ (fst r == 0)%Q ->
    trials_pass sim g m p wd n w1 w2 t2 rs ->
    trials_pass sim g m p wd (S n) w w2 (t1 ++ t2) (r :: rs).



(** The invariant of the specification for one operation, as stated: run
    from a scene in sync with the bodies [B] present, on an engine that
    hands out fresh handles, the operation leaves the scene in sync. *)
Definition op_keeps_sync (op : scene_op) (s : Scene.t) (B : list Z) (w : W)
    : Prop :=
  in_sync s B ->
  match exec h (run_op op s) w with
  | Done s' _ t => fresh_loads B t -> in_sync s' (live_bodies B t)
  | Failed _ _ _ => True
  end.

(** [k] placement attempts in a row, each ending in a contact (and so in a
    restore of the snapshot [state_id]). *)
Inductive attempts_fail (sim : GraspSim.t) (s : Scene.t) (origin : Transform)
    (u : Z) (z_offset : Q) (state_id : Z)
    : nat -> W -> W -> trace -> Prop :=
| fail_none (w : W) : attempts_fail sim s origin u z_offset state_id 0 w w []
| fail_more (k : nat) (w w1 w2 : W) (t1 t2 : trace) :
    exec h (PackedScene.attempt sim s origin u z_offset state_id) w =
      Done false w1 t1 ->
    attempts_fail sim s origin u z_offset state_id k w1 w2 t2 ->
    attempts_fail sim s origin u z_offset state_id (S k) w w2 (t1 ++ t2).

(** One object spec handled as the Packed generator is said to: the object
    is added at the identity pose (handle [u]), its bounding box is read
    and a snapshot is saved; then either [k < max_attempts] attempts fail,
    attempt [k + 1] is free of contacts and the object stays in the scene
    with no further attempt, or all [max_attempts] attempts fail and the
    object is removed from the engine and from the managed set.  The run
    goes from scene [s] and world [w] to scene [s'] and world [w'], making
    the calls [t]. *)
Definition placed_one (sim : GraspSim.t) (origin : Transform)
    (max_attempts : nat) (urdf : string) (scaling : Q)
    (s : Scene.t) (w : W) (s' : Scene.t) (w' : W) (t : trace) : Prop :=
  let ld := LoadURDF urdf (0, 0, 0)%Q (as_quat rot_identity) scaling in
  let u := reply h ld w in
  let s1 := Scene.set_object_uids s (Scene.object_uids s ++ [u]) in
  let cd := ChangeDynamics u (-1) LATERAL_FFRICITON in
  let w2 := next h cd (next h ld w) in
  let lu := reply h (GetAABB u) w2 in
  let z_offset := (0.5 * (vz (snd lu) - vz (fst lu)) + 0.002)%Q in
  let sid := reply h SaveState (next h (GetAABB u) w2) in
  let w4 := next h SaveState (next h (GetAABB u) w2) in
  let pre := [Ev ld u; Ev cd tt; Ev (GetAABB u) lu; Ev SaveState sid] in
  (exists k w1 t1 t2,
      (k < max_attempts)%nat /\
      attempts_fail sim s1 origin u z_offset sid k w4 w1 t1 /\
      exec h (PackedScene.attempt sim s1 origin u z_offset sid) w1 =
        Done true w' t2 /\
      s' = s1 /\ t = pre ++ t1 ++ t2) \/
  (exists w1 t1 l,
      attempts_fail sim s1 origin u z_offset sid max_attempts w4 w1 t1 /\
      list_remove u (Scene.object_uids s ++ [u]) = Some l /\
      (~ In u (Scene.object_uids s) -> l = Scene.object_uids s) /\
      s' = Scene.set_object_uids s1 l /\
      w' = next h (RemoveBody u) w1 /\
      t = pre ++ t1 ++ [Ev (RemoveBody u) tt]).

(** The object specs of a list handled one after the other, in list
    order, each as [placed_one] says. *)
Inductive placed_all (sim : GraspSim.t) (origin : Transform)
    (max_attempts : nat)
    : list (string * Q) -> Scene.t -> W -> Scene.t -> W -> trace -> Prop :=
| placed_none (s : Scene.t) (w : W) :
    placed_all sim origin max_attempts [] s w s w []
| placed_next (urdf : string) (scaling : Q) (rest : list (string * Q))
    (s s1 s2 : Scene.t) (w w1 w2 : W) (t1 t2 : trace) :
    placed_one sim origin max_attempts urdf scaling s w s1 w1 t1 ->
    placed_all sim origin max_attempts rest s1 w1 s2 w2 t2 ->
    placed_all sim origin max_attempts ((urdf, scaling) :: rest) s w s2 w2
               (t1 ++ t2).
End SpecWords.

(* ================================================================== *)
(** ** A scripted engine for concrete scenarios *)

Module Mock.
(** Rotations as unit quaternions [(x, y, z, w)] with exact arithmetic.
    The two constructors from angles are exact at angle zero, which is all
    the scenarios below ask of them. *)
Definition qmul (a b : quat) : quat :=
  let '(x1, y1, z1, w1) := a in
  let '(x2, y2, z2, w2) := b in
  (w1 * x2 + x1 * w2 + y1 * z2 - z1 * y2,
   w1 * y2 - x1 * z2 + y1 * w2 + z1 * x2,
   w1 * z2 + x1 * y2 - y1 * x2 + z1 * w2,
   w1 * w2 - x1 * x2 - y1 * y2 - z1 * z2)%Q.

Definition cross (a b : vec3) : vec3 :=
  (vy a * vz b - vz a * vy b,
   vz a * vx b - vx a * vz b,
   vx a * vy b - vy a * vx b)%Q.

Definition qapply (q : quat) (v : vec3) : vec3 :=
  let '(x, y, z, w) := q in
  let u : vec3 := (x, y, z) in
  let c1 := cross u v in
  let c2 := cross u c1 in
  (vx v + 2 * w * vx c1 + 2 * vx c2,
   vy v + 2 * w * vy c1 + 2 * vy c2,
   vz v + 2 * w * vz c1 + 2 * vz c2)%Q.

Definition qid : quat := (0, 0, 0, 1)%Q.

Definition spatial : Spatial := {|
  Rotation := quat;
  rot_identity := qid;
  rot_mul := qmul;
  rot_apply := qapply;
  as_quat := fun q => q;
  from_quat := fun q => q;
  from_euler_xyz := fun _ => qid;
  from_rotvec := fun _ => qid
|}.

(** The world of the scripted engine: the next free handle, the base
    position of each body, the two finger joints, and the replies the
    contact queries will get, in order. *)
Record world : Type := mkWorld {
  next_id : Z;
  positions : list (Z * vec3);
  joints : Q * Q;
  contact_script : list (list contact)
}.

Fixpoint lookup (u : Z) (l : list (Z * vec3)) : vec3 :=
  match l with
  | [] => (0, 0, 0)%Q
  | (k, v) :: r => if Z.eqb u k then v else lookup u r
  end.

Definition alloc (w : world) : Z * world :=
  (next_id w,
   mkWorld (next_id w + 1) (positions w) (joints w) (contact_script w)).

Definition engine : @handler spatial world :=
  fun X c =>
    match c in @call _ X return world -> X * world with
    | SaveState => alloc
    | LoadURDF _ pos _ _ => fun w =>
        (next_id w,
         mkWorld (next_id w + 1) ((next_id w, pos) :: positions w)
                 (joints w) (contact_script w))
    | CreateConstraint _ _ _ _ _ _ _ _ => alloc
    | ResetBasePositionAndOrientation u pos _ => fun w =>
        (tt, mkWorld (next_id w) ((u, pos) :: positions w)
                     (joints w) (contact_script w))
    | GetBasePositionAndOrientation u => fun w =>
        ((lookup u (positions w), qid), w)
    | ResetJointState _ j v => fun w =>
        (tt, mkWorld (next_id w) (positions w)
               (if Z.eqb j 0 then (v, snd (joints w)) else (fst (joints w), v))
               (contact_script w))
    | GetJointState _ j => fun w =>
        (if Z.eqb j 0 then fst (joints w) else snd (joints w), w)
    | GetContactPoints _ => fun w =>
        match contact_script w with
        | [] => ([], w)
        | cs :: rest =>
            (cs, mkWorld (next_id w) (positions w) (joints w) rest)
        end
    | GetAABB _ => fun w => (((0, 0, 0)%Q, (0.05, 0.05, 0.05)%Q), w)
    | RngUniform lo _ => fun w => (lo, w)
    | RngUniform2 lo _ => fun w => ((lo, lo), w)
    | RngUniform3 lo _ => fun w => (lo, w)
    | RngRotation => fun w => (qid, w)
    | Connect _ => fun w => (tt, w)
    | SetPhysicsEngineParameter _ _ => fun w => (tt, w)
    | SetGravity _ => fun w => (tt, w)
    | ResetDebugVisualizerCamera _ _ _ _ => fun w => (tt, w)
    | RestoreState _ => fun w => (tt, w)
    | StepSimulation => fun w => (tt, w)
    | Sleep _ => fun w => (tt, w)
    | RemoveBody _ => fun w => (tt, w)
    | ChangeConstraintGear _ _ _ _ => fun w => (tt, w)
    | ChangeConstraintPivot _ _ _ _ => fun w => (tt, w)
    | ChangeDynamics _ _ _ => fun w => (tt, w)
    | SetJointMotorControlArray _ _ _ _ => fun w => (tt, w)
    end.

Definition sim : GraspSim.t := GraspSim.mk 60 (1.0 / 60) false None.

(** The gripper as [PandaGripper.__init__] leaves it, with handle 0 and
    mount constraint 1. *)
Definition gripper : @PandaGripper.t spatial :=
  @PandaGripper.mk spatial 0 1 0.08 0.05
    (@mkTransform spatial qid (0.0, 0.0, -0.025)%Q).

Definition world0 : world := mkWorld 2 [] (0, 0) [].

Definition at_origin : @Transform spatial := @mkTransform spatial qid (0, 0, 0)%Q.

Definition sim_saved : GraspSim.t := GraspSim.mk 60 (1.0 / 60) false (Some 1%Z).

Definition scene_of (uids : list Z) : @Scene.t spatial :=
  @Scene.mk spatial "assets/plane/model.urdf" 0.3 (Some at_origin)
    (Some at_origin) 2 uids.

(** One object, handle 3, resting above the middle of the footprint at
    height 0.5. *)
Definition world_high : world :=
  mkWorld 4 [(3%Z, (0.15, 0.15, 0.5)%Q)] (0, 0) [].

(** Two objects, handles 3 and 4, both beside the footprint. *)
Definition world_two_out : world :=
  mkWorld 5 [(3%Z, (-1, 0.1, 0.02)%Q); (4%Z, (0.1, 2, 0.02)%Q)] (0, 0) [].

Definition touch (b : Z) : contact := mkContact 0 0 b.

(** A grasp at the origin, 5 cm wide, and a perturbation model with no
    rotational error. *)
Definition grasp0 : @ParallelJawGrasp spatial := @mkGrasp spatial at_origin 0.05.

Definition metric (n : nat) : RobustPhysicsMetric.t :=
  RobustPhysicsMetric.mk (0.005, 0.005, 0.005)%Q (0, 0, 0)%Q n.

(** The gripper is free at the grasp pose and touches body 3 after the
    lift, once; later contact queries find nothing. *)
Definition world_grip : world := mkWorld 4 [] (0, 0) [[]; [touch 3]].

(** Placing two objects: the first attempt for the first object touches
    the gripper, every later attempt is free. *)
Definition world_pack : world := mkWorld 2 [] (0, 0) [[touch 0]].

(** An engine that hands out the least handle not in use, so that the
    handle of a removed body is handed out again.  Its world is the list of
    the bodies present; every other call is answered as the scripted
    engine answers it in [world0]. *)
Definition least_free (used : list Z) : Z :=
  match find (fun n => negb (existsb (Z.eqb n) used))
             (map Z.of_nat (seq 0 (S (List.length used)))) with
  | Some n => n
  | None => 0
  end.

Definition recycler : @handler spatial (list Z) :=
  fun X c =>
    match c in @call _ X return list Z -> X * list Z with
    | LoadURDF _ _ _ _ => fun used => (least_free used, least_free used :: used)
    | RemoveBody u => fun used => (tt, List.remove Z.eq_dec u used)
    | c' => fun used => (reply engine c' world0, used)
    end.

(** Generating a packed scene of two objects, two attempts each. *)
Definition pack_op : @scene_op spatial :=
  @OpPackedGenerate spatial sim at_origin
    ["a.urdf"%string; "b.urdf"%string] (ScalarScaling 1) 2.
End Mock.

(* ================================================================== *)
(** ** get_quality_fn and the constructors of the metrics *)

(** The [cfg] argument of a metric: [None] is Python's [None] (the default
    of [get_quality_fn]), a field that is [None] is a key the dictionary
    lacks.  Keys the constructors do not read are left out. *)
Record uncertainty_cfg : Type := mkUncertainty {
  cfg_xyz : option vec3;
  cfg_rpy : option vec3
}.

Record quality_cfg : Type := mkQualityCfg {
  cfg_uncertainty : option uncertainty_cfg;
  cfg_sample_count : option nat
}.

(** What the constructors and the registry raise; they call no engine. *)
Inductive config_error : Type :=
| ConfigValueError (msg : string)
| ConfigTypeError (msg : string)
| ConfigKeyError (key : string).

Inductive quality_kind : Type := PhysicsKind | RobustPhysicsKind.

(** The [quality_fns] dictionary. *)
Definition quality_fns (name : string) : option quality_kind :=
  if String.eqb name "physics" then Some PhysicsKind
  else if String.eqb name "robust_physics" then Some RobustPhysicsKind
  else None.

(** A constructed metric. *)
Inductive quality_fn : Type :=
| PhysicsFn
| RobustPhysicsFn (m : RobustPhysicsMetric.t).

(** [GraspQualityMetric.__init__], which [PhysicsMetric] inherits: [cfg] is
    not read. *)
Definition PhysicsMetric_init (cfg : option quality_cfg)
    : config_error + quality_fn :=
  inr PhysicsFn.

(** [RobustPhysicsMetric.__init__]: the subscripts are evaluated in the
    order of the source. *)
Definition RobustPhysicsMetric_init (cfg : option quality_cfg)
    : config_error + quality_fn :=
  match cfg with
  | None => inl (ConfigTypeError "'NoneType' object is not subscriptable")
  | Some c =>
      match cfg_uncertainty c with
      | None => inl (ConfigKeyError "uncertainty")
      | Some u =>
          match cfg_xyz u with
          | None => inl (ConfigKeyError "xyz")
          | Some xyz =>
              match cfg_rpy u with
              | None => inl (ConfigKeyError "rpy")
              | Some rpy =>
                  match cfg_sample_count c with
                  | None => inl (ConfigKeyError "sample_count")
                  | Some n =>
                      inr (RobustPhysicsFn (RobustPhysicsMetric.mk xyz rpy n))
                  end
              end
          end
      end
  end.

Definition get_quality_fn (name : string) (cfg : option quality_cfg)
    : config_error + quality_fn :=
  match quality_fns name with
  | Some PhysicsKind => PhysicsMetric_init cfg
  | Some RobustPhysicsKind => RobustPhysicsMetric_init cfg
  | None => inl (ConfigValueError (name ++ " quality_fn does not exist."))
  end.

(** Calling a constructed metric on a grasp. *)
Definition quality_fn_call {SP : Spatial} (sim : GraspSim.t)
    (gripper : PandaGripper.t) (f : quality_fn) (grasp : ParallelJawGrasp)
    : prog (Q * metadata) :=
  match f with
  | PhysicsFn => PhysicsMetric.call_ sim gripper grasp
  | RobustPhysicsFn m => RobustPhysicsMetric.call_ sim gripper m grasp
  end.

(* ================================================================== *)
(** ** Counting along a trace *)

Section Measures.
Context {SP : Spatial}.

(** The sum of a weight over the events of a trace. *)
Definition tally (mu : event -> nat) (t : trace) : nat :=
  list_sum (map mu t).

Definition step_weight (e : event) : nat := if is_step e then 1 else 0.

Definition load_weight (e : event) : nat :=
  match load_of e with Some _ => 1 | None => 0 end.

Definition removal_weight (e : event) : nat :=
  match removal_of e with Some _ => 1 | None => 0 end.

(** Saving or restoring a snapshot. *)
Definition snapshot_weight (e : event) : nat :=
  match e with
  | Ev SaveState _ => 1
  | Ev (RestoreState _) _ => 1
  | _ => 0
  end.

(** Saving a snapshot. *)
Definition save_weight (e : event) : nat :=
  match e with
  | Ev SaveState _ => 1
  | _ => 0
  end.

(** Advancing the simulation or pacing it to real time. *)
Definition pacing (e : event) : bool :=
  match e with
  | Ev StepSimulation _ => true
  | Ev (Sleep _) _ => true
  | _ => false
  end.

(** A program that never raises, whose calls weigh [n] in all, and whose
    result has property [P]. *)
Definition costs {A : Type} (mu : event -> nat) (n : nat) (P : A -> Prop)
    (p : prog A) : Prop :=
  forall (W : Type) (h : handler W) (w : W),
    exists a w' t, exec h p w = Done a w' t /\ tally mu t = n /\ P a.




End Measures.

(** The calls of [PandaGripper.__init__] before it parks the gripper, for
    the handles [u], [fj] and [gear] the engine returns. *)
Definition gripper_setup_events {SP : Spatial} (u fj gear : Z) : trace :=
  [ Ev (LoadURDF "assets/panda/hand.urdf" (0, 0, 0)%Q (0, 0, 0, 1)%Q 1) u;
    Ev (CreateConstraint u (-1) (-1) (-1) JOINT_FIXED
          (0.0, 0.0, 0.0)%Q (0.0, 0.0, 0.0)%Q (0.0, 0.0, 0.0)%Q) fj;
    Ev (CreateConstraint u 0 u 1 JOINT_GEAR
          (1.0, 0.0, 0.0)%Q (0.0, 0.0, 0.0)%Q (0.0, 0.0, 0.0)%Q) gear;
    Ev (ChangeConstraintGear gear (-1) 0.1 50) tt ].

(** The calls of [configure_physics_engine] and [configure_visualizer] as
    [GraspSim.__init__] makes them. *)
Definition configure_events {SP : Spatial} (gui : bool) : trace :=
  [ Ev (Connect gui) tt;
    Ev (SetPhysicsEngineParameter (1.0 / 60) 4) tt;
    Ev (SetGravity (0.0, 0.0, -9.81)%Q) tt;
    Ev (ResetDebugVisualizerCamera 1.2 30 (-30) (0.4, 0.0, 0.2)%Q) tt ].

(** The gripper [PandaGripper.__init__] builds on the handles [u], [fj]. *)
Definition new_gripper {SP : Spatial} (u fj : Z) : PandaGripper.t :=
  PandaGripper.mk u fj 0.08 0.05 (mkTransform rot_identity (0.0, 0.0, -0.025)%Q).


(* ================================================================== *)
(** * Properties *)

Unset Implicit Arguments.

(** ** Running programs: equations of [exec] *)

Section ExecFacts.
Context {SP : Spatial} {W : Type} (h : handler W).

Lemma prepend_nil {A} (o : outcome W A) : prepend [] o = o.
Proof. destruct o; reflexivity. Qed.

Lemma prepend_prepend {A} (t1 t2 : trace) (o : outcome W A) :
  prepend t1 (prepend t2 o) = prepend (t1 ++ t2) o.
Proof. destruct o; simpl; rewrite app_assoc; reflexivity. Qed.

Lemma exec_bind {A B} (p : prog A) (f : A -> prog B) (w : W) :
  exec h (bind p f) w =
  match exec h p w with
  | Done a w1 t1 => prepend t1 (exec h (f a) w1)
  | Failed e w1 t1 => Failed e w1 t1
  end.
Proof.
  revert w; induction p as [a | e | X c k IH]; intro w; simpl.
  - rewrite prepend_nil; reflexivity.
  - reflexivity.
  - rewrite IH.
    destruct (exec h (k (reply h c w)) (next h c w)); simpl.
    + rewrite prepend_prepend; reflexivity.
    + reflexivity.
Qed.

Lemma exec_trigger {X} (c : call X) (w : W) :
  exec h (trigger c) w = Done (reply h c w) (next h c w) [Ev c (reply h c w)].
Proof. reflexivity. Qed.

Lemma exec_ret {A} (a : A) (w : W) : exec h (Ret a) w = Done a w [].
Proof. reflexivity. Qed.

Lemma done_eta {A} (o : outcome W A) (a : A) :
  value_of o = Some a -> o = Done a (world_of o) (trace_of o).
Proof. destruct o; simpl; intro E; [injection E as -> | discriminate]; reflexivity. Qed.

Lemma done_value {A} (a a' : A) (w w' : W) (t t' : trace) :
  Done a w t = Done a' w' t' -> a = a'.
Proof. intro E. injection E as E _ _. exact E. Qed.

Lemma done_world {A} (a a' : A) (w w' : W) (t t' : trace) :
  Done a w t = Done a' w' t' -> w = w'.
Proof. intro E. injection E as _ E _. exact E. Qed.

Lemma done_trace {A} (a a' : A) (w w' : W) (t t' : trace) :
  Done a w t = Done a' w' t' -> t = t'.
Proof. intro E. injection E as _ _ E. exact E. Qed.

Lemma safe_exec (p : prog unit) (w : W) :
  safe p -> exec h p w = Done tt (world_of (exec h p w)) (trace_of (exec h p w)).
Proof.
  intro S. destruct (S W h w) as [[] E]. apply done_eta; exact E.
Qed.

(** Running [p] then [q] when [p] cannot raise. *)
Lemma exec_seq {B} (p : prog unit) (q : prog B) (w : W) :
  safe p ->
  exec h (p ;; q) w =
  prepend (trace_of (exec h p w)) (exec h q (world_of (exec h p w))).
Proof.
  intro S. rewrite exec_bind. rewrite (safe_exec p w S) at 1. reflexivity.
Qed.
End ExecFacts.

Section SafeFacts.
Context {SP : Spatial}.

Lemma safe_ret {A} (a : A) : safe (Ret a).
Proof. intros W h w; exists a; reflexivity. Qed.

Lemma safe_trigger {X} (c : call X) : safe (trigger c).
Proof. intros W h w; eexists; reflexivity. Qed.

Lemma safe_bind {A B} (p : prog A) (f : A -> prog B) :
  safe p -> (forall a, safe (f a)) -> safe (bind p f).
Proof.
  intros Sp Sf W h w. rewrite exec_bind.
  destruct (Sp W h w) as [a Ea].
  destruct (exec h p w) as [a' w1 t1 | e w1 t1]; [| discriminate].
  destruct (Sf a' W h w1) as [b Eb].
  destruct (exec h (f a') w1); [| discriminate].
  exists b. exact Eb.
Qed.

Lemma safe_repeat (n : nat) (body : prog unit) :
  safe body -> safe (repeat_prog n body).
Proof.
  intro Sb; induction n as [| n IH]; simpl.
  - apply safe_ret.
  - apply safe_bind; [exact Sb | intros _; exact IH].
Qed.

Lemma safe_for_range (n start : nat) (body : nat -> prog unit) :
  (forall i, safe (body i)) -> safe (for_range start n body).
Proof.
  intro Sb; revert start; induction n as [| n IH]; intro start; simpl.
  - apply safe_ret.
  - apply safe_bind; [apply Sb | intros _; apply IH].
Qed.

Lemma safe_step (sim : GraspSim.t) : safe (GraspSim.step sim).
Proof.
  unfold GraspSim.step. apply safe_bind; [apply safe_trigger |].
  intros _. destruct (GraspSim.sleep sim); [apply safe_trigger | apply safe_ret].
Qed.

Lemma safe_update_fixed_joint g target :
  safe (PandaGripper.update_fixed_joint g target).
Proof. apply safe_trigger. Qed.

Lemma safe_reset sim g p wd : safe (PandaGripper.reset sim g p wd).
Proof.
  unfold PandaGripper.reset.
  do 4 (apply safe_bind;
        [first [apply safe_update_fixed_joint | apply safe_trigger] | intros _]).
  apply safe_step.
Qed.

Lemma safe_close_fingers sim g : safe (PandaGripper.close_fingers sim g).
Proof.
  unfold PandaGripper.close_fingers.
  apply safe_bind; [apply safe_trigger | intros _].
  apply safe_repeat, safe_step.
Qed.

Lemma safe_lift sim g : safe (PandaGripper.lift sim g).
Proof.
  unfold PandaGripper.lift.
  apply safe_bind; [apply safe_trigger | intros po].
  apply safe_for_range; intro i.
  apply safe_bind; [apply safe_update_fixed_joint | intros _; apply safe_step].
Qed.

Lemma safe_width g : safe (PandaGripper.width g).
Proof.
  unfold PandaGripper.width.
  do 2 (apply safe_bind; [apply safe_trigger | intro]).
  apply safe_ret.
Qed.
End SafeFacts.

(** ** The gripper *)

Section Gripper.
Context {SP : Spatial} {W : Type} (h : handler W).

Lemma step_trace (sim : GraspSim.t) (w : W) :
  trace_of (exec h (GraspSim.step sim) w) = step_events sim.
Proof.
  unfold GraspSim.step, step_events. rewrite exec_bind, exec_trigger.
  destruct (reply h StepSimulation w).
  destruct (GraspSim.sleep sim); simpl.
  - destruct (reply h (Sleep (GraspSim.dt sim)) _); reflexivity.
  - reflexivity.
Qed.

Lemma step_count_app (t1 t2 : trace) :
  step_count (t1 ++ t2) = (step_count t1 + step_count t2)%nat.
Proof. unfold step_count. rewrite filter_app, length_app. reflexivity. Qed.

Lemma step_events_count (sim : GraspSim.t) : step_count (step_events sim) = 1%nat.
Proof. unfold step_events; destruct (GraspSim.sleep sim); reflexivity. Qed.

Lemma reset_trace sim g p wd (w : W) :
  trace_of (exec h (PandaGripper.reset sim g p wd) w) = reset_events sim g p wd.
Proof.
  unfold PandaGripper.reset, PandaGripper.update_fixed_joint, reset_events.
  repeat (rewrite exec_bind, exec_trigger; cbn [prepend]).
  match goal with
  | |- context [exec h (GraspSim.step sim) ?w'] =>
      rewrite (safe_exec h (GraspSim.step sim) w' (safe_step sim));
      rewrite (step_trace sim w')
  end.
  cbn [prepend trace_of app].
  repeat match goal with
         | |- context [Ev ?c (reply h ?c ?w')] => destruct (reply h c w')
         end.
  reflexivity.
Qed.
Lemma repeat_step_trace (sim : GraspSim.t) (n : nat) (w : W) :
  trace_of (exec h (repeat_prog n (GraspSim.step sim)) w) =
  List.concat (repeat (step_events sim) n).
Proof.
  revert w; induction n as [| n IH]; intro w; cbn [repeat_prog repeat List.concat].
  - reflexivity.
  - rewrite (exec_seq h _ _ w (safe_step sim)), step_trace.
    rewrite (safe_exec h _ _ (safe_repeat n _ (safe_step sim))).
    cbn [prepend trace_of]. rewrite IH. reflexivity.
Qed.

Lemma close_trace sim g (w : W) :
  trace_of (exec h (PandaGripper.close_fingers sim g) w) = close_events sim g.
Proof.
  unfold PandaGripper.close_fingers, close_events.
  rewrite exec_bind, exec_trigger.
  match goal with
  | |- context [exec h (repeat_prog 60 ?b) ?w'] =>
      rewrite (safe_exec h (repeat_prog 60 b) w' (safe_repeat 60 _ (safe_step sim)));
      rewrite (repeat_step_trace sim 60 w')
  end.
  cbn [prepend trace_of app].
  destruct (reply h _ w). reflexivity.
Qed.

Lemma lift_loop_trace sim g (pos : vec3) (ori : Rotation) (n start : nat) (w : W) :
  trace_of (exec h (for_range start n (fun i =>
              PandaGripper.update_fixed_joint g
                (mkTransform ori (PandaGripper.lift_target pos i)) ;;
              GraspSim.step sim)) w) =
  List.concat (map (fun i =>
                 Ev (ChangeConstraintPivot (PandaGripper.fixed_joint_uid g)
                       (PandaGripper.lift_target pos i) (as_quat ori) 50) tt ::
                 step_events sim)
              (seq start n)).
Proof.
  revert start w; induction n as [| n IH]; intros start w.
  - reflexivity.
  - cbn [for_range seq map List.concat].
    assert (Sb : forall i, safe (PandaGripper.update_fixed_joint g
                (mkTransform ori (PandaGripper.lift_target pos i)) ;;
              GraspSim.step sim)).
    { intro i. apply safe_bind; [apply safe_update_fixed_joint | intros _; apply safe_step]. }
    rewrite (exec_seq h _ _ w (Sb start)).
    rewrite (safe_exec h _ _ (safe_for_range n (S start) _ Sb)).
    cbn [prepend trace_of]. rewrite IH. f_equal.
    unfold PandaGripper.update_fixed_joint.
    rewrite exec_bind, exec_trigger.
    match goal with
    | |- context [exec h (GraspSim.step sim) ?w'] =>
        rewrite (safe_exec h (GraspSim.step sim) w' (safe_step sim));
        rewrite (step_trace sim w')
    end.
    cbn [prepend trace_of app rotation translation].
    destruct (reply h _ w). reflexivity.
Qed.

Lemma lift_trace sim g (w : W) :
  trace_of (exec h (PandaGripper.lift sim g) w) =
  lift_events sim g (reply h (GetBasePositionAndOrientation (PandaGripper.uid g)) w).
Proof.
  unfold PandaGripper.lift, lift_events.
  rewrite exec_bind, exec_trigger.
  match goal with
  | |- context [exec h (for_range 0 60 ?b) ?w'] =>
      assert (Sb : forall i, safe (b i)) by
        (intro i; apply safe_bind;
         [apply safe_update_fixed_joint | intros _; apply safe_step]);
      rewrite (safe_exec h (for_range 0 60 b) w' (safe_for_range 60 0 b Sb))
  end.
  cbn [prepend trace_of app]. f_equal.
  apply lift_loop_trace.
Qed.
Lemma step_count_concat_map {X} (f : X -> trace) (l : list X) :
  (forall x, step_count (f x) = 1%nat) ->
  step_count (List.concat (map f l)) = List.length l.
Proof.
  intro Hf; induction l as [| x l IH]; cbn [map List.concat List.length].
  - reflexivity.
  - rewrite step_count_app, Hf, IH. reflexivity.
Qed.

Lemma pivot_targets_app (t1 t2 : trace) :
  pivot_targets (t1 ++ t2) = pivot_targets t1 ++ pivot_targets t2.
Proof.
  induction t1 as [| e t1 IH]; simpl; [reflexivity |].
  destruct (pivot_of e); simpl; rewrite IH; reflexivity.
Qed.

Lemma pivot_targets_step sim : pivot_targets (step_events sim) = [].
Proof. unfold step_events; destruct (GraspSim.sleep sim); reflexivity. Qed.

Lemma lift_target_xyz (pos : vec3) (i : nat) :
  vx (PandaGripper.lift_target pos i) == vx pos /\
  vy (PandaGripper.lift_target pos i) == vy pos /\
  vz (PandaGripper.lift_target pos i) == vz pos + inject_Z (Z.of_nat i) * (1 # 600).
Proof.
  unfold PandaGripper.lift_target, vadd, vx, vy, vz; cbn [fst snd].
  repeat split; try ring. field.
Qed.

(** C4, as the code has it: [lift] never raises, takes exactly 60 steps
    and commands 60 mount targets that keep the orientation, X and Y of
    the base pose read at the start, with Z raised by [i/600] at step [i];
    the ramp starts at offset 0 and its last target is 59/600 above the
    start, short of the 0.1 the claim (and the comment in the source)
    announce. *)
Theorem lift_ramp_stops_short (sim : GraspSim.t) (g : PandaGripper.t) (w : W) :
  let o := exec h (PandaGripper.lift sim g) w in
  let po := reply h (GetBasePositionAndOrientation (PandaGripper.uid g)) w in
  let target := PandaGripper.lift_target (fst po) in
  value_of o = Some tt /\
  step_count (trace_of o) = 60%nat /\
  pivot_targets (trace_of o) =
    map (fun i => (PandaGripper.fixed_joint_uid g, target i,
                   as_quat (from_quat (snd po)), 50%Q)) (seq 0 60) /\
  (forall i : nat,
      vx (target i) == vx (fst po) /\ vy (target i) == vy (fst po) /\
      vz (target i) == vz (fst po) + inject_Z (Z.of_nat i) * (1 # 600)) /\
  (forall i : nat, (i < 60)%nat -> vz (target i) - vz (fst po) <= 59 # 600) /\
  vz (target 59%nat) - vz (fst po) == 59 # 600 /\
  59 # 600 < 0.1.
Proof.
  intros o po target. subst o.
  split; [| split; [| split; [| split; [| split; [| split]]]]].
  - destruct (safe_lift sim g W h w) as [[] E]. exact E.
  - rewrite lift_trace. unfold lift_events.
    change (step_count (?e :: ?t)) with (step_count ([e] ++ t)).
    rewrite step_count_app, step_count_concat_map.
    + reflexivity.
    + intro i.
      change (step_count (?e :: ?t)) with (step_count ([e] ++ t)).
      rewrite step_count_app, step_events_count. reflexivity.
  - rewrite lift_trace. unfold lift_events. fold po.
    cbn [pivot_targets pivot_of]. subst target.
    generalize (seq 0 60) as l.
    induction l as [| i l IH]; cbn [map List.concat]; [reflexivity |].
    cbn [app pivot_targets pivot_of].
    rewrite pivot_targets_app, pivot_targets_step, IH. reflexivity.
  - intro i. apply lift_target_xyz.
  - intros i Hi.
    destruct (lift_target_xyz (fst po) i) as (_ & _ & Hz).
    subst target; cbv beta. rewrite Hz.
    assert (Hle : inject_Z (Z.of_nat i) <= 59).
    { change 59 with (inject_Z 59). rewrite <- Zle_Qle. lia. }
    generalize dependent (inject_Z (Z.of_nat i)). intros x _ Hle.
    generalize (vz (fst po)). intro z. lra.
  - destruct (lift_target_xyz (fst po) 59) as (_ & _ & Hz).
    subst target; cbv beta. rewrite Hz.
    change (inject_Z (Z.of_nat 59)) with (59 # 1). ring.
  - reflexivity.
Qed.
End Gripper.

(** ** The Physics quality test *)

Section Physics.
Context {SP : Spatial} {W : Type} (h : handler W).


Lemma quality_unfold (sim : GraspSim.t) (g : PandaGripper.t)
    (grasp : ParallelJawGrasp) (w : W) :
  let q := GetContactPoints (PandaGripper.uid g) in
  let r := exec h (PandaGripper.reset sim g (pose grasp) (width grasp)) w in
  let cs := reply h q (world_of r) in
  let w2 := next h q (world_of r) in
  let c := exec h (PandaGripper.close_fingers sim g) w2 in
  let l := exec h (PandaGripper.lift sim g) (world_of c) in
  let cs' := reply h q (world_of l) in
  let wo := exec h (PandaGripper.width g) (next h q (world_of l)) in
  exec h (PhysicsMetric.quality sim g grasp) w =
    prepend (trace_of r ++ [Ev q cs])
      (match cs with
       | [] =>
           prepend (trace_of c ++ trace_of l ++ [Ev q cs'])
             (match wo with
              | Done wd w6 tw =>
                  Done (match Qgtb wd (0.1 * PandaGripper.max_width g), cs' with
                        | true, c0 :: _ =>
                            (1.0, [("object_uid"%string, bodyUniqueIdB c0)])
                        | _, _ => (0.0, [])
                        end) w6 tw
              | Failed e w6 tw => Failed e w6 tw
              end)
       | _ :: _ => Done (0.0, []) w2 []
       end).
Proof.
  intros q r cs w2 c l cs' wo.
  unfold PhysicsMetric.quality.
  rewrite (exec_seq h _ _ w (safe_reset _ _ _ _)). fold r.
  unfold PandaGripper.contacts at 1.
  rewrite exec_bind, exec_trigger. fold q cs w2. cbn [prepend].
  rewrite prepend_prepend. f_equal.
  destruct cs as [| c1 cs1]; [| reflexivity].
  rewrite (exec_seq h _ _ w2 (safe_close_fingers _ _)). fold c.
  rewrite (exec_seq h _ _ (world_of c) (safe_lift _ _)). fold l.
  unfold PandaGripper.contacts.
  rewrite exec_bind, exec_trigger. fold q cs'. cbn [prepend].
  rewrite !prepend_prepend. rewrite <- app_assoc. f_equal.
  rewrite exec_bind. fold wo.
  destruct wo as [wd w6 tw | e w6 tw]; [| reflexivity].
  destruct (Qgtb wd (0.1 * PandaGripper.max_width g)); destruct cs';
    cbn [exec prepend]; rewrite app_nil_r; reflexivity.
Qed.

(** What [quality] can return. *)
Lemma quality_values (sim : GraspSim.t) (g : PandaGripper.t)
    (grasp : ParallelJawGrasp) (w : W) r w' t :
  exec h (PhysicsMetric.quality sim g grasp) w = Done r w' t ->
  r = (0.0, []) \/ exists b, r = (1.0, [("object_uid"%string, b)]).
Proof.
  rewrite quality_unfold.
  destruct (reply h (GetContactPoints (PandaGripper.uid g)) _) as [| c0 cs].
  - match goal with
    | |- context [match ?wo with Done _ _ _ => _ | Failed _ _ _ => _ end] =>
        destruct wo as [wd w6 tw | e w6 tw]
    end; cbn [prepend]; [| discriminate].
    intro E. apply done_value in E. subst r.
    destruct (Qgtb wd (0.1 * PandaGripper.max_width g)).
    + match goal with
      | |- context [match ?cs' with [] => _ | _ :: _ => _ end] =>
          destruct cs' as [| c1 rest]
      end; [left; reflexivity | right; eexists; reflexivity].
    + left; reflexivity.
  - cbn [prepend]. intro E. apply done_value in E. subst r. left; reflexivity.
Qed.

End Physics.

(** ** Snapshots of a session *)

Section Snapshots.
Context {SP : Spatial} {W : Type} (h : handler W).

Lemma init_snapshot_none (cfg : config) (w : W) :
  match exec h (GraspSim_init cfg) w with
  | Done (s, _, _) _ _ => GraspSim.snapshot_id s = None
  | Failed _ _ _ => True
  end.
Proof.
  unfold GraspSim_init.
  rewrite exec_bind.
  destruct (exec h (GraspSim.configure_physics_engine _ _ _) w)
    as [rd w1 t1 | ]; [| exact I].
  rewrite exec_bind.
  destruct (exec h GraspSim.configure_visualizer w1) as [[] w2 t2 | ];
    [| exact I].
  rewrite exec_bind.
  destruct (exec h (PandaGripper.init _) w2) as [g w3 t3 | ]; [| exact I].
  rewrite exec_bind.
  destruct (exec h (get_scene _) w3) as [sc w4 t4 | ]; [| exact I].
  reflexivity.
Qed.

Lemma safe_gripper_init (sim : GraspSim.t) : safe (PandaGripper.init sim).
Proof.
  unfold PandaGripper.init.
  apply safe_bind; [apply safe_trigger | intro u].
  apply safe_bind.
  - unfold PandaGripper.create_joints.
    do 3 (apply safe_bind; [apply safe_trigger | intro]).
    apply safe_ret.
  - intro fj. apply safe_bind; [apply safe_reset | intros _; apply safe_ret].
Qed.

Lemma init_returns (cfg : config) (w : W) :
  scenes (cfg_scene cfg) <> None ->
  exists r, value_of (exec h (GraspSim_init cfg) w) = Some r.
Proof.
  intro Hsc. revert W h w. change (safe (GraspSim_init cfg)).
  unfold GraspSim_init.
  apply safe_bind.
  { unfold GraspSim.configure_physics_engine.
    do 3 (apply safe_bind; [apply safe_trigger | intro]). apply safe_ret. }
  intro rd. apply safe_bind; [apply safe_trigger | intros _].
  apply safe_bind; [apply safe_gripper_init | intro g].
  apply safe_bind; [| intro; apply safe_ret].
  unfold get_scene. destruct (scenes (cfg_scene cfg)); [apply safe_ret | congruence].
Qed.

(** C7: the session keeps one snapshot handle.  [save_state] stores the
    handle the engine returns in place of whatever was stored; after two
    saves [restore_state] asks the engine for the second snapshot; and on
    a session without a handle -- as [__init__] leaves it -- it raises
    [AttributeError] before any call reaches the engine. *)
Theorem snapshot_handle (sim : GraspSim.t) (cfg : config) (w : W) :
  let id1 := reply h SaveState w in
  let w1 := next h SaveState w in
  let id2 := reply h SaveState w1 in
  let w2 := next h SaveState w1 in
  exec h (GraspSim.save_state sim) w =
    Done (GraspSim.mk (GraspSim.rate sim) (GraspSim.dt sim)
                      (GraspSim.sleep sim) (Some id1)) w1 [Ev SaveState id1] /\
  exec h (s1 <- GraspSim.save_state sim ;;
          s2 <- GraspSim.save_state s1 ;;
          GraspSim.restore_state s2) w =
    Done tt (next h (RestoreState id2) w2)
         [Ev SaveState id1; Ev SaveState id2; Ev (RestoreState id2) tt] /\
  (forall s w', GraspSim.snapshot_id s = None ->
     exists msg,
       exec h (GraspSim.restore_state s) w' = Failed (AttributeError msg) w' []) /\
  (forall s id w', GraspSim.snapshot_id s = Some id ->
     exec h (GraspSim.restore_state s) w' =
       Done tt (next h (RestoreState id) w') [Ev (RestoreState id) tt]) /\
  (scenes (cfg_scene cfg) <> None ->
   exists s g sc w' t msg,
     exec h (GraspSim_init cfg) w = Done (s, g, sc) w' t /\
     exec h (GraspSim.restore_state s) w' = Failed (AttributeError msg) w' []).
Proof.
  intros id1 w1 id2 w2.
  assert (Hnone : forall s w', GraspSim.snapshot_id s = None ->
     exists msg,
       exec h (GraspSim.restore_state s) w' = Failed (AttributeError msg) w' []).
  { intros s w' E. unfold GraspSim.restore_state. rewrite E.
    eexists. reflexivity. }
  assert (Hsome : forall s id w', GraspSim.snapshot_id s = Some id ->
     exec h (GraspSim.restore_state s) w' =
       Done tt (next h (RestoreState id) w') [Ev (RestoreState id) tt]).
  { intros s id w' E. unfold GraspSim.restore_state. rewrite E.
    rewrite exec_trigger. destruct (reply h (RestoreState id) w'). reflexivity. }
  assert (Hsave : forall s w',
    exec h (GraspSim.save_state s) w' =
    Done (GraspSim.mk (GraspSim.rate s) (GraspSim.dt s) (GraspSim.sleep s)
                      (Some (reply h SaveState w')))
         (next h SaveState w') [Ev SaveState (reply h SaveState w')]).
  { intros s w'. reflexivity. }
  split; [apply Hsave |].
  split.
  - rewrite exec_bind, Hsave. cbn [prepend].
    rewrite exec_bind, Hsave. cbn [prepend].
    rewrite (Hsome _ id2) by reflexivity. reflexivity.
  - split; [exact Hnone |]. split; [exact Hsome |].
    intro Hsc.
    pose proof (init_snapshot_none cfg w) as Hi.
    destruct (init_returns cfg w Hsc) as [[[s g] sc] E].
    apply done_eta in E. rewrite E in Hi.
    destruct (Hnone s (world_of (exec h (GraspSim_init cfg) w)) Hi) as [msg Hm].
    exists s, g, sc, (world_of (exec h (GraspSim_init cfg) w)),
           (trace_of (exec h (GraspSim_init cfg) w)), msg.
    split; [exact E | exact Hm].
Qed.
End Snapshots.

(** ** The width commanded by [reset] *)

Section ResetWidth.
Context {SP : Spatial} {W : Type} (h : handler W).

Lemma joint_resets_reset sim g p wd :
  joint_resets (reset_events sim g p wd) =
  [ (PandaGripper.uid g, 0%Z, (0.5 * wd)%Q);
    (PandaGripper.uid g, 1%Z, (0.5 * wd)%Q) ].
Proof.
  unfold reset_events, step_events.
  destruct (GraspSim.sleep sim); reflexivity.
Qed.

(** C8, as the code has it: [reset] neither clamps nor rejects.  For every
    pose and every width it returns without raising and sets both finger
    joints to half the commanded width; for a width beyond the maximum
    that is beyond half the maximum, so the boundary policy of the claim
    does not hold. *)
Theorem reset_sets_half_width (sim : GraspSim.t) (g : PandaGripper.t)
    (p : Transform) (wd : Q) (w : W) :
  let o := exec h (PandaGripper.reset sim g p wd) w in
  value_of o = Some tt /\
  joint_resets (trace_of o) =
    [ (PandaGripper.uid g, 0%Z, (0.5 * wd)%Q);
      (PandaGripper.uid g, 1%Z, (0.5 * wd)%Q) ] /\
  (PandaGripper.max_width g < wd ->
   0.5 * PandaGripper.max_width g < 0.5 * wd /\
   ~ reset_clamps_or_rejects h sim g p wd w).
Proof.
  intro o.
  assert (Hv : value_of o = Some tt).
  { destruct (safe_reset sim g p wd W h w) as [[] E]. exact E. }
  assert (Hj : joint_resets (trace_of o) =
    [ (PandaGripper.uid g, 0%Z, (0.5 * wd)%Q);
      (PandaGripper.uid g, 1%Z, (0.5 * wd)%Q) ]).
  { subst o. rewrite reset_trace. apply joint_resets_reset. }
  split; [exact Hv |]. split; [exact Hj |].
  intro Hwd.
  assert (Hhalf : 0.5 * PandaGripper.max_width g < 0.5 * wd) by lra.
  split; [exact Hhalf |].
  unfold reset_clamps_or_rejects. fold o. intros [Hrej | Hclamp].
  - rewrite Hv in Hrej. discriminate.
  - specialize (Hclamp (PandaGripper.uid g) 0%Z (0.5 * wd)%Q).
    rewrite Hj in Hclamp.
    apply Qle_not_lt in Hclamp; [apply Hclamp; exact Hhalf |].
    left. reflexivity.
Qed.
End ResetWidth.

(** ** The RobustPhysics quality test *)

Section Robust.
Context {SP : Spatial} {W : Type} (h : handler W).
Variables (sim : GraspSim.t) (g : PandaGripper.t).

Lemma safe_quality (grasp : ParallelJawGrasp) :
  safe (PhysicsMetric.quality sim g grasp).
Proof.
  unfold PhysicsMetric.quality.
  apply safe_bind; [apply safe_reset | intros _].
  apply safe_bind; [apply safe_trigger | intros cs].
  destruct cs; [| apply safe_ret].
  apply safe_bind; [apply safe_close_fingers | intros _].
  apply safe_bind; [apply safe_lift | intros _].
  apply safe_bind; [apply safe_trigger | intros cs'].
  apply safe_bind; [apply safe_width | intros wd].
  destruct (Qgtb wd _); [destruct cs' |]; apply safe_ret.
Qed.

Variables (m : RobustPhysicsMetric.t) (p : Transform) (wd : Q).

Local Abbreviation trial := (RobustPhysicsMetric.trial sim g m p wd).
Local Abbreviation trials n := (RobustPhysicsMetric.trials n sim g m p wd).
Local Abbreviation has_uid := (fun r : Q * metadata =>
                       exists b, r = (1.0, [("object_uid"%string, b)])).

Lemma trial_unfold (w0 : W) :
  let d1 := RngUniform3 (vneg (RobustPhysicsMetric.rpy m)) (RobustPhysicsMetric.rpy m) in
  let d2 := RngUniform3 (vneg (RobustPhysicsMetric.xyz m)) (RobustPhysicsMetric.xyz m) in
  let e := reply h d1 w0 in
  let t_err := reply h d2 (next h d1 w0) in
  let w2 := next h d2 (next h d1 w0) in
  exec h trial w0 =
  prepend [Ev d1 e; Ev d2 t_err]
    (match GraspSim.snapshot_id sim with
     | Some id =>
         prepend [Ev (RestoreState id) tt]
           (exec h (PhysicsMetric.quality sim g
                      (mkGrasp (tmul p (mkTransform (from_euler_xyz e) t_err)) wd))
                   (next h (RestoreState id) w2))
     | None =>
         Failed (AttributeError
                   "'GraspSim' object has no attribute 'snapshot_id'") w2 []
     end).
Proof.
  intros d1 d2 e t_err w2. unfold RobustPhysicsMetric.trial.
  rewrite exec_bind, exec_trigger. fold d1 e. cbn [prepend].
  rewrite exec_bind, exec_trigger. fold d2 t_err w2. cbn [prepend].
  rewrite exec_bind. unfold GraspSim.restore_state.
  destruct (GraspSim.snapshot_id sim) as [id |].
  - rewrite exec_trigger. destruct (reply h (RestoreState id) w2).
    cbn [prepend]. rewrite !prepend_prepend. reflexivity.
  - reflexivity.
Qed.

Lemma trial_values (w : W) r w' t :
  exec h trial w = Done r w' t -> r = (0.0, []) \/ has_uid r.
Proof.
  rewrite trial_unfold.
  destruct (GraspSim.snapshot_id sim) as [id |]; [| discriminate].
  rewrite prepend_prepend.
  match goal with
  | |- context [exec h (PhysicsMetric.quality sim g ?gr) ?w0] =>
      pose proof (quality_values h sim g gr w0) as Hq;
      destruct (exec h (PhysicsMetric.quality sim g gr) w0) as [r0 w1 t1 | ]
  end; [| discriminate].
  cbn [prepend]. intro E. apply done_value in E. subst r.
  eapply Hq. reflexivity.
Qed.

Lemma trial_failed (w : W) e w' t :
  exec h trial w = Failed e w' t -> GraspSim.snapshot_id sim = None.
Proof.
  rewrite trial_unfold.
  destruct (GraspSim.snapshot_id sim) as [id |]; [| reflexivity].
  rewrite prepend_prepend.
  match goal with
  | |- context [exec h (PhysicsMetric.quality sim g ?gr) ?w0] =>
      destruct (safe_quality gr W h w0) as [a Ea];
      rewrite (done_eta _ a Ea)
  end.
  discriminate.
Qed.

Lemma trials_S (n : nat) (w : W) :
  exec h (trials (S n)) w =
  match exec h trial w with
  | Done r w1 t1 =>
      if Qeq_bool (fst r) 0 then Done (0.0, []) w1 t1
      else prepend t1 (exec h (trials n) w1)
  | Failed e w1 t1 => Failed e w1 t1
  end.
Proof.
  cbn [RobustPhysicsMetric.trials]. rewrite exec_bind.
  destruct (exec h trial w) as [r w1 t1 | ]; [| reflexivity].
  destruct (Qeq_bool (fst r) 0); [| reflexivity].
  cbn [exec prepend]. rewrite app_nil_r. reflexivity.
Qed.

Lemma Qeq_bool_no (x : Q) : ~ x == 0 -> Qeq_bool x 0 = false.
Proof.
  intro H. destruct (Qeq_bool x 0) eqn:E; [| reflexivity].
  apply Qeq_bool_iff in E. contradiction.
Qed.

Lemma trials_pass_run (n : nat) (w w' : W) t rs :
  trials_pass h sim g m p wd n w w' t rs ->
  exec h (trials n) w = Done (1.0, []) w' t.
Proof.
  induction 1 as [w | n w w1 w2 t1 t2 r rs Ht Hr _ IH].
  - reflexivity.
  - rewrite trials_S, Ht, (Qeq_bool_no _ Hr), IH. reflexivity.
Qed.

Lemma trials_fail_run (k : nat) (w w1 w' : W) t1 rs r t2 :
  trials_pass h sim g m p wd k w w1 t1 rs ->
  exec h trial w1 = Done r w' t2 -> fst r == 0 ->
  forall n, (k < n)%nat ->
  exec h (trials n) w = Done (0.0, []) w' (t1 ++ t2).
Proof.
  intros Hp Ht Hr. induction Hp as [w | k w wa wb ta tb ra rs Hta Hra _ IH];
    intros n Hn; (destruct n as [| n]; [lia |]); rewrite trials_S.
  - rewrite Ht. apply Qeq_bool_iff in Hr. rewrite Hr. reflexivity.
  - rewrite Hta, (Qeq_bool_no _ Hra), (IH Ht n) by lia.
    cbn [prepend]. rewrite app_assoc. reflexivity.
Qed.

Lemma trials_classify (n : nat) (w : W) :
  match exec h (trials n) w with
  | Done r w' t =>
      (r = (1.0, []) /\ exists rs, trials_pass h sim g m p wd n w w' t rs) \/
      (r = (0.0, []) /\
       exists k w1 t1 rs r0 t2,
         (k < n)%nat /\ trials_pass h sim g m p wd k w w1 t1 rs /\
         exec h trial w1 = Done r0 w' t2 /\ fst r0 == 0 /\ t = t1 ++ t2)
  | Failed _ _ _ => GraspSim.snapshot_id sim = None
  end.
Proof.
  revert w; induction n as [| n IH]; intro w.
  - left. split; [reflexivity |]. exists []. constructor.
  - rewrite trials_S.
    destruct (exec h trial w) as [r w1 t1 | e w1 t1] eqn:Et;
      [| eapply trial_failed; exact Et].
    destruct (Qeq_bool (fst r) 0) eqn:Er.
    + right. split; [reflexivity |].
      exists 0%nat, w, [], [], r, t1.
      repeat split; [lia | constructor | exact Et | apply Qeq_bool_iff; exact Er].
    + assert (Hr : ~ fst r == 0).
      { intro F. apply Qeq_bool_iff in F. congruence. }
      specialize (IH w1).
      destruct (exec h (trials n) w1) as [r' w' t' | e w' t']; [| exact IH].
      cbn [prepend].
      destruct IH as [[-> [rs Hp]] | [-> (k & wa & ta & rs & r0 & tb & Hk & Hp & Hb & H0 & ->)]].
      * left. split; [reflexivity |]. exists (r :: rs).
        econstructor; eassumption.
      * right. split; [reflexivity |].
        exists (S k), wa, (t1 ++ ta), (r :: rs), r0, tb.
        repeat split; [lia | econstructor; eassumption | exact Hb | exact H0
                       | apply app_assoc].
Qed.

Lemma trials_pass_results (n : nat) (w w' : W) t rs :
  trials_pass h sim g m p wd n w w' t rs ->
  List.length rs = n /\ Forall has_uid rs.
Proof.
  induction 1 as [w | n w w1 w2 t1 t2 r rs Ht Hr _ [IHl IHf]].
  - split; [reflexivity | constructor].
  - split; [cbn [List.length]; congruence |].
    constructor; [| exact IHf].
    destruct (trial_values _ _ _ _ Ht) as [-> | Hu]; [| exact Hu].
    exfalso. apply Hr. reflexivity.
Qed.
End Robust.

Section RobustClaims.
Context {SP : Spatial} {W : Type} (h : handler W).
Variables (sim : GraspSim.t) (g : PandaGripper.t).

(** C2: the RobustPhysics test runs up to [sample_count] trials.  Each
    trial draws the rotational error within [-rpy, rpy], then the
    translational error within [-xyz, xyz], restores the saved snapshot,
    and runs the Physics quality test on the original pose composed with
    the error.  The test returns (1, {}) when every one of the
    [sample_count] trials has a quality other than 0; at the first trial of
    quality 0 it returns (0, {}) with no further draw; it returns nothing
    else, and it raises only when the session has no snapshot. *)
Theorem robust_sampling (m : RobustPhysicsMetric.t)
    (grasp : ParallelJawGrasp) (w : W) :
  let N := RobustPhysicsMetric.sample_count m in
  let p := pose grasp in
  let wd := width grasp in
  let trial := RobustPhysicsMetric.trial sim g m p wd in
  let o := exec h (RobustPhysicsMetric.call_ sim g m grasp) w in
  (forall id w0, GraspSim.snapshot_id sim = Some id ->
     let d1 := RngUniform3 (vneg (RobustPhysicsMetric.rpy m))
                           (RobustPhysicsMetric.rpy m) in
     let d2 := RngUniform3 (vneg (RobustPhysicsMetric.xyz m))
                           (RobustPhysicsMetric.xyz m) in
     let e := reply h d1 w0 in
     let t_err := reply h d2 (next h d1 w0) in
     exec h trial w0 =
     prepend [Ev d1 e; Ev d2 t_err; Ev (RestoreState id) tt]
       (exec h (PhysicsMetric.quality sim g
                  (mkGrasp (tmul p (mkTransform (from_euler_xyz e) t_err)) wd))
               (next h (RestoreState id) (next h d2 (next h d1 w0))))) /\
  (forall w' t rs,
     trials_pass h sim g m p wd N w w' t rs -> o = Done (1.0, []) w' t) /\
  (forall k w1 t1 rs r w' t2,
     (k < N)%nat -> trials_pass h sim g m p wd k w w1 t1 rs ->
     exec h trial w1 = Done r w' t2 -> fst r == 0 ->
     o = Done (0.0, []) w' (t1 ++ t2)) /\
  match o with
  | Done r w' t =>
      (r = (1.0, []) /\ exists rs, trials_pass h sim g m p wd N w w' t rs) \/
      (r = (0.0, []) /\
       exists k w1 t1 rs r0 t2,
         (k < N)%nat /\ trials_pass h sim g m p wd k w w1 t1 rs /\
         exec h trial w1 = Done r0 w' t2 /\ fst r0 == 0 /\ t = t1 ++ t2)
  | Failed _ _ _ => GraspSim.snapshot_id sim = None
  end.
Proof.
  intros N p wd trial o.
  split; [| split; [| split]].
  - intros id w0 Hid d1 d2 e t_err. subst trial.
    rewrite trial_unfold, Hid. rewrite prepend_prepend. reflexivity.
  - intros w' t rs Hp. apply (trials_pass_run h sim g m p wd N w w' t rs Hp).
  - intros k w1 t1 rs r w' t2 Hk Hp Ht Hr.
    apply (trials_fail_run h sim g m p wd k w w1 w' t1 rs r t2 Hp Ht Hr N Hk).
  - apply (trials_classify h sim g m p wd N w).
Qed.

(** C3: with the same engine, world (generator state included) and grasp,
    a RobustPhysics test that returns quality 0 with [N] samples runs the
    very same calls and returns (0, {}) with any larger sample count. *)
Theorem robust_monotone (xyz rpy : vec3) (N M : nat)
    (grasp : ParallelJawGrasp) (w : W) :
  let run n := exec h (RobustPhysicsMetric.call_ sim g
                         (RobustPhysicsMetric.mk xyz rpy n) grasp) w in
  (N < M)%nat ->
  (exists r, value_of (run N) = Some r /\ fst r == 0) ->
  run M = run N /\ value_of (run M) = Some (0.0, []).
Proof.
  intros run HNM (r & Hv & Hr). subst run. cbv beta in *.
  unfold RobustPhysicsMetric.call_ in *.
  cbn [RobustPhysicsMetric.sample_count] in *.
  pose proof (trials_classify h sim g (RobustPhysicsMetric.mk xyz rpy N)
                (pose grasp) (width grasp) N w) as Hc.
  destruct (exec h (RobustPhysicsMetric.trials N sim g
                      (RobustPhysicsMetric.mk xyz rpy N) (pose grasp)
                      (width grasp)) w) as [r' w' t | ] eqn:EN;
    [| discriminate].
  cbn [value_of] in Hv. injection Hv as ->.
  destruct Hc as [[-> _] | [-> (k & w1 & t1 & rs & r0 & t2 & Hk & Hp & Ht & H0 & ->)]].
  - exfalso. revert Hr. cbn [fst]. unfold Qeq; cbn. discriminate.
  - assert (EM : exec h (RobustPhysicsMetric.trials M sim g
                      (RobustPhysicsMetric.mk xyz rpy M) (pose grasp)
                      (width grasp)) w = Done (0.0, []) w' (t1 ++ t2)).
    { apply (trials_fail_run h sim g (RobustPhysicsMetric.mk xyz rpy M)
               (pose grasp) (width grasp) k w w1 w' t1 rs r0 t2);
        [| exact Ht | exact H0 | lia].
      clear -Hp. induction Hp; econstructor; eassumption. }
    rewrite EM. split; reflexivity.
Qed.

(** C10: a RobustPhysics test that succeeds returns quality 1 with empty
    metadata.  When every one of the [sample_count] trials passes (has a
    quality other than 0), the test returns (1, {}), although every trial
    returned quality 1 with metadata naming an object, which the test
    drops.  Conversely, whatever the test returns, its metadata is empty;
    when it returns a quality other than 0, the quality is 1 and all
    [sample_count] trials were run and passed, each with such metadata.
    The test raises only on a session that has no snapshot. *)
Theorem robust_metadata_empty (m : RobustPhysicsMetric.t)
    (grasp : ParallelJawGrasp) (w : W) :
  let N := RobustPhysicsMetric.sample_count m in
  let o := exec h (RobustPhysicsMetric.call_ sim g m grasp) w in
  let names_object :=
    (fun r : Q * metadata => exists b, r = (1.0, [("object_uid"%string, b)])) in
  (forall w' t rs,
     trials_pass h sim g m (pose grasp) (width grasp) N w w' t rs ->
     o = Done (1.0, []) w' t /\
     List.length rs = N /\ Forall names_object rs) /\
  match o with
  | Done (q, md) w' t =>
      md = [] /\
      (~ q == 0 ->
       q = 1.0 /\
       exists rs,
         trials_pass h sim g m (pose grasp) (width grasp) N w w' t rs /\
         List.length rs = N /\ Forall names_object rs)
  | Failed _ _ _ => GraspSim.snapshot_id sim = None
  end.
Proof.
  intros N o names_object. subst o names_object.
  unfold RobustPhysicsMetric.call_. fold N. split.
  - intros w' t rs Hp. split.
    + apply (trials_pass_run h sim g m (pose grasp) (width grasp) N w w' t rs Hp).
    + apply (trials_pass_results h sim g m _ _ N w w' t rs Hp).
  - pose proof (trials_classify h sim g m (pose grasp) (width grasp) N w) as Hc.
    destruct (exec h (RobustPhysicsMetric.trials N sim g m (pose grasp)
                        (width grasp)) w) as [[q md] w' t | ]; [| exact Hc].
    destruct Hc as [[E [rs Hp]] | [E _]]; injection E as -> ->.
    + split; [reflexivity |]. intros _. split; [reflexivity |].
      exists rs. split; [exact Hp |].
      apply (trials_pass_results h sim g m _ _ N w w' t rs Hp).
    + split; [reflexivity |]. intro F. exfalso. apply F. reflexivity.
Qed.
End RobustClaims.

(** ** Lists of handles *)

Section ListRemove.
Lemma list_remove_in (u : Z) (l : list Z) :
  In u l -> exists l', list_remove u l = Some l'.
Proof.
  induction l as [| y r IH]; intro H; [destruct H |].
  cbn [list_remove]. destruct (Z.eqb u y) eqn:E; [eexists; reflexivity |].
  destruct H as [-> | H]; [rewrite Z.eqb_refl in E; discriminate |].
  destruct (IH H) as [r' ->]. eexists; reflexivity.
Qed.

Lemma list_remove_sub (u : Z) (l l' : list Z) :
  list_remove u l = Some l' -> forall v, In v l' -> In v l.
Proof.
  revert l'; induction l as [| y r IH]; intros l' H v Hv; [discriminate |].
  cbn [list_remove] in H. destruct (Z.eqb u y).
  - injection H as <-. right; exact Hv.
  - destruct (list_remove u r) as [r' |]; [| discriminate].
    injection H as <-. destruct Hv as [-> | Hv]; [left; reflexivity |].
    right. eapply IH; [reflexivity | exact Hv].
Qed.

Lemma list_remove_keeps (u : Z) (l l' : list Z) :
  list_remove u l = Some l' -> forall v, In v l -> v <> u -> In v l'.
Proof.
  revert l'; induction l as [| y r IH]; intros l' H v Hv Hne; [discriminate |].
  cbn [list_remove] in H. destruct (Z.eqb u y) eqn:E.
  - injection H as <-. apply Z.eqb_eq in E. subst y.
    destruct Hv as [-> | Hv]; [congruence | exact Hv].
  - destruct (list_remove u r) as [r' |]; [| discriminate].
    injection H as <-. destruct Hv as [-> | Hv]; [left; reflexivity |].
    right. eapply IH; [reflexivity | exact Hv | exact Hne].
Qed.

Lemma list_remove_nodup (u : Z) (l l' : list Z) :
  list_remove u l = Some l' -> NoDup l -> NoDup l' /\ ~ In u l'.
Proof.
  revert l'; induction l as [| y r IH]; intros l' H N; [discriminate |].
  cbn [list_remove] in H. inversion N as [| ? ? Hy Nr]; subst.
  destruct (Z.eqb u y) eqn:E.
  - injection H as <-. apply Z.eqb_eq in E. subst y. split; assumption.
  - destruct (list_remove u r) as [r' |] eqn:Er; [| discriminate].
    injection H as <-. destruct (IH r' eq_refl Nr) as [N' Hu].
    apply Z.eqb_neq in E. split.
    + constructor; [| exact N'].
      intro F. apply Hy. eapply list_remove_sub; eassumption.
    + intros [F | F]; [congruence | contradiction].
Qed.

Lemma list_remove_last (u : Z) (l : list Z) :
  exists l', list_remove u (l ++ [u]) = Some l' /\ (~ In u l -> l' = l).
Proof.
  induction l as [| y r (r' & E & Hr)]; cbn [app list_remove].
  - rewrite Z.eqb_refl. exists []. split; [reflexivity | reflexivity].
  - destruct (Z.eqb u y) eqn:Ey.
    + eexists. split; [reflexivity |].
      apply Z.eqb_eq in Ey. intro F. exfalso. apply F. left; congruence.
    + rewrite E. eexists. split; [reflexivity |].
      intro F. rewrite Hr; [reflexivity |]. intro G. apply F. right; exact G.
Qed.




Lemma nodup_nth_not_later (l : list Z) (i : nat) (u : Z) :
  NoDup l -> nth_error l i = Some u -> ~ In u (skipn (S i) l).
Proof.
  revert i; induction l as [| y r IH]; intros i N H; [destruct i; discriminate |].
  inversion N as [| ? ? Hy Nr]; subst.
  destruct i as [| i].
  - injection H as ->. exact Hy.
  - change (skipn (S (S i)) (y :: r)) with (skipn (S i) r).
    apply IH; assumption.
Qed.

End ListRemove.

(** ** Removing the objects outside the scene *)

Section Outside.
Context {SP : Spatial} {W : Type} (h : handler W).

Lemma collect_app {A} (f : event -> option A) (t1 t2 : trace) :
  collect f (t1 ++ t2) = collect f t1 ++ collect f t2.
Proof.
  induction t1 as [| e t1 IH]; cbn [collect app]; [reflexivity |].
  destruct (f e); cbn [app]; rewrite IH; reflexivity.
Qed.

Lemma exec_remove_object (s : Scene.t) (u : Z) (w : W) :
  exec h (Scene.remove_object s u) w =
  match list_remove u (Scene.object_uids s) with
  | Some l => Done (Scene.set_object_uids s l) (next h (RemoveBody u) w)
                   [Ev (RemoveBody u) tt]
  | None => Failed (ValueError "list.remove(x): x not in list")
                   (next h (RemoveBody u) w) [Ev (RemoveBody u) tt]
  end.
Proof.
  unfold Scene.remove_object. rewrite exec_bind, exec_trigger.
  destruct (reply h (RemoveBody u) w).
  destruct (list_remove u (Scene.object_uids s)); reflexivity.
Qed.

Lemma outside_loop_step (f i : nat) (s : Scene.t) (w : W) (u : Z)
    (o : Transform) :
  nth_error (Scene.object_uids s) i = Some u ->
  Scene.origin s = Some o ->
  let q := GetBasePositionAndOrientation u in
  exec h (Scene.outside_loop (S f) i s) w =
  prepend [Ev q (reply h q w)]
    (if Scene.outside s (vsub (fst (reply h q w)) (translation o))
     then match exec h (Scene.remove_object s u) (next h q w) with
          | Done s1 w1 t1 => prepend t1 (exec h (Scene.outside_loop f (S i) s1) w1)
          | Failed e w1 t1 => Failed e w1 t1
          end
     else exec h (Scene.outside_loop f (S i) s) (next h q w)).
Proof.
  intros Hn Ho q. cbn [Scene.outside_loop]. rewrite Hn.
  rewrite exec_bind, exec_trigger. fold q. cbn [prepend]. rewrite Ho.
  destruct (Scene.outside s _); [| reflexivity].
  rewrite exec_bind. reflexivity.
Qed.

End Outside.

Section OutsideClaim.
Context {SP : Spatial} {W : Type} (h : handler W).

Lemma step_count_repeat (sim : GraspSim.t) (n : nat) :
  step_count (List.concat (repeat (step_events sim) n)) = n.
Proof.
  induction n as [| n IH]; cbn [repeat List.concat]; [reflexivity |].
  rewrite step_count_app, step_events_count, IH. reflexivity.
Qed.

Lemma safe_wait (sim : GraspSim.t) : safe (Scene.wait_for_objects_to_rest sim).
Proof. apply safe_repeat, safe_step. Qed.

Lemma exec_remove_outside (sim : GraspSim.t) (s : Scene.t) (w : W) :
  exec h (Scene.remove_outside_objects sim s) w =
  prepend (List.concat (repeat (step_events sim) 60))
    (exec h (Scene.outside_loop (List.length (Scene.object_uids s)) 0 s)
          (world_of (exec h (Scene.wait_for_objects_to_rest sim) w))).
Proof.
  unfold Scene.remove_outside_objects.
  rewrite (exec_seq h _ _ w (safe_wait sim)).
  unfold Scene.wait_for_objects_to_rest at 1.
  rewrite repeat_step_trace. reflexivity.
Qed.

End OutsideClaim.

(** ** Placing the objects of a packed scene *)

Section Packed.
Context {SP : Spatial} {W : Type} (h : handler W).

Lemma attempt_unfold (sim : GraspSim.t) (s : Scene.t) (origin : Transform)
    (u : Z) (z : Q) (sid : Z) (w0 : W) :
  let d1 := RngUniform 0 (2 * np_pi) in
  let d2 := RngUniform2 0.2 0.8 in
  let yaw := reply h d1 w0 in
  let ab := reply h d2 (next h d1 w0) in
  let pose := tmul origin
                (mkTransform (from_rotvec (0, 0, yaw)%Q)
                   (fst ab * Scene.size s, snd ab * Scene.size s, z)%Q) in
  let rb := ResetBasePositionAndOrientation u (translation pose)
              (as_quat (rotation pose)) in
  let w3 := next h rb (next h d2 (next h d1 w0)) in
  let w4 := world_of (exec h (GraspSim.step sim) w3) in
  let gc := GetContactPoints u in
  let cs := reply h gc w4 in
  let calls := [Ev d1 yaw; Ev d2 ab; Ev rb tt] ++ step_events sim ++ [Ev gc cs] in
  exec h (PackedScene.attempt sim s origin u z sid) w0 =
  match cs with
  | [] => Done true (next h gc w4) calls
  | _ :: _ => Done false (next h (RestoreState sid) (next h gc w4))
                   (calls ++ [Ev (RestoreState sid) tt])
  end.
Proof.
  intros d1 d2 yaw ab pose rb w3 w4 gc cs calls.
  unfold PackedScene.attempt.
  rewrite exec_bind, exec_trigger. fold d1 yaw. cbn [prepend].
  rewrite exec_bind, exec_trigger. fold d2 ab. cbn [prepend].
  fold pose. fold rb.
  rewrite exec_bind, exec_trigger. fold w3. cbn [prepend].
  destruct (reply h rb (next h d2 (next h d1 w0))).
  rewrite (exec_seq h _ _ w3 (safe_step sim)), step_trace. fold w4.
  rewrite exec_bind, exec_trigger. fold gc cs. cbn [prepend].
  subst calls. destruct cs as [| c0 cs0].
  - cbn [exec prepend app]. rewrite ?app_nil_r. reflexivity.
  - rewrite exec_bind, exec_trigger.
    destruct (reply h (RestoreState sid) (next h gc w4)).
    cbn [exec prepend app]. rewrite <- !app_assoc. reflexivity.
Qed.

Lemma attempts_S (n : nat) sim s origin u z sid (w : W) :
  exec h (PackedScene.attempts (S n) sim s origin u z sid) w =
  match exec h (PackedScene.attempt sim s origin u z sid) w with
  | Done true w1 t1 => Done true w1 t1
  | Done false w1 t1 =>
      prepend t1 (exec h (PackedScene.attempts n sim s origin u z sid) w1)
  | Failed e w1 t1 => Failed e w1 t1
  end.
Proof.
  cbn [PackedScene.attempts]. rewrite exec_bind.
  destruct (exec h (PackedScene.attempt sim s origin u z sid) w)
    as [[|] w1 t1 | ]; [| reflexivity | reflexivity].
  cbn [exec prepend]. rewrite app_nil_r. reflexivity.
Qed.

End Packed.

Lemma safe_attempt {SP : Spatial} sim s origin u z sid :
  safe (PackedScene.attempt sim s origin u z sid).
Proof.
  intros W h w. pose proof (attempt_unfold h sim s origin u z sid w) as E.
  cbv zeta in E. rewrite E.
  destruct (reply h (GetContactPoints u) _); eexists; reflexivity.
Qed.

Section PackedLoop.
Context {SP : Spatial} {W : Type} (h : handler W).

Lemma attempts_classify (n : nat) sim s origin u z sid (w : W) :
  (exists k w1 t1 w' t2,
      (k < n)%nat /\ attempts_fail h sim s origin u z sid k w w1 t1 /\
      exec h (PackedScene.attempt sim s origin u z sid) w1 = Done true w' t2 /\
      exec h (PackedScene.attempts n sim s origin u z sid) w =
        Done true w' (t1 ++ t2)) \/
  (exists w' t,
      attempts_fail h sim s origin u z sid n w w' t /\
      exec h (PackedScene.attempts n sim s origin u z sid) w = Done false w' t).
Proof.
  revert w; induction n as [| n IH]; intro w.
  - right. exists w, []. split; [constructor | reflexivity].
  - rewrite attempts_S.
    destruct (safe_attempt sim s origin u z sid W h w) as [b Eb].
    apply done_eta in Eb.
    set (w1 := world_of (exec h (PackedScene.attempt sim s origin u z sid) w)) in *.
    set (t1 := trace_of (exec h (PackedScene.attempt sim s origin u z sid) w)) in *.
    rewrite Eb. destruct b.
    + left. exists 0%nat, w, [], w1, t1.
      split; [lia |]. split; [constructor |]. split; [exact Eb | reflexivity].
    + destruct (IH w1) as [(k & wa & ta & w' & tb & Hk & Hf & Ha & E)
                           | (w' & t & Hf & E)]; rewrite E; cbn [prepend].
      * left. exists (S k), wa, (t1 ++ ta), w', tb.
        split; [lia |]. split; [econstructor; eassumption |].
        split; [exact Ha |]. rewrite app_assoc. reflexivity.
      * right. exists w', (t1 ++ t).
        split; [econstructor; eassumption | reflexivity].
Qed.
Lemma exec_add_object (s : Scene.t) urdf (pose : Transform) scaling (w : W) :
  let ld := LoadURDF urdf (translation pose) (as_quat (rotation pose)) scaling in
  let u := reply h ld w in
  let cd := ChangeDynamics u (-1) LATERAL_FFRICITON in
  exec h (Scene.add_object s urdf pose scaling) w =
  Done (Scene.set_object_uids s (Scene.object_uids s ++ [u]), u)
       (next h cd (next h ld w)) [Ev ld u; Ev cd tt].
Proof.
  intros ld u cd. unfold Scene.add_object, load_urdf.
  rewrite exec_bind, exec_trigger. fold ld u. cbn [prepend].
  rewrite exec_bind, exec_trigger. fold cd.
  destruct (reply h cd (next h ld w)). reflexivity.
Qed.

(** The run of [place_object]: the object is added, measured and a
    snapshot saved; then it is placed by attempt [k + 1] after
    [k < max_attempts] failed ones, or removed after [max_attempts] failed
    ones. *)
Lemma place_object_run (sim : GraspSim.t) (s : Scene.t) (origin : Transform)
    (max_attempts : nat) (urdf : string) (scaling : Q) (w : W) :
  let ld := LoadURDF urdf (0, 0, 0)%Q (as_quat rot_identity) scaling in
  let u := reply h ld w in
  let s1 := Scene.set_object_uids s (Scene.object_uids s ++ [u]) in
  let cd := ChangeDynamics u (-1) LATERAL_FFRICITON in
  let w2 := next h cd (next h ld w) in
  let lu := reply h (GetAABB u) w2 in
  let z_offset := 0.5 * (vz (snd lu) - vz (fst lu)) + 0.002 in
  let sid := reply h SaveState (next h (GetAABB u) w2) in
  let w4 := next h SaveState (next h (GetAABB u) w2) in
  let pre := [Ev ld u; Ev cd tt; Ev (GetAABB u) lu; Ev SaveState sid] in
  let attempt := PackedScene.attempt sim s1 origin u z_offset sid in
  let o := exec h (PackedScene.place_object sim s origin max_attempts urdf scaling) w in
  (exists k w1 t1 w' t2,
      (k < max_attempts)%nat /\
      attempts_fail h sim s1 origin u z_offset sid k w4 w1 t1 /\
      exec h attempt w1 = Done true w' t2 /\
      o = Done s1 w' (pre ++ t1 ++ t2)) \/
  (exists w' t l,
      attempts_fail h sim s1 origin u z_offset sid max_attempts w4 w' t /\
      list_remove u (Scene.object_uids s ++ [u]) = Some l /\
      (~ In u (Scene.object_uids s) -> l = Scene.object_uids s) /\
      o = Done (Scene.set_object_uids s1 l) (next h (RemoveBody u) w')
               (pre ++ t ++ [Ev (RemoveBody u) tt])).
Proof.
  intros ld u s1 cd w2 lu z_offset sid w4 pre attempt o.
  assert (Ho : o = prepend pre
             (match exec h (PackedScene.attempts max_attempts sim s1 origin u
                              z_offset sid) w4 with
              | Done true w' t => Done s1 w' t
              | Done false w' t =>
                  prepend t (exec h (Scene.remove_object s1 u) w')
              | Failed e w' t => Failed e w' t
              end)).
  { subst o. unfold PackedScene.place_object.
    rewrite exec_bind.
    pose proof (exec_add_object s urdf Transform_identity scaling w) as Ea.
    cbv zeta in Ea. cbn [Transform_identity translation rotation] in Ea.
    change (0, 0, 0)%Q with ((0, 0, 0)%Q : vec3) in Ea.
    fold ld in Ea. fold u in Ea. fold cd in Ea. fold s1 in Ea. fold w2 in Ea.
    rewrite Ea. cbn [prepend fst snd].
    rewrite exec_bind, exec_trigger. fold lu. cbn [prepend].
    fold z_offset.
    rewrite exec_bind, exec_trigger. fold sid w4. cbn [prepend].
    rewrite exec_bind.
    rewrite !prepend_prepend. cbn [app]. fold pre. f_equal.
    destruct (exec h (PackedScene.attempts max_attempts sim s1 origin u
                        z_offset sid) w4) as [[|] w' t | ]; [| reflexivity | reflexivity].
    cbn [exec prepend]. rewrite app_nil_r. reflexivity. }
  destruct (attempts_classify max_attempts sim s1 origin u z_offset sid w4)
    as [(k & w1 & t1 & w' & t2 & Hk & Hf & Ha & E) | (w' & t & Hf & E)];
    rewrite E in Ho.
  - left. exists k, w1, t1, w', t2.
    split; [exact Hk |]. split; [exact Hf |]. split; [exact Ha |].
    rewrite Ho. reflexivity.
  - right. destruct (list_remove_last u (Scene.object_uids s)) as (l & El & Hl).
    exists w', t, l.
    split; [exact Hf |]. split; [exact El |]. split; [exact Hl |].
    rewrite Ho, exec_remove_object.
    subst s1. cbn [Scene.set_object_uids Scene.object_uids]. rewrite El.
    reflexivity.
Qed.

(** [place_object] returns, having handled its object spec as [placed_one]
    says; it changes neither the origin nor the size of the scene. *)
Lemma place_object_cases (sim : GraspSim.t) (s : Scene.t) (origin : Transform)
    (max_attempts : nat) (urdf : string) (scaling : Q) (w : W) :
  exists s' w' t,
    exec h (PackedScene.place_object sim s origin max_attempts urdf scaling) w =
      Done s' w' t /\
    placed_one h sim origin max_attempts urdf scaling s w s' w' t /\
    Scene.origin s' = Scene.origin s.
Proof.
  pose proof (place_object_run sim s origin max_attempts urdf scaling w) as R.
  cbv zeta in R.
  destruct R as [(k & w1 & t1 & w' & t2 & Hk & Hf & Ha & E)
                 | (w' & t & l & Hf & El & Hl & E)].
  - do 3 eexists. split; [exact E |]. split; [| reflexivity].
    unfold placed_one. cbv zeta. left. exists k, w1, t1, t2.
    split; [exact Hk |]. split; [exact Hf |]. split; [exact Ha |].
    split; reflexivity.
  - do 3 eexists. split; [exact E |]. split; [| reflexivity].
    unfold placed_one. cbv zeta. right. exists w', t, l.
    split; [exact Hf |]. split; [exact El |]. split; [exact Hl |].
    repeat split; reflexivity.
Qed.

(** [place_objects] handles the object specs of its list one after the
    other. *)
Lemma place_objects_cases (sim : GraspSim.t) (origin : Transform)
    (max_attempts : nat) (specs : list (string * Q)) :
  forall (s : Scene.t) (w : W),
  exists s' w' t,
    exec h (PackedScene.place_objects sim s origin max_attempts specs) w =
      Done s' w' t /\
    placed_all h sim origin max_attempts specs s w s' w' t /\
    Scene.origin s' = Scene.origin s.
Proof.
  induction specs as [| [urdf scaling] rest IH]; intros s w.
  - exists s, w, []. split; [reflexivity |]. split; [constructor | reflexivity].
  - cbn [PackedScene.place_objects]. rewrite exec_bind.
    destruct (place_object_cases sim s origin max_attempts urdf scaling w)
      as (s1 & w1 & t1 & E1 & P1 & O1).
    destruct (IH s1 w1) as (s2 & w2 & t2 & E2 & P2 & O2).
    rewrite E1, E2. cbn [prepend]. exists s2, w2, (t1 ++ t2).
    split; [reflexivity |].
    split; [econstructor; eassumption | congruence].
Qed.
End PackedLoop.

(** ** The managed object set and the bodies of the session *)

Section BodiesFacts.
Context {SP : Spatial}.

Lemma live_bodies_app (B : list Z) (t1 t2 : trace) :
  live_bodies B (t1 ++ t2) = live_bodies (live_bodies B t1) t2.
Proof. apply fold_left_app. Qed.

Lemma fresh_loads_app (B : list Z) (t1 t2 : trace) :
  fresh_loads B (t1 ++ t2) <->
  fresh_loads B t1 /\ fresh_loads (live_bodies B t1) t2.
Proof.
  revert B; induction t1 as [| e t1 IH]; intro B; cbn [app fresh_loads].
  - cbn. tauto.
  - rewrite IH. cbn [live_bodies fold_left]. tauto.
Qed.

Lemma fresh_loadsb_sound (B : list Z) (t : trace) :
  fresh_loadsb B t = true -> fresh_loads B t.
Proof.
  revert B; induction t as [| e t IH]; intro B; cbn [fresh_loadsb fresh_loads].
  - intros _. exact I.
  - intro H. apply andb_true_iff in H. destruct H as [He Ht].
    split; [| apply IH; exact Ht].
    destruct e as [X c r]. destruct c; try exact I.
    cbn [fresh_stepb fresh_step] in *. intro Hin.
    apply negb_true_iff in He.
    assert (Hex : existsb (Z.eqb r) B = true).
    { apply existsb_exists. exists r. split; [exact Hin | apply Z.eqb_refl]. }
    congruence.
Qed.

Lemma quiet_event_live (B : list Z) (e : event) :
  quiet_event e = true -> live_step B e = B /\ fresh_step B e.
Proof.
  destruct e as [X c r]. destruct c; cbn; intro H;
    first [discriminate | split; [reflexivity | exact I]].
Qed.

Lemma quiet_live (B : list Z) (t : trace) :
  quiet t -> live_bodies B t = B /\ fresh_loads B t.
Proof.
  unfold quiet. induction t as [| e t IH]; cbn [forallb]; intro H.
  - split; [reflexivity | exact I].
  - apply andb_true_iff in H. destruct H as [He Ht].
    destruct (quiet_event_live B e He) as [El Ef].
    destruct (IH Ht) as [IHl IHf].
    cbn [live_bodies fold_left fresh_loads]. rewrite El.
    split; [exact IHl | split; [exact Ef | exact IHf]].
Qed.

Lemma quiet_app (t1 t2 : trace) : quiet t1 -> quiet t2 -> quiet (t1 ++ t2).
Proof.
  unfold quiet. intros H1 H2. rewrite forallb_app, H1, H2. reflexivity.
Qed.

Lemma trace_of_bind {W A B} (h : handler W) (p : prog A) (f : A -> prog B)
    (w : W) :
  trace_of (exec h (bind p f) w) =
  trace_of (exec h p w) ++
  match exec h p w with
  | Done a w1 _ => trace_of (exec h (f a) w1)
  | Failed _ _ _ => []
  end.
Proof.
  rewrite exec_bind. destruct (exec h p w) as [a w1 t1 | e w1 t1].
  - destruct (exec h (f a) w1); reflexivity.
  - cbn. rewrite app_nil_r. reflexivity.
Qed.

Lemma neutral_ret {A} (a : A) : neutral (Ret a).
Proof. intros W h w. reflexivity. Qed.

Lemma neutral_raise {A} (e : exn) : neutral (@Raise _ A e).
Proof. intros W h w. reflexivity. Qed.

Lemma neutral_trigger {X} (c : call X) :
  (forall r, quiet_event (Ev c r) = true) -> neutral (trigger c).
Proof.
  intros H W h w. rewrite exec_trigger. unfold quiet. cbn [trace_of forallb].
  rewrite H. reflexivity.
Qed.

Lemma neutral_bind {A B} (p : prog A) (f : A -> prog B) :
  neutral p -> (forall a, neutral (f a)) -> neutral (bind p f).
Proof.
  intros Hp Hf W h w. rewrite trace_of_bind. apply quiet_app; [apply Hp |].
  destruct (exec h p w); [apply Hf | reflexivity].
Qed.

Lemma neutral_step (sim : GraspSim.t) : neutral (GraspSim.step sim).
Proof.
  unfold GraspSim.step. apply neutral_bind.
  - apply neutral_trigger. reflexivity.
  - intros _. destruct (GraspSim.sleep sim);
      [apply neutral_trigger; reflexivity | apply neutral_ret].
Qed.

Lemma neutral_repeat (n : nat) (body : prog unit) :
  neutral body -> neutral (repeat_prog n body).
Proof.
  intro Hb. induction n as [| n IH]; cbn [repeat_prog].
  - apply neutral_ret.
  - apply neutral_bind; [exact Hb | intros _; exact IH].
Qed.

Lemma neutral_attempt sim s origin u z sid :
  neutral (PackedScene.attempt sim s origin u z sid).
Proof.
  unfold PackedScene.attempt.
  apply neutral_bind; [apply neutral_trigger; reflexivity | intro yaw].
  apply neutral_bind; [apply neutral_trigger; reflexivity | intro ab].
  apply neutral_bind; [apply neutral_trigger; reflexivity | intros _].
  apply neutral_bind; [apply neutral_step | intros _].
  apply neutral_bind; [apply neutral_trigger; reflexivity | intro cs].
  destruct cs; [apply neutral_ret |].
  apply neutral_bind; [apply neutral_trigger; reflexivity | intros _].
  apply neutral_ret.
Qed.

Lemma neutral_attempts n sim s origin u z sid :
  neutral (PackedScene.attempts n sim s origin u z sid).
Proof.
  induction n as [| n IH]; cbn [PackedScene.attempts].
  - apply neutral_ret.
  - apply neutral_bind; [apply neutral_attempt | intros [|]];
      [apply neutral_ret | exact IH].
Qed.

Lemma sync_with_uids (F : list Z) (s s' : Scene.t) (B : list Z) :
  Scene.object_uids s' = Scene.object_uids s ->
  sync_with F s B -> sync_with F s' B.
Proof.
  unfold sync_with, in_sync. intros ->. tauto.
Qed.
End BodiesFacts.

Section Keeps.
Context {SP : Spatial} {W : Type} (h : handler W).

Lemma keeps_ret {A} (F : list Z) (sc : A -> Scene.t) (s : Scene.t) (a : A) :
  Scene.object_uids (sc a) = Scene.object_uids s -> keeps h F sc s (Ret a).
Proof.
  intros E w B HS _. cbn [live_bodies fold_left].
  eapply sync_with_uids; [exact E | exact HS].
Qed.

Lemma keeps_raise {A} (F : list Z) (sc : A -> Scene.t) (s : Scene.t) (e : exn) :
  keeps h F sc s (Raise e).
Proof. intros w B HS. exact I. Qed.

Lemma keeps_bind {A B} (F : list Z) (sc1 : A -> Scene.t) (sc2 : B -> Scene.t)
    (s : Scene.t) (p : prog A) (f : A -> prog B) :
  keeps h F sc1 s p -> (forall a, keeps h F sc2 (sc1 a) (f a)) ->
  keeps h F sc2 s (bind p f).
Proof.
  intros Hp Hf w B0 HS. rewrite exec_bind.
  specialize (Hp w B0 HS).
  destruct (exec h p w) as [a w1 t1 | ]; [| exact I].
  specialize (Hf a w1 (live_bodies B0 t1)).
  destruct (exec h (f a) w1) as [b w2 t2 | ]; cbn [prepend]; [| exact I].
  intro Hfr. apply fresh_loads_app in Hfr. destruct Hfr as [H1 H2].
  rewrite live_bodies_app. apply Hf; [apply Hp; exact H1 | exact H2].
Qed.

Lemma keeps_neutral {A} (F : list Z) (sc : A -> Scene.t) (s : Scene.t)
    (p : prog A) :
  neutral p -> (forall a, Scene.object_uids (sc a) = Scene.object_uids s) ->
  keeps h F sc s p.
Proof.
  intros Hn Hsc w B HS. specialize (Hn W h w).
  destruct (exec h p w) as [a w1 t1 | ]; [| exact I].
  intros _. destruct (quiet_live B t1 Hn) as [-> _].
  eapply sync_with_uids; [apply Hsc | exact HS].
Qed.

Lemma keeps_add_object (F : list Z) (s : Scene.t) urdf pose scaling :
  keeps h F fst s (Scene.add_object s urdf pose scaling).
Proof.
  intros w B [[N Hin] HF].
  pose proof (exec_add_object h s urdf pose scaling w) as E. cbv zeta in E.
  rewrite E. clear E.
  set (u := reply h (LoadURDF urdf (translation pose) (as_quat (rotation pose))
                       scaling) w).
  cbn [fresh_loads fresh_step live_bodies fold_left live_step fst
       Scene.set_object_uids].
  intros (Hu & _).
  assert (Hnot : ~ In u (Scene.object_uids s)) by (intro G; apply Hu, Hin, G).
  split; [split |]; cbn [Scene.object_uids].
  - apply NoDup_app; [exact N | repeat constructor; intros [] | ].
    intros x Hx [<- | []]. exact (Hnot Hx).
  - intros x Hx. apply in_app_or in Hx. destruct Hx as [Hx | [<- | []]].
    + right. apply Hin, Hx.
    + left. reflexivity.
  - intros x Hx. destruct (HF x Hx) as [HxB Hxs]. split; [right; exact HxB |].
    intro G. apply in_app_or in G. destruct G as [G | [<- | []]].
    + exact (Hxs G).
    + exact (Hu HxB).
Qed.

Lemma keeps_remove_object (F : list Z) (s : Scene.t) (u : Z) :
  keeps h F (fun s' => s') s (Scene.remove_object s u).
Proof.
  intros w B [[N Hin] HF]. rewrite exec_remove_object.
  destruct (list_remove u (Scene.object_uids s)) as [l |] eqn:El; [| exact I].
  intros _. cbn [live_bodies fold_left live_step].
  destruct (list_remove_nodup u _ l El N) as [Nl Hul].
  split; [split |]; cbn [Scene.set_object_uids Scene.object_uids].
  - exact Nl.
  - intros x Hx. apply in_in_remove.
    + intros ->. exact (Hul Hx).
    + apply Hin. eapply list_remove_sub; eassumption.
  - intros x Hx. destruct (HF x Hx) as [HxB Hxs]. split.
    + apply in_in_remove; [| exact HxB].
      intros ->. apply Hxs.
      destruct (In_dec Z.eq_dec u (Scene.object_uids s)) as [G | G]; [exact G |].
      exfalso. revert El. clear -G.
      induction (Scene.object_uids s) as [| y r IH] in l, G |- *; [discriminate |].
      cbn [list_remove]. destruct (Z.eqb u y) eqn:E.
      * apply Z.eqb_eq in E. exfalso. apply G. left; congruence.
      * destruct (list_remove u r) eqn:Er; [| discriminate].
        exfalso. eapply IH; [intro; apply G; right; eassumption | reflexivity].
    + intro G. apply Hxs. eapply list_remove_sub; eassumption.
Qed.
End Keeps.

(** ** Scene operations return *)

Section Returns.
Context {SP : Spatial}.

Lemma returns_ret {A} (P : A -> Prop) (a : A) : P a -> returns_with P (Ret a).
Proof. intros H W h w. exists a, w, []. split; [reflexivity | exact H]. Qed.

Lemma returns_trigger {X} (P : X -> Prop) (c : call X) :
  (forall x, P x) -> returns_with P (trigger c).
Proof.
  intros H W h w. rewrite exec_trigger. do 3 eexists.
  split; [reflexivity | apply H].
Qed.

Lemma returns_bind {A B} (P : A -> Prop) (Q : B -> Prop) (p : prog A)
    (f : A -> prog B) :
  returns_with P p -> (forall a, P a -> returns_with Q (f a)) ->
  returns_with Q (bind p f).
Proof.
  intros Hp Hf W h w. rewrite exec_bind.
  destruct (Hp W h w) as (a & w1 & t1 & -> & Ha).
  destruct (Hf a Ha W h w1) as (b & w2 & t2 & -> & Hb).
  cbn [prepend]. do 3 eexists. split; [reflexivity | exact Hb].
Qed.

Lemma returns_safe {A} (p : prog A) : safe p -> returns_with (fun _ => True) p.
Proof.
  intros S W h w. destruct (S W h w) as [a E]. apply done_eta in E.
  do 3 eexists. split; [exact E | exact I].
Qed.

Lemma returns_weaken {A} (P Q : A -> Prop) (p : prog A) :
  (forall a, P a -> Q a) -> returns_with P p -> returns_with Q p.
Proof.
  intros H Hp W h w. destruct (Hp W h w) as (a & w1 & t1 & E & Ha).
  exists a, w1, t1. split; [exact E | apply H, Ha].
Qed.

Lemma returns_add_object (s : Scene.t) urdf pose scaling :
  returns_with
    (fun su => Scene.object_uids (fst su) = Scene.object_uids s ++ [snd su] /\
               Scene.origin (fst su) = Scene.origin s)
    (Scene.add_object s urdf pose scaling).
Proof.
  intros W h w. pose proof (exec_add_object h s urdf pose scaling w) as E.
  cbv zeta in E. rewrite E. do 3 eexists. split; [reflexivity |].
  split; reflexivity.
Qed.

Lemma returns_remove_object (s : Scene.t) (u : Z) :
  In u (Scene.object_uids s) ->
  returns_with (fun s' => Scene.origin s' = Scene.origin s)
               (Scene.remove_object s u).
Proof.
  intros Hu W h w. rewrite exec_remove_object.
  destruct (list_remove_in u _ Hu) as [l ->].
  do 3 eexists. split; reflexivity.
Qed.

Lemma returns_remove_each (l r : list Z) (s : Scene.t) :
  Scene.object_uids s = l ++ r ->
  returns_with (fun s' => Scene.object_uids s' = r /\
                          Scene.origin s' = Scene.origin s)
               (Scene.remove_each l s).
Proof.
  revert s; induction l as [| x l IH]; intros s E; cbn [Scene.remove_each].
  - apply returns_ret. split; [exact E | reflexivity].
  - apply returns_bind with
      (P := fun s1 => Scene.object_uids s1 = l ++ r /\
                      Scene.origin s1 = Scene.origin s).
    + intros W h w. rewrite exec_remove_object, E.
      cbn [app list_remove]. rewrite Z.eqb_refl.
      do 3 eexists. split; [reflexivity |]. split; reflexivity.
    + intros s1 [E1 O1]. eapply returns_weaken; [| apply IH; exact E1].
      intros s2 [E2 O2]. split; [exact E2 | congruence].
Qed.

Lemma returns_outside_loop (f i : nat) (s : Scene.t) (o : Transform) :
  Scene.origin s = Some o ->
  returns_with (fun s' => True) (Scene.outside_loop f i s).
Proof.
  revert i s; induction f as [| f IH]; intros i s Ho.
  - apply returns_ret. exact I.
  - destruct (nth_error (Scene.object_uids s) i) as [u |] eqn:En.
    2:{ cbn [Scene.outside_loop]. rewrite En. apply returns_ret. exact I. }
    intros W h w. rewrite (outside_loop_step h f i s w u o En Ho). cbv zeta.
    destruct (Scene.outside s _).
    + destruct (returns_remove_object s u (nth_error_In _ _ En) W h
                  (next h (GetBasePositionAndOrientation u) w))
        as (s1 & w1 & t1 & -> & O1).
      destruct (IH (S i) s1 (eq_trans O1 Ho) W h w1) as (s2 & w2 & t2 & -> & _).
      cbn [prepend]. do 3 eexists. split; [reflexivity | exact I].
    + destruct (IH (S i) s Ho W h (next h (GetBasePositionAndOrientation u) w))
        as (s2 & w2 & t2 & -> & _).
      cbn [prepend]. do 3 eexists. split; [reflexivity | exact I].
Qed.

Lemma returns_remove_outside (sim : GraspSim.t) (s : Scene.t) :
  Scene.origin s <> None \/ Scene.object_uids s = [] ->
  returns_with (fun s' => True) (Scene.remove_outside_objects sim s).
Proof.
  intros H. unfold Scene.remove_outside_objects.
  apply returns_bind with (P := fun _ => True).
  - apply returns_safe. apply safe_repeat, safe_step.
  - intros _ _. destruct H as [H | H].
    + destruct (Scene.origin s) as [o |] eqn:Ho; [| congruence].
      eapply returns_outside_loop; exact Ho.
    + rewrite H. apply returns_ret. exact I.
Qed.

Lemma safe_attempts n sim s origin u z sid :
  safe (PackedScene.attempts n sim s origin u z sid).
Proof.
  induction n as [| n IH]; cbn [PackedScene.attempts].
  - apply safe_ret.
  - apply safe_bind; [apply safe_attempt | intros [|]];
      [apply safe_ret | exact IH].
Qed.

Lemma returns_place_object sim (s : Scene.t) origin n urdf scaling :
  returns_with (fun s' => Scene.origin s' = Scene.origin s)
               (PackedScene.place_object sim s origin n urdf scaling).
Proof.
  unfold PackedScene.place_object.
  eapply returns_bind; [apply returns_add_object |].
  intros [s1 u] [E1 O1]. cbn [fst snd] in *.
  eapply returns_bind; [apply returns_trigger with (P := fun _ => True); auto |].
  intros lu _.
  eapply returns_bind; [apply returns_trigger with (P := fun _ => True); auto |].
  intros sid _.
  eapply returns_bind; [apply returns_safe, safe_attempts |].
  intros [|] _.
  - apply returns_ret. exact O1.
  - eapply returns_weaken; [| apply returns_remove_object].
    + intros s2 O2. congruence.
    + rewrite E1. apply in_or_app. right. left. reflexivity.
Qed.

Lemma returns_place_objects sim (s : Scene.t) origin n specs :
  returns_with (fun s' => Scene.origin s' = Scene.origin s)
               (PackedScene.place_objects sim s origin n specs).
Proof.
  revert s; induction specs as [| [urdf scaling] specs IH]; intro s;
    cbn [PackedScene.place_objects].
  - apply returns_ret. reflexivity.
  - eapply returns_bind; [apply returns_place_object |].
    intros s1 O1. eapply returns_weaken; [| apply IH].
    intros s2 O2. congruence.
Qed.

Lemma returns_add_support (s : Scene.t) pose :
  returns_with (fun s' => Scene.origin s' = Scene.origin s /\
                          Scene.object_uids s' = Scene.object_uids s)
               (Scene.add_support s pose).
Proof.
  unfold Scene.add_support, load_urdf.
  eapply returns_bind; [apply returns_trigger with (P := fun _ => True); auto |].
  intros u _. apply returns_ret. split; reflexivity.
Qed.

Lemma returns_packed_generate sim (s : Scene.t) origin urdfs scalings n :
  returns_with (fun s' => True)
               (PackedScene.generate sim s origin urdfs scalings n).
Proof.
  unfold PackedScene.generate. cbv zeta.
  eapply returns_bind; [apply returns_add_support |].
  intros s1 [O1 _]. cbn [Scene.set_origin_center Scene.origin] in O1.
  eapply returns_bind; [apply returns_place_objects |].
  intros s2 O2. apply returns_remove_outside. left. congruence.
Qed.

Lemma returns_drop_objects sim (s : Scene.t) origin specs :
  returns_with (fun s' => Scene.origin s' = Scene.origin s)
               (PileScene.drop_objects sim s origin specs).
Proof.
  revert s; induction specs as [| [urdf scaling] specs IH]; intro s;
    cbn [PileScene.drop_objects].
  - apply returns_ret. reflexivity.
  - eapply returns_bind with (P := fun s1 => Scene.origin s1 = Scene.origin s).
    + unfold PileScene.drop_object.
      eapply returns_bind; [apply returns_trigger with (P := fun _ => True); auto |].
      intros ori _.
      eapply returns_bind; [apply returns_trigger with (P := fun _ => True); auto |].
      intros ab _.
      eapply returns_bind; [apply returns_add_object |].
      intros [s1 u] [_ O1]. cbn [fst] in *.
      eapply returns_bind; [apply returns_safe, safe_repeat, safe_step |].
      intros _ _. apply returns_ret. exact O1.
    + intros s1 O1. eapply returns_weaken; [| apply IH].
      intros s2 O2. congruence.
Qed.

Lemma returns_pile_generate sim (s : Scene.t) origin urdfs scalings :
  returns_with (fun s' => True)
               (PileScene.generate sim s origin urdfs scalings).
Proof.
  unfold PileScene.generate. cbv zeta.
  eapply returns_bind; [apply returns_add_support |].
  intros s1 [O1 _]. cbn [Scene.set_origin_center Scene.origin] in O1.
  unfold load_urdf.
  eapply returns_bind; [apply returns_trigger with (P := fun _ => True); auto |].
  intros box _.
  eapply returns_bind; [apply returns_drop_objects |].
  intros s2 O2.
  eapply returns_bind; [apply returns_trigger with (P := fun _ => True); auto |].
  intros _ _. apply returns_remove_outside. left. congruence.
Qed.
End Returns.

(** ** The Packed generator, object spec by object spec *)

Section PackedGenerate.
Context {SP : Spatial} {W : Type} (h : handler W).

Lemma combine_repeat {A B : Type} (l : list A) (x : B) :
  combine l (repeat x (List.length l)) = map (fun a => (a, x)) l.
Proof.
  induction l as [| a l IH]; cbn [List.length repeat combine map];
    [reflexivity | rewrite IH; reflexivity].
Qed.

Lemma placed_all_size (sim : GraspSim.t) (origin : Transform)
    (max_attempts : nat) (specs : list (string * Q))
    (sa : Scene.t) (wa : W) (sb : Scene.t) (wb : W) (tb : trace) :
  placed_all h sim origin max_attempts specs sa wa sb wb tb ->
  Scene.size sb = Scene.size sa.
Proof.
  intro P. induction P as [| urdf scaling rest s s1 s2 w w1 w2 t1 t2 P1 _ IH];
    [reflexivity |].
  rewrite IH. unfold placed_one in P1. cbv zeta in P1.
  destruct P1 as [(k & wk & tk & tl & _ & _ & _ & E & _)
                  | (wk & tk & l & _ & _ & _ & E & _)];
    rewrite E; reflexivity.
Qed.

(** C6: how the Packed generator places its objects.  [generate] never
    raises.  It loads the support, then handles the object specs -- the
    pairs of [zip(urdfs, scalings)], a single float standing for that
    scaling with every urdf -- one after the other in list order, and
    ends with [remove_outside_objects].  For each object spec the object
    is added at the identity pose, its bounding box is read and a snapshot
    is saved; each attempt draws a yaw in [0, 2 pi] and two offsets in
    [0.2, 0.8], sets the pose [origin * (yaw, (a size, b size, z_offset))],
    advances one step and reads the object's contacts; with a contact it
    restores the snapshot and counts as failed, without it succeeds.  The
    object is either placed by attempt [k + 1] after [k < max_attempts]
    failed attempts and stays in the scene, with no further attempt before
    the next object, or all [max_attempts] attempts fail and it is removed
    from the engine and from the managed set. *)
Theorem packed_placement (sim : GraspSim.t) (s : Scene.t) (origin : Transform)
    (urdfs : list string) (scalings : scalings_arg) (max_attempts : nat)
    (w : W) :
  let specs := combine urdfs (expand_scalings scalings urdfs) in
  let center :=
    tmul origin (Transform_t (0.5 * Scene.size s, 0.5 * Scene.size s, 0)%Q) in
  let s0 := Scene.set_origin_center s origin center in
  let lds := LoadURDF (Scene.support_urdf s) (translation center)
               (as_quat (rotation center)) 0.3 in
  let sup := reply h lds w in
  (forall (s1 : Scene.t) (u : Z) (z_offset : Q) (sid : Z) (w0 : W),
     let d1 := RngUniform 0 (2 * np_pi) in
     let d2 := RngUniform2 0.2 0.8 in
     let yaw := reply h d1 w0 in
     let ab := reply h d2 (next h d1 w0) in
     let pose := tmul origin
                   (mkTransform (from_rotvec (0, 0, yaw)%Q)
                      (fst ab * Scene.size s1, snd ab * Scene.size s1,
                       z_offset)%Q) in
     let rb := ResetBasePositionAndOrientation u (translation pose)
                 (as_quat (rotation pose)) in
     let w3 := world_of (exec h (GraspSim.step sim)
                           (next h rb (next h d2 (next h d1 w0)))) in
     let gc := GetContactPoints u in
     let cs := reply h gc w3 in
     let calls := [Ev d1 yaw; Ev d2 ab; Ev rb tt] ++ step_events sim ++ [Ev gc cs] in
     exec h (PackedScene.attempt sim s1 origin u z_offset sid) w0 =
     match cs with
     | [] => Done true (next h gc w3) calls
     | _ :: _ => Done false (next h (RestoreState sid) (next h gc w3))
                      (calls ++ [Ev (RestoreState sid) tt])
     end) /\
  (forall x, scalings = ScalarScaling x ->
             specs = map (fun urdf => (urdf, x)) urdfs) /\
  (forall l, scalings = ListScaling l -> specs = combine urdfs l) /\
  exists s2 w2 t2 s3 w3 t3,
    placed_all h sim origin max_attempts specs
               (Scene.set_support_uid s0 sup) (next h lds w) s2 w2 t2 /\
    Scene.size s2 = Scene.size s /\
    exec h (Scene.remove_outside_objects sim s2) w2 = Done s3 w3 t3 /\
    exec h (PackedScene.generate sim s origin urdfs scalings max_attempts) w =
      Done s3 w3 (Ev lds sup :: t2 ++ t3).
Proof.
  intros specs center s0 lds sup.
  split; [intros s1 u z_offset sid w0;
          apply (attempt_unfold h sim s1 origin u z_offset sid w0) |].
  split; [intros x ->; subst specs; cbn [expand_scalings];
          apply combine_repeat |].
  split; [intros l ->; reflexivity |].
  destruct (place_objects_cases h sim origin max_attempts specs
              (Scene.set_support_uid s0 sup) (next h lds w))
    as (s2 & w2 & t2 & E2 & P2 & O2).
  assert (Hsz : Scene.size s2 = Scene.size s)
    by exact (placed_all_size sim origin max_attempts specs _ _ _ _ _ P2).
  destruct (returns_remove_outside sim s2) with (W := W) (h := h) (w := w2)
    as (s3 & w3 & t3 & E3 & _).
  { left. rewrite O2. discriminate. }
  exists s2, w2, t2, s3, w3, t3.
  split; [exact P2 |]. split; [exact Hsz |]. split; [exact E3 |].
  unfold PackedScene.generate. cbv zeta. fold center. fold s0. fold specs.
  rewrite exec_bind.
  change (exec h (Scene.add_support s0 center) w)
    with (Done (Scene.set_support_uid s0 sup) (next h lds w) [Ev lds sup]).
  cbn [prepend]. rewrite exec_bind, E2. cbn [prepend]. rewrite E3.
  reflexivity.
Qed.
End PackedGenerate.

(** ** Scene operations keep the managed set in sync *)

Section KeepsOps.
Context {SP : Spatial} {W : Type} (h : handler W).

Lemma keeps_uids {A} (F : list Z) (sc : A -> Scene.t) (s0 s : Scene.t)
    (p : prog A) :
  Scene.object_uids s0 = Scene.object_uids s ->
  keeps h F sc s0 p -> keeps h F sc s p.
Proof.
  intros E H w B HS. apply H. eapply sync_with_uids; [exact E | exact HS].
Qed.

Lemma keeps_remove_each (F : list Z) (l : list Z) (s : Scene.t) :
  keeps h F (fun s' => s') s (Scene.remove_each l s).
Proof.
  revert s; induction l as [| x l IH]; intro s; cbn [Scene.remove_each].
  - apply keeps_ret. reflexivity.
  - eapply keeps_bind; [apply keeps_remove_object | intro s1; apply IH].
Qed.

Lemma keeps_outside_loop (F : list Z) (f i : nat) (s : Scene.t) :
  keeps h F (fun s' => s') s (Scene.outside_loop f i s).
Proof.
  revert i s; induction f as [| f IH]; intros i s; cbn [Scene.outside_loop].
  - apply keeps_ret. reflexivity.
  - destruct (nth_error (Scene.object_uids s) i) as [u |];
      [| apply keeps_ret; reflexivity].
    apply keeps_bind with (sc1 := fun _ => s).
    + apply keeps_neutral; [apply neutral_trigger; reflexivity | reflexivity].
    + intro po. destruct (Scene.origin s) as [o |]; [| apply keeps_raise].
      destruct (Scene.outside s _); [| apply IH].
      eapply keeps_bind; [apply keeps_remove_object | intro s1; apply IH].
Qed.

Lemma keeps_remove_outside (F : list Z) sim (s : Scene.t) :
  keeps h F (fun s' => s') s (Scene.remove_outside_objects sim s).
Proof.
  unfold Scene.remove_outside_objects.
  apply keeps_bind with (sc1 := fun _ => s).
  - apply keeps_neutral; [apply neutral_repeat, neutral_step | reflexivity].
  - intros _. apply keeps_outside_loop.
Qed.

Lemma keeps_add_support (F : list Z) (s : Scene.t) pose :
  keeps h F (fun s' => s') s (Scene.add_support s pose).
Proof.
  intros w B [[N Hin] HF]. unfold Scene.add_support, load_urdf.
  rewrite exec_bind, exec_trigger. cbn [exec prepend app].
  intros _. cbn [live_bodies fold_left live_step].
  split; [split |]; cbn [Scene.set_support_uid Scene.object_uids].
  - exact N.
  - intros x Hx. right. apply Hin, Hx.
  - intros x Hx. destruct (HF x Hx) as [HxB Hxs]. split; [right; exact HxB | exact Hxs].
Qed.

Lemma keeps_place_object (F : list Z) sim (s : Scene.t) origin n urdf scaling :
  keeps h F (fun s' => s') s (PackedScene.place_object sim s origin n urdf scaling).
Proof.
  unfold PackedScene.place_object.
  eapply keeps_bind; [apply keeps_add_object |].
  intros [s1 u]. cbn [fst snd].
  apply keeps_bind with (sc1 := fun _ => s1).
  { apply keeps_neutral; [apply neutral_trigger; reflexivity | reflexivity]. }
  intro lu.
  apply keeps_bind with (sc1 := fun _ => s1).
  { apply keeps_neutral; [apply neutral_trigger; reflexivity | reflexivity]. }
  intro sid.
  apply keeps_bind with (sc1 := fun _ => s1).
  { apply keeps_neutral; [apply neutral_attempts | reflexivity]. }
  intros [|]; [apply keeps_ret; reflexivity | apply keeps_remove_object].
Qed.

Lemma keeps_place_objects (F : list Z) sim (s : Scene.t) origin n specs :
  keeps h F (fun s' => s') s (PackedScene.place_objects sim s origin n specs).
Proof.
  revert s; induction specs as [| [urdf scaling] specs IH]; intro s;
    cbn [PackedScene.place_objects].
  - apply keeps_ret. reflexivity.
  - eapply keeps_bind; [apply keeps_place_object | intro s1; apply IH].
Qed.

Lemma keeps_packed_generate (F : list Z) sim (s : Scene.t) origin urdfs
    scalings n :
  keeps h F (fun s' => s') s (PackedScene.generate sim s origin urdfs scalings n).
Proof.
  unfold PackedScene.generate. cbv zeta.
  eapply keeps_bind.
  - eapply keeps_uids; [| apply keeps_add_support]. reflexivity.
  - intro s1. eapply keeps_bind; [apply keeps_place_objects |].
    intro s2. apply keeps_remove_outside.
Qed.

Lemma keeps_drop_objects (F : list Z) sim (s : Scene.t) origin specs :
  keeps h F (fun s' => s') s (PileScene.drop_objects sim s origin specs).
Proof.
  revert s; induction specs as [| [urdf scaling] specs IH]; intro s;
    cbn [PileScene.drop_objects].
  - apply keeps_ret. reflexivity.
  - eapply keeps_bind; [| intro s1; apply IH].
    unfold PileScene.drop_object.
    apply keeps_bind with (sc1 := fun _ => s).
    { apply keeps_neutral; [apply neutral_trigger; reflexivity | reflexivity]. }
    intro ori.
    apply keeps_bind with (sc1 := fun _ => s).
    { apply keeps_neutral; [apply neutral_trigger; reflexivity | reflexivity]. }
    intro ab.
    eapply keeps_bind; [apply keeps_add_object |].
    intros [s1 u]. cbn [fst].
    apply keeps_bind with (sc1 := fun _ => s1).
    { apply keeps_neutral; [apply neutral_repeat, neutral_step | reflexivity]. }
    intros _. apply keeps_ret. reflexivity.
Qed.

(** The part of the Pile generator that runs while the confining box
    [box] is present. *)
Lemma pile_tail_sync sim (s1 : Scene.t) origin specs (box : Z) (w : W)
    (B : list Z) :
  sync_with [box] s1 B ->
  match exec h (s2 <- PileScene.drop_objects sim s1 origin specs ;;
                trigger (RemoveBody box) ;;
                Scene.remove_outside_objects sim s2) w with
  | Done a _ t => fresh_loads B t -> sync_with [] a (live_bodies B t)
  | Failed _ _ _ => True
  end.
Proof.
  intro HS. rewrite exec_bind.
  pose proof (keeps_drop_objects [box] sim s1 origin specs w B HS) as Hd.
  destruct (exec h (PileScene.drop_objects sim s1 origin specs) w)
    as [s2 w2 t2 | ]; [| exact I].
  rewrite exec_bind, exec_trigger. cbn [prepend].
  set (w3 := next h (RemoveBody box) w2).
  pose proof (keeps_remove_outside [] sim s2 w3
                (List.remove Z.eq_dec box (live_bodies B t2))) as Ho.
  destruct (exec h (Scene.remove_outside_objects sim s2) w3)
    as [s3 w4 t3 | ]; cbn [prepend]; [| exact I].
  intro Hfr. apply fresh_loads_app in Hfr. destruct Hfr as [H2 H3].
  cbn [app fresh_loads fresh_step live_step] in H3. destruct H3 as [_ H3].
  rewrite live_bodies_app. cbn [app live_bodies fold_left live_step].
  apply Ho; [| exact H3].
  destruct (Hd H2) as [[N Hin] HF].
  destruct (HF box (or_introl eq_refl)) as [_ Hbox].
  split; [split |].
  - exact N.
  - intros x Hx. apply in_in_remove; [| apply Hin, Hx].
    intros ->. exact (Hbox Hx).
  - intros x [].
Qed.

Lemma keeps_pile_generate sim (s : Scene.t) origin urdfs scalings :
  keeps h [] (fun s' => s') s (PileScene.generate sim s origin urdfs scalings).
Proof.
  unfold PileScene.generate. cbv zeta.
  eapply keeps_bind.
  - eapply keeps_uids; [| apply keeps_add_support]. reflexivity.
  - intro s1. intros w B HS. unfold load_urdf.
    rewrite exec_bind, exec_trigger.
    match goal with
    | |- context [reply h ?c w] => set (ld := c); set (box := reply h ld w)
    end.
    pose proof (pile_tail_sync sim s1 origin
                  (combine urdfs (expand_scalings scalings urdfs)) box
                  (next h ld w) (box :: B)) as Ht.
    match type of Ht with
    | _ -> match ?e with _ => _ end => destruct e as [a w' t | ]
    end; cbn [prepend]; [| exact I].
    intros Hfr. cbn [app fresh_loads fresh_step live_step] in Hfr.
    destruct Hfr as [Hbox Hfr].
    cbn [app live_bodies fold_left live_step].
    apply Ht; [| exact Hfr].
    destruct HS as [[N Hin] _]. split; [split |].
    + exact N.
    + intros x Hx. right. apply Hin, Hx.
    + intros x [<- | []]. split; [left; reflexivity |].
      intro G. apply Hbox, Hin, G.
Qed.
End KeepsOps.

Section SyncClaim.
Context {SP : Spatial} {W : Type} (h : handler W).

Lemma in_sync_with (s : Scene.t) (B : list Z) :
  in_sync s B <-> sync_with [] s B.
Proof.
  unfold sync_with. split; [intro H; split; [exact H | intros x []] | tauto].
Qed.

Lemma keeps_op (op : scene_op) (s : Scene.t) :
  op <> OpClear -> op <> OpRemoveSupport ->
  keeps h [] (fun s' => s') s (run_op op s).
Proof.
  intros Hop Hrs. destruct op; cbn [run_op].
  - eapply keeps_bind; [apply keeps_add_object |].
    intros [s1 u]. apply keeps_ret. reflexivity.
  - apply keeps_remove_object.
  - apply keeps_remove_each.
  - congruence.
  - apply keeps_remove_outside.
  - apply keeps_packed_generate.
  - apply keeps_pile_generate.
  - apply keeps_add_support.
  - congruence.
  - eapply keeps_bind with (sc1 := fun _ : unit => s).
    + apply keeps_neutral; [apply neutral_repeat, neutral_step | reflexivity].
    + intros _. apply keeps_ret. reflexivity.
  - apply keeps_raise.
Qed.

Lemma returns_op (op : scene_op) (s : Scene.t) :
  op_pre op s ->
  returns_with (fun s' => op = OpClear -> Scene.object_uids s' = []) (run_op op s).
Proof.
  intro Hpre. destruct op; cbn [run_op op_pre] in *.
  - eapply returns_bind; [apply returns_add_object |].
    intros su _. apply returns_ret. discriminate.
  - eapply returns_weaken; [| apply returns_remove_object; exact Hpre].
    intros; discriminate.
  - eapply returns_weaken;
      [| apply (returns_remove_each (Scene.object_uids s) [] s);
         rewrite app_nil_r; reflexivity].
    intros; discriminate.
  - unfold Scene.clear, Scene.remove_support.
    eapply returns_bind; [apply returns_trigger with (P := fun _ => True); auto |].
    intros _ _.
    eapply returns_weaken;
      [| apply (returns_remove_each (Scene.object_uids s) [] s);
         rewrite app_nil_r; reflexivity].
    intros s' [E _] _. exact E.
  - eapply returns_weaken; [| apply returns_remove_outside; exact Hpre].
    intros; discriminate.
  - eapply returns_weaken; [| apply returns_packed_generate].
    intros; discriminate.
  - eapply returns_weaken; [| apply returns_pile_generate].
    intros; discriminate.
  - eapply returns_weaken; [| apply returns_add_support].
    intros; discriminate.
  - unfold Scene.remove_support.
    eapply returns_bind; [apply returns_trigger with (P := fun _ => True); auto |].
    intros _ _. apply returns_ret. discriminate.
  - eapply returns_bind; [apply returns_safe, safe_wait |].
    intros _ _. apply returns_ret. discriminate.
  - destruct Hpre.
Qed.

Lemma exec_remove_support_op (s : Scene.t) (w : W) :
  exec h (run_op OpRemoveSupport s) w =
  Done s (next h (RemoveBody (Scene.support_uid s)) w)
       [Ev (RemoveBody (Scene.support_uid s)) tt].
Proof.
  cbn [run_op]. unfold Scene.remove_support.
  rewrite exec_bind, exec_trigger.
  destruct (reply h (RemoveBody (Scene.support_uid s)) w). reflexivity.
Qed.

(** C9: the operations of a scene keep the managed object set in sync
    with the session.  If, before the operation, the handles of the set
    are distinct and each is a body present in the session, and the engine
    hands out fresh handles during the operation, then the same holds
    after it -- for [remove_support] provided the support's handle is not
    one of the managed handles, and for every other operation
    ([add_support], [add_object], [remove_object], [remove_all_objects],
    [clear], [remove_outside_objects], [wait_for_objects_to_rest] and the
    two generators) as it stands.  An operation raises only when called
    outside its precondition.  In particular [add_object] appends the
    handle of the body it creates, and [remove_object], on a handle of the
    set, removes the body and the handle in one operation. *)
Theorem scene_ops_keep_sync (op : scene_op) (s : Scene.t) (B : list Z) (w : W) :
  in_sync s B ->
  match exec h (run_op op s) w with
  | Done s' _ t =>
      fresh_loads B t -> support_apart op s -> in_sync s' (live_bodies B t)
  | Failed _ _ _ => ~ op_pre op s
  end /\
  (forall urdf pose scaling,
     let ld := LoadURDF urdf (translation pose) (as_quat (rotation pose)) scaling in
     let u := reply h ld w in
     let cd := ChangeDynamics u (-1) LATERAL_FFRICITON in
     exec h (Scene.add_object s urdf pose scaling) w =
       Done (Scene.set_object_uids s (Scene.object_uids s ++ [u]), u)
            (next h cd (next h ld w)) [Ev ld u; Ev cd tt] /\
     live_bodies B [Ev ld u; Ev cd tt] = u :: B) /\
  (forall u, In u (Scene.object_uids s) ->
     exists l,
       exec h (Scene.remove_object s u) w =
         Done (Scene.set_object_uids s l) (next h (RemoveBody u) w)
              [Ev (RemoveBody u) tt] /\
       ~ In u l /\
       ~ In u (live_bodies B [Ev (RemoveBody u) tt]) /\
       (forall v, v <> u -> (In v l <-> In v (Scene.object_uids s)))).
Proof.
  intro HS. split; [| split].
  - destruct (exec h (run_op op s) w) as [s' w' t | e w' t] eqn:E.
    + intros Hfr Hap.
      destruct op;
        try (apply in_sync_with;
             lazymatch type of E with
             | exec h (run_op ?o s) w = _ =>
                 pose proof (keeps_op o s ltac:(discriminate)
                               ltac:(discriminate) w B
                               (proj1 (in_sync_with s B) HS)) as K
             end;
             rewrite E in K; exact (K Hfr)).
      * destruct (returns_op OpClear s I W h w) as (a & wa & ta & Ea & Hp).
        rewrite E in Ea. apply done_value in Ea. subst a. specialize (Hp eq_refl).
        split; rewrite Hp; [constructor | intros x []].
      * rewrite exec_remove_support_op in E.
        pose proof (done_value _ _ _ _ _ _ E) as Es.
        pose proof (done_trace _ _ _ _ _ _ E) as Et. subst s' t.
        cbn [support_apart] in Hap. destruct HS as [N Hin].
        cbn [live_bodies fold_left live_step]. split; [exact N |].
        intros x Hx. apply in_in_remove; [| apply Hin, Hx].
        intros ->. exact (Hap Hx).
    + intro Hpre.
      destruct (returns_op op s Hpre W h w) as (a & wa & ta & Ea & _).
      congruence.
  - intros urdf pose scaling ld u cd. split.
    + apply (exec_add_object h s urdf pose scaling w).
    + reflexivity.
  - intros u Hu. destruct HS as [N Hin].
    destruct (list_remove_in u _ Hu) as [l El].
    destruct (list_remove_nodup u _ l El N) as [Nl Hul].
    exists l. rewrite exec_remove_object, El.
    split; [reflexivity |]. split; [exact Hul |]. split.
    + cbn [live_bodies fold_left live_step]. apply remove_In.
    + intros v Hv. split.
      * apply (list_remove_sub u _ l El).
      * intro G. eapply list_remove_keeps; eauto.
Qed.
End SyncClaim.

(** ** The fuel of the walk is enough *)

Section Fuel.
Context {SP : Spatial} {W : Type} (h : handler W).

Lemma list_remove_length (u : Z) (l l' : list Z) :
  list_remove u l = Some l' -> List.length l = S (List.length l').
Proof.
  revert l'; induction l as [| y r IH]; intros l' H; [discriminate |].
  cbn [list_remove] in H. destruct (Z.eqb u y).
  - injection H as <-. reflexivity.
  - destruct (list_remove u r) as [r' |]; [| discriminate].
    injection H as <-. cbn [List.length]. rewrite (IH r' eq_refl). reflexivity.
Qed.

(** Once the fuel covers what is left of the list, more fuel does not
    change the run: the walk never stops for lack of fuel. *)
Lemma outside_loop_fuel (f k i : nat) (s : Scene.t) (w : W) :
  (List.length (Scene.object_uids s) <= f + i)%nat ->
  exec h (Scene.outside_loop (f + k) i s) w = exec h (Scene.outside_loop f i s) w.
Proof.
  revert i s w; induction f as [| f IH]; intros i s w Hl.
  - assert (En : nth_error (Scene.object_uids s) i = None)
      by (apply nth_error_None; lia).
    destruct k as [| k]; [reflexivity |].
    cbn [Nat.add Scene.outside_loop]. rewrite En. reflexivity.
  - cbn [Nat.add Scene.outside_loop].
    destruct (nth_error (Scene.object_uids s) i) as [u |] eqn:En; [| reflexivity].
    rewrite !exec_bind, !exec_trigger. cbn [prepend]. f_equal.
    destruct (Scene.origin s) as [o |]; [| reflexivity].
    destruct (Scene.outside s _).
    + rewrite !exec_bind, exec_remove_object.
      destruct (list_remove u (Scene.object_uids s)) as [l |] eqn:El;
        [| reflexivity].
      cbn [prepend]. f_equal. apply IH.
      cbn [Scene.set_object_uids Scene.object_uids].
      apply list_remove_length in El. lia.
    + apply IH. lia.
Qed.
End Fuel.

(** * Scenarios on the scripted engine *)

(** C8, the claim as stated fails: a width of 0.1 is beyond the maximum of
    0.08, and [reset] neither rejects it nor clamps it -- both finger joints
    are set to 0.05, beyond 0.04. *)
Lemma reset_out_of_range_not_clamped :
  (PandaGripper.max_width Mock.gripper < 0.1)%Q /\
  ~ reset_clamps_or_rejects Mock.engine Mock.sim Mock.gripper Mock.at_origin
      0.1 Mock.world0.
Proof.
  split; [reflexivity |].
  unfold reset_clamps_or_rejects. intros [H | H].
  - vm_compute in H. discriminate H.
  - specialize (H 0%Z 0%Z (0.5 * 0.1)%Q).
    apply (Qle_not_lt _ _ (H (or_introl eq_refl))). reflexivity.
Qed.


(** C9, the claim as stated fails for [remove_support].  On an engine that
    hands a freed handle out again, a scene gets its support (handle 1),
    is cleared, and gets an object, which receives handle 1: every handle
    was fresh when handed out and the scene is in sync, but the support's
    stale handle is now the handle of the managed object.  [remove_support]
    then removes the body of that object and leaves its handle in the
    set. *)
Lemma remove_support_breaks_sync :
  let setup :=
    s1 <- run_op (OpAddSupport Mock.at_origin) Scene.init ;;
    s2 <- run_op OpClear s1 ;;
    run_op (OpAddObject "a.urdf" Mock.at_origin 1) s2 in
  exists s w t,
    exec Mock.recycler setup [0%Z] = Done s w t /\
    fresh_loads [0%Z] t /\
    in_sync s (live_bodies [0%Z] t) /\
    ~ op_keeps_sync Mock.recycler OpRemoveSupport s (live_bodies [0%Z] t) w.
Proof.
  intro setup.
  assert (Eu : option_map Scene.object_uids
                 (value_of (exec Mock.recycler setup [0%Z])) = Some [1%Z])
    by (vm_compute; reflexivity).
  assert (Esup : option_map Scene.support_uid
                   (value_of (exec Mock.recycler setup [0%Z])) = Some 1%Z)
    by (vm_compute; reflexivity).
  assert (Efr : fresh_loadsb [0%Z]
                  (trace_of (exec Mock.recycler setup [0%Z])) = true)
    by (vm_compute; reflexivity).
  assert (Elive : live_bodies [0%Z]
                    (trace_of (exec Mock.recycler setup [0%Z])) = [1%Z; 0%Z])
    by (vm_compute; reflexivity).
  destruct (exec Mock.recycler setup [0%Z]) as [s w t | e w t];
    cbn [value_of trace_of option_map] in *; [| discriminate Eu].
  injection Eu as Eu. injection Esup as Esup.
  exists s, w, t. split; [reflexivity |].
  split; [apply fresh_loadsb_sound, Efr |].
  assert (HS : in_sync s (live_bodies [0%Z] t)).
  { rewrite Elive. split; rewrite Eu.
    - constructor; [intros [] | constructor].
    - intros u [<- | []]. left. reflexivity. }
  split; [exact HS |].
  intro K. specialize (K HS). rewrite exec_remove_support_op in K.
  rewrite Esup, Elive in K.
  destruct (K (conj I I)) as [_ Hin].
  specialize (Hin 1%Z). rewrite Eu in Hin. specialize (Hin (or_introl eq_refl)).
  vm_compute in Hin. destruct Hin as [H | []]. discriminate H.
Qed.

(** The walk of [remove_outside_objects] runs over the list it shortens:
    with objects 3 and 4 both beside the footprint, removing 3 moves 4 under
    the index already passed, and 4 stays in the scene. *)
Example remove_outside_skips_neighbour :
  option_map Scene.object_uids
    (value_of (exec Mock.engine
                 (Scene.remove_outside_objects Mock.sim (Mock.scene_of [3%Z; 4%Z]))
                 Mock.world_two_out)) = Some [4%Z] /\
  Scene.outside (Mock.scene_of [3%Z; 4%Z])
    (vsub (Mock.lookup 4 (Mock.positions Mock.world_two_out))
          (translation Mock.at_origin)) = true.
Proof. split; vm_compute; reflexivity. Qed.

(** A grasp that holds: free at the pose, in contact with body 3 after the
    lift, jaws 0.05 apart. *)
Example quality_holds_object :
  value_of (exec Mock.engine
              (PhysicsMetric.quality Mock.sim Mock.gripper Mock.grasp0)
              Mock.world_grip) = Some (1.0, [("object_uid"%string, 3%Z)]).
Proof. vm_compute. reflexivity. Qed.

(** The same grasp under the RobustPhysics test: the first trial holds, the
    second finds no contact after the lift. *)
Lemma robust_monotone_witness :
  let run n := exec Mock.engine
                 (RobustPhysicsMetric.call_ Mock.sim_saved Mock.gripper
                    (Mock.metric n) Mock.grasp0) Mock.world_grip in
  run 5%nat = run 2%nat /\ value_of (run 5%nat) = Some (0.0, []).
Proof.
  refine (robust_monotone Mock.engine Mock.sim_saved Mock.gripper
            (0.005, 0.005, 0.005)%Q (0, 0, 0)%Q 2 5 Mock.grasp0 Mock.world_grip
            _ _).
  - lia.
  - exists (0.0, []). split; [vm_compute; reflexivity | reflexivity].
Defined.


Lemma scene_ops_keep_sync_witness :
  exists s' w' t,
    exec Mock.engine (run_op Mock.pack_op Scene.init) Mock.world_pack =
      Done s' w' t /\
    in_sync s' (live_bodies [0%Z] t).
Proof.
  assert (H : in_sync (@Scene.init Mock.spatial) [0%Z])
    by (split; [constructor | intros u []]).
  pose proof (@scene_ops_keep_sync Mock.spatial Mock.world Mock.engine
                Mock.pack_op Scene.init [0%Z] Mock.world_pack H) as K.
  destruct K as [K _].
  destruct (exec Mock.engine (run_op Mock.pack_op Scene.init) Mock.world_pack)
    as [s' w' t | e w' t] eqn:E.
  - exists s', w', t. split; [reflexivity |]. apply K; [| exact I].
    apply fresh_loadsb_sound.
    apply (f_equal trace_of) in E. cbn [trace_of] in E. rewrite <- E.
    vm_compute. reflexivity.
  - exfalso. apply K. exact I.
Defined.

(** In that scenario the engine does hand out fresh handles, and both
    objects end up in the scene. *)
Example packed_scene_scenario :
  let o := exec Mock.engine (run_op Mock.pack_op Scene.init) Mock.world_pack in
  option_map Scene.object_uids (value_of o) = Some [3%Z; 5%Z] /\
  loads (trace_of o) = [2%Z; 3%Z; 5%Z] /\
  removals (trace_of o) = [] /\
  live_bodies [0%Z] (trace_of o) = [5%Z; 3%Z; 2%Z; 0%Z].
Proof. repeat split; vm_compute; reflexivity. Qed.

(* ================================================================== *)
(** * Further properties of the code *)

(** ** Counting along a trace *)

Section TallyFacts.
Context {SP : Spatial}.

Lemma tally_app (mu : event -> nat) (t1 t2 : trace) :
  tally mu (t1 ++ t2) = (tally mu t1 + tally mu t2)%nat.
Proof. unfold tally. rewrite map_app, list_sum_app. reflexivity. Qed.

Lemma tally_step (t : trace) : tally step_weight t = step_count t.
Proof.
  induction t as [| e t IH]; [reflexivity |].
  change (tally step_weight (e :: t))
    with (step_weight e + tally step_weight t)%nat.
  rewrite IH. unfold step_weight, step_count. cbn [filter].
  destruct (is_step e); reflexivity.
Qed.

Lemma tally_load (t : trace) : tally load_weight t = List.length (loads t).
Proof.
  induction t as [| e t IH]; [reflexivity |].
  change (tally load_weight (e :: t))
    with (load_weight e + tally load_weight t)%nat.
  rewrite IH. unfold load_weight, loads. cbn [collect].
  destruct (load_of e); reflexivity.
Qed.

Lemma tally_removal (t : trace) :
  tally removal_weight t = List.length (removals t).
Proof.
  induction t as [| e t IH]; [reflexivity |].
  change (tally removal_weight (e :: t))
    with (removal_weight e + tally removal_weight t)%nat.
  rewrite IH. unfold removal_weight, removals. cbn [collect].
  destruct (removal_of e); reflexivity.
Qed.

Lemma costs_ret {A} (mu : event -> nat) (P : A -> Prop) (a : A) :
  P a -> costs mu 0 P (Ret a).
Proof.
  intros H W h w. exists a, w, [].
  split; [reflexivity | split; [reflexivity | exact H]].
Qed.

Lemma costs_trigger {X} (mu : event -> nat) (n : nat) (P : X -> Prop)
    (c : call X) :
  (forall r, mu (Ev c r) = n) -> (forall x, P x) -> costs mu n P (trigger c).
Proof.
  intros Hmu HP W h w. rewrite exec_trigger. do 3 eexists.
  split; [reflexivity |]. split; [| apply HP].
  unfold tally. cbn [map list_sum fold_right]. rewrite Hmu. lia.
Qed.

Lemma costs_bind {A B} (mu : event -> nat) (n m k : nat) (P : A -> Prop)
    (Q : B -> Prop) (p : prog A) (f : A -> prog B) :
  costs mu n P p -> (forall a, P a -> costs mu m Q (f a)) -> k = (n + m)%nat ->
  costs mu k Q (bind p f).
Proof.
  intros Hp Hf -> W h w. rewrite exec_bind.
  destruct (Hp W h w) as (a & w1 & t1 & -> & Hn & Ha).
  destruct (Hf a Ha W h w1) as (b & w2 & t2 & -> & Hm & Hb).
  cbn [prepend]. do 3 eexists. split; [reflexivity |].
  split; [rewrite tally_app; lia | exact Hb].
Qed.

Lemma costs_weaken {A} (mu : event -> nat) (n : nat) (P Q : A -> Prop)
    (p : prog A) :
  (forall a, P a -> Q a) -> costs mu n P p -> costs mu n Q p.
Proof.
  intros H Hp W h w. destruct (Hp W h w) as (a & w1 & t1 & E & Hn & Ha).
  exists a, w1, t1. split; [exact E | split; [exact Hn | apply H, Ha]].
Qed.

Lemma costs_repeat (mu : event -> nat) (n k : nat) (body : prog unit) :
  costs mu n (fun _ => True) body ->
  costs mu (k * n) (fun _ => True) (repeat_prog k body).
Proof.
  intro Hb. induction k as [| k IH]; cbn [repeat_prog].
  - apply costs_ret. exact I.
  - eapply costs_bind; [exact Hb | intros _ _; exact IH | reflexivity].
Qed.

Lemma costs_for_range (mu : event -> nat) (n k start : nat)
    (body : nat -> prog unit) :
  (forall i, costs mu n (fun _ => True) (body i)) ->
  costs mu (k * n) (fun _ => True) (for_range start k body).
Proof.
  intro Hb. revert start. induction k as [| k IH]; intro start; cbn [for_range].
  - apply costs_ret. exact I.
  - eapply costs_bind; [apply Hb | intros _ _; apply IH | reflexivity].
Qed.

(** One [sim.step()] under a weight that ignores sleeping. *)
Lemma costs_step (mu : event -> nat) (n : nat) (sim : GraspSim.t) :
  mu (Ev StepSimulation tt) = n ->
  (forall d, mu (Ev (Sleep d) tt) = 0%nat) ->
  costs mu n (fun _ => True) (GraspSim.step sim).
Proof.
  intros Hs Hz. unfold GraspSim.step.
  eapply costs_bind with (P := fun _ => True).
  - apply costs_trigger; [intros []; exact Hs | auto].
  - intros _ _. destruct (GraspSim.sleep sim).
    + apply costs_trigger with (n := 0%nat); [intros []; apply Hz | auto].
    + apply costs_ret. exact I.
  - destruct (GraspSim.sleep sim); lia.
Qed.
End TallyFacts.

(** ** What the gripper and the metrics cost *)

Ltac zero_trigger :=
  apply costs_trigger with (n := 0%nat); [intros ?; reflexivity | auto].

Ltac zero_bind :=
  eapply costs_bind with (n := 0%nat) (m := 0%nat) (P := fun _ => True);
  [ | intros ? _ | reflexivity].

Section GripperCosts.
Context {SP : Spatial}.

Lemma neutral_for_range (n start : nat) (body : nat -> prog unit) :
  (forall i, neutral (body i)) -> neutral (for_range start n body).
Proof.
  intro Hb. revert start. induction n as [| n IH]; intro start; cbn [for_range].
  - apply neutral_ret.
  - apply neutral_bind; [apply Hb | intros _; apply IH].
Qed.

Lemma neutral_reset sim g p wd : neutral (PandaGripper.reset sim g p wd).
Proof.
  unfold PandaGripper.reset, PandaGripper.update_fixed_joint.
  do 4 (apply neutral_bind; [apply neutral_trigger; reflexivity | intros _]).
  apply neutral_step.
Qed.

Lemma neutral_close sim g : neutral (PandaGripper.close_fingers sim g).
Proof.
  unfold PandaGripper.close_fingers.
  apply neutral_bind; [apply neutral_trigger; reflexivity | intros _].
  apply neutral_repeat, neutral_step.
Qed.

Lemma neutral_lift sim g : neutral (PandaGripper.lift sim g).
Proof.
  unfold PandaGripper.lift.
  apply neutral_bind; [apply neutral_trigger; reflexivity | intros po].
  apply neutral_for_range. intro i. unfold PandaGripper.update_fixed_joint.
  apply neutral_bind; [apply neutral_trigger; reflexivity | intros _].
  apply neutral_step.
Qed.

Lemma neutral_width g : neutral (PandaGripper.width g).
Proof.
  unfold PandaGripper.width.
  do 2 (apply neutral_bind; [apply neutral_trigger; reflexivity | intro]).
  apply neutral_ret.
Qed.

Lemma neutral_quality sim g grasp : neutral (PhysicsMetric.quality sim g grasp).
Proof.
  unfold PhysicsMetric.quality, PandaGripper.contacts.
  apply neutral_bind; [apply neutral_reset | intros _].
  apply neutral_bind; [apply neutral_trigger; reflexivity | intros cs].
  destruct cs; [| apply neutral_ret].
  apply neutral_bind; [apply neutral_close | intros _].
  apply neutral_bind; [apply neutral_lift | intros _].
  apply neutral_bind; [apply neutral_trigger; reflexivity | intros cs'].
  apply neutral_bind; [apply neutral_width | intros wd].
  destruct (Qgtb wd _); [destruct cs' |]; apply neutral_ret.
Qed.

Lemma snapshot_free_step sim :
  costs snapshot_weight 0 (fun _ => True) (GraspSim.step sim).
Proof. apply costs_step; [reflexivity | intro d; reflexivity]. Qed.

Lemma snapshot_free_quality sim g grasp :
  costs snapshot_weight 0 (fun _ => True) (PhysicsMetric.quality sim g grasp).
Proof.
  unfold PhysicsMetric.quality, PandaGripper.contacts.
  zero_bind.
  { unfold PandaGripper.reset, PandaGripper.update_fixed_joint.
    do 4 (zero_bind; [zero_trigger |]). apply snapshot_free_step. }
  zero_bind; [zero_trigger |].
  match goal with |- costs _ _ _ (match ?cs with _ => _ end) => destruct cs end;
    [| apply costs_ret; exact I].
  zero_bind.
  { unfold PandaGripper.close_fingers. zero_bind; [zero_trigger |].
    apply (costs_repeat snapshot_weight 0 60), snapshot_free_step. }
  zero_bind.
  { unfold PandaGripper.lift. zero_bind; [zero_trigger |].
    apply (costs_for_range snapshot_weight 0 60). intro i.
    unfold PandaGripper.update_fixed_joint.
    zero_bind; [zero_trigger | apply snapshot_free_step]. }
  zero_bind; [zero_trigger |].
  zero_bind.
  { unfold PandaGripper.width. do 2 (zero_bind; [zero_trigger |]).
    apply costs_ret; exact I. }
  match goal with
  | |- costs _ _ _ (match Qgtb ?a ?b with _ => _ end) => destruct (Qgtb a b)
  end;
    [match goal with
     | |- costs _ _ _ (match ?cs with _ => _ end) => destruct cs
     end |]; apply costs_ret; exact I.
Qed.
End GripperCosts.

Section GripperSteps.
Context {SP : Spatial} {W : Type} (h : handler W).

Lemma trace_of_prepend {A} (t : trace) (o : outcome W A) :
  trace_of (prepend t o) = t ++ trace_of o.
Proof. destruct o; reflexivity. Qed.

Lemma width_trace (g : PandaGripper.t) (w : W) :
  exists a b,
    trace_of (exec h (PandaGripper.width g) w) =
    [Ev (GetJointState (PandaGripper.uid g) 0) a;
     Ev (GetJointState (PandaGripper.uid g) 1) b].
Proof. unfold PandaGripper.width. do 2 eexists. reflexivity. Qed.

Lemma reset_events_steps sim g p wd : step_count (reset_events sim g p wd) = 1%nat.
Proof. unfold reset_events, step_events. destruct (GraspSim.sleep sim); reflexivity. Qed.

Lemma close_events_steps sim g : step_count (close_events sim g) = 60%nat.
Proof.
  unfold close_events.
  change (step_count (?e :: ?t)) with (step_count ([e] ++ t)).
  rewrite step_count_app, step_count_repeat. reflexivity.
Qed.

Lemma lift_events_steps sim g po : step_count (lift_events sim g po) = 60%nat.
Proof.
  unfold lift_events.
  change (step_count (?e :: ?t)) with (step_count ([e] ++ t)).
  rewrite step_count_app.
  etransitivity;
    [apply f_equal2; [reflexivity | apply step_count_concat_map] | reflexivity].
  intro i. change (step_count (?e :: ?t)) with (step_count ([e] ++ t)).
  rewrite step_count_app, step_events_count. reflexivity.
Qed.

Lemma not_pacing_steps sim (n : nat) :
  filter (fun e => negb (pacing e)) (List.concat (repeat (step_events sim) n)) = [].
Proof.
  induction n as [| n IH]; cbn [repeat List.concat]; [reflexivity |].
  rewrite filter_app, IH. unfold step_events.
  destruct (GraspSim.sleep sim); reflexivity.
Qed.

(** The steps of one run of [quality]. *)
Lemma quality_steps sim g grasp (w : W) :
  step_count (trace_of (exec h (PhysicsMetric.quality sim g grasp) w)) =
  match reply h (GetContactPoints (PandaGripper.uid g))
          (world_of (exec h (PandaGripper.reset sim g (pose grasp) (width grasp)) w))
  with
  | [] => 121%nat
  | _ :: _ => 1%nat
  end.
Proof.
  rewrite quality_unfold. rewrite trace_of_prepend, !step_count_app.
  rewrite reset_trace, reset_events_steps.
  destruct (reply h (GetContactPoints (PandaGripper.uid g)) _) as [| c0 cs].
  - rewrite trace_of_prepend, !step_count_app.
    rewrite close_trace, close_events_steps, lift_trace, lift_events_steps.
    match goal with
    | |- context [exec h (PandaGripper.width g) ?w0] =>
        destruct (width_trace g w0) as (a & b & Ew);
        destruct (exec h (PandaGripper.width g) w0) as [wd w6 tw | e w6 tw];
        cbn [trace_of] in *; rewrite Ew
    end; reflexivity.
  - reflexivity.
Qed.

(** X4: [close_fingers] always runs its full duration.  Whatever the engine
    replies it returns, having advanced the simulation by exactly 60 steps;
    apart from stepping and pacing, its only call is the one motor command
    (both fingers, velocity -0.1, force [MAX_GRASP_FORCE]) that precedes the
    steps: it reads neither contacts nor joint positions and has no early
    exit. *)
Theorem close_fingers_full_duration (sim : GraspSim.t) (g : PandaGripper.t)
    (w : W) :
  let o := exec h (PandaGripper.close_fingers sim g) w in
  let motor := SetJointMotorControlArray (PandaGripper.uid g) [0%Z; 1%Z]
                 [(-0.1)%Q; (-0.1)%Q] [MAX_GRASP_FORCE; MAX_GRASP_FORCE] in
  value_of o = Some tt /\
  step_count (trace_of o) = 60%nat /\
  hd_error (trace_of o) = Some (Ev motor tt) /\
  filter (fun e => negb (pacing e)) (trace_of o) = [Ev motor tt].
Proof.
  intros o motor. subst o.
  split; [destruct (safe_close_fingers sim g W h w) as [[] E]; exact E |].
  rewrite close_trace.
  split; [apply close_events_steps |]. split; [reflexivity |].
  unfold close_events. cbn [filter pacing negb].
  rewrite not_pacing_steps. reflexivity.
Qed.

(** X5: what one Physics evaluation costs and what it never does.  It
    advances the simulation by exactly 1 step when the gripper is in contact
    after the reset and by exactly 121 steps (1 + 60 + 60) otherwise; it
    creates or removes no body; and it neither saves nor restores a
    snapshot, so the world it leaves is the one after the lift. *)
Theorem quality_cost (sim : GraspSim.t) (g : PandaGripper.t)
    (grasp : ParallelJawGrasp) (w : W) :
  let r := exec h (PandaGripper.reset sim g (pose grasp) (width grasp)) w in
  let cs := reply h (GetContactPoints (PandaGripper.uid g)) (world_of r) in
  let t := trace_of (exec h (PhysicsMetric.quality sim g grasp) w) in
  step_count t = match cs with [] => 121%nat | _ :: _ => 1%nat end /\
  quiet t /\
  tally snapshot_weight t = 0%nat.
Proof.
  intros r cs t. subst t.
  split; [apply quality_steps |].
  split; [apply neutral_quality |].
  destruct (snapshot_free_quality sim g grasp W h w) as (a & w' & t & E & Ht & _).
  rewrite E. exact Ht.
Qed.
End GripperSteps.

Section RobustCosts.
Context {SP : Spatial} {W : Type} (h : handler W).
Variables (sim : GraspSim.t) (g : PandaGripper.t) (m : RobustPhysicsMetric.t)
  (p : Transform) (wd : Q).

Lemma neutral_trial : neutral (RobustPhysicsMetric.trial sim g m p wd).
Proof.
  unfold RobustPhysicsMetric.trial, GraspSim.restore_state.
  apply neutral_bind; [apply neutral_trigger; reflexivity | intro e].
  apply neutral_bind; [apply neutral_trigger; reflexivity | intro t].
  apply neutral_bind; [| intros _; apply neutral_quality].
  destruct (GraspSim.snapshot_id sim);
    [apply neutral_trigger; reflexivity | apply neutral_raise].
Qed.

Lemma neutral_trials (n : nat) :
  neutral (RobustPhysicsMetric.trials n sim g m p wd).
Proof.
  induction n as [| n IH]; cbn [RobustPhysicsMetric.trials].
  - apply neutral_ret.
  - apply neutral_bind; [apply neutral_trial | intro r].
    destruct (Qeq_bool (fst r) 0); [apply neutral_ret | exact IH].
Qed.

(** The weight of one trial, from the weight of its parts. *)
Lemma tally_trial (mu : event -> nat) (b : nat) (w0 : W) :
  (forall lo hi (r : vec3), mu (Ev (RngUniform3 lo hi) r) = 0%nat) ->
  (forall grasp w1,
      tally mu (trace_of (exec h (PhysicsMetric.quality sim g grasp) w1)) <= b)%nat ->
  (tally mu (trace_of (exec h (RobustPhysicsMetric.trial sim g m p wd) w0))
   <= match GraspSim.snapshot_id sim with
      | Some id => mu (Ev (RestoreState id) tt) + b
      | None => 0
      end)%nat.
Proof.
  intros Hd Hq. rewrite trial_unfold. rewrite trace_of_prepend, tally_app.
  unfold tally at 1. cbn [map list_sum fold_right]. rewrite !Hd.
  destruct (GraspSim.snapshot_id sim) as [id |]; [| cbn; lia].
  rewrite trace_of_prepend, tally_app.
  unfold tally at 1. cbn [map list_sum fold_right].
  match goal with
  | |- context [exec h (PhysicsMetric.quality sim g ?gr) ?w1] =>
      specialize (Hq gr w1)
  end. lia.
Qed.

Lemma tally_trials_le (mu : event -> nat) (b n : nat) :
  (forall w0,
      tally mu (trace_of (exec h (RobustPhysicsMetric.trial sim g m p wd) w0)) <= b)%nat ->
  forall w,
    (tally mu (trace_of (exec h (RobustPhysicsMetric.trials n sim g m p wd) w))
     <= n * b)%nat.
Proof.
  intro Hb. induction n as [| n IH]; intro w.
  - cbn. lia.
  - rewrite trials_S. specialize (Hb w).
    destruct (exec h (RobustPhysicsMetric.trial sim g m p wd) w) as [r w1 t1 | e w1 t1];
      cbn [trace_of] in Hb.
    + destruct (Qeq_bool (fst r) 0); cbn [trace_of]; [lia |].
      rewrite trace_of_prepend, tally_app. specialize (IH w1). lia.
    + cbn [trace_of]. lia.
Qed.
End RobustCosts.

Section RobustExtras.
Context {SP : Spatial} {W : Type} (h : handler W).

(** X6: the RobustPhysics test on a session that was never saved, and with
    no samples.  With [sample_count = 0] it returns (1, {}) without a single
    call, whatever the grasp and the session.  With at least one sample, on
    a session without a snapshot, it raises [AttributeError] in its first
    trial, after the two draws from the generator and before any call to
    the physics engine. *)
Theorem robust_without_snapshot (sim : GraspSim.t) (g : PandaGripper.t)
    (m : RobustPhysicsMetric.t) (grasp : ParallelJawGrasp) (w : W) :
  GraspSim.snapshot_id sim = None ->
  let d1 := RngUniform3 (vneg (RobustPhysicsMetric.rpy m)) (RobustPhysicsMetric.rpy m) in
  let d2 := RngUniform3 (vneg (RobustPhysicsMetric.xyz m)) (RobustPhysicsMetric.xyz m) in
  match RobustPhysicsMetric.sample_count m with
  | O => exec h (RobustPhysicsMetric.call_ sim g m grasp) w = Done (1.0, []) w []
  | S _ =>
      exec h (RobustPhysicsMetric.call_ sim g m grasp) w =
      Failed (AttributeError "'GraspSim' object has no attribute 'snapshot_id'")
             (next h d2 (next h d1 w))
             [Ev d1 (reply h d1 w); Ev d2 (reply h d2 (next h d1 w))]
  end.
Proof.
  intros Hs d1 d2. unfold RobustPhysicsMetric.call_.
  destruct (RobustPhysicsMetric.sample_count m) as [| n]; [reflexivity |].
  rewrite trials_S, trial_unfold, Hs. reflexivity.
Qed.

(** X7: what one RobustPhysics evaluation costs and what it never does.  It
    creates or removes no body, never saves a snapshot, restores one at most
    once per sample, and advances the simulation by at most 121 steps per
    sample. *)
Theorem robust_cost (sim : GraspSim.t) (g : PandaGripper.t)
    (m : RobustPhysicsMetric.t) (grasp : ParallelJawGrasp) (w : W) :
  let N := RobustPhysicsMetric.sample_count m in
  let t := trace_of (exec h (RobustPhysicsMetric.call_ sim g m grasp) w) in
  quiet t /\
  (step_count t <= 121 * N)%nat /\
  (tally snapshot_weight t <= N)%nat /\
  tally save_weight t = 0%nat.
Proof.
  intros N t. subst t. unfold RobustPhysicsMetric.call_. fold N.
  split; [apply neutral_trials |].
  assert (Hq : forall mu b c,
             (forall gr w1,
                 tally mu (trace_of (exec h (PhysicsMetric.quality sim g gr) w1)) <= b)%nat ->
             (forall lo hi (r : vec3), mu (Ev (RngUniform3 lo hi) r) = 0%nat) ->
             (forall id, mu (Ev (RestoreState id) tt) = c) ->
             (tally mu (trace_of (exec h (RobustPhysicsMetric.trials N sim g m
                                            (pose grasp) (width grasp)) w))
              <= N * (c + b))%nat).
  { intros mu b c Hb Hd Hc. apply tally_trials_le. intro w0.
    pose proof (tally_trial h sim g m (pose grasp) (width grasp) mu b w0 Hd Hb)
      as Ht.
    destruct (GraspSim.snapshot_id sim) as [id |]; [rewrite Hc in Ht |]; lia. }
  assert (Hsnap : forall gr w1,
             tally snapshot_weight
               (trace_of (exec h (PhysicsMetric.quality sim g gr) w1)) = 0%nat).
  { intros gr w1.
    destruct (snapshot_free_quality sim g gr W h w1) as (a & w' & t & E & Ht & _).
    rewrite E. exact Ht. }
  assert (Hsave : forall t : trace,
             (tally save_weight t <= tally snapshot_weight t)%nat).
  { intro t. induction t as [| e t IH]; [cbn; lia |].
    change (tally save_weight (e :: t))
      with (save_weight e + tally save_weight t)%nat.
    change (tally snapshot_weight (e :: t))
      with (snapshot_weight e + tally snapshot_weight t)%nat.
    assert (save_weight e <= snapshot_weight e)%nat
      by (destruct e as [X c r]; destruct c; cbn; lia).
    lia. }
  split; [| split].
  - rewrite <- tally_step.
    assert (H1 : forall gr w1,
               (tally step_weight
                  (trace_of (exec h (PhysicsMetric.quality sim g gr) w1)) <= 121)%nat).
    { intros gr w1. rewrite tally_step, quality_steps.
      destruct (reply h _ _); lia. }
    pose proof (Hq step_weight 121%nat 0%nat H1 (fun _ _ _ => eq_refl)
                  (fun _ => eq_refl)) as H2.
    lia.
  - assert (H1 : forall gr w1,
               (tally snapshot_weight
                  (trace_of (exec h (PhysicsMetric.quality sim g gr) w1)) <= 0)%nat)
      by (intros gr w1; rewrite Hsnap; lia).
    pose proof (Hq snapshot_weight 0%nat 1%nat H1 (fun _ _ _ => eq_refl)
                  (fun _ => eq_refl)) as H2.
    lia.
  - assert (H1 : forall gr w1,
               (tally save_weight
                  (trace_of (exec h (PhysicsMetric.quality sim g gr) w1)) <= 0)%nat).
    { intros gr w1. rewrite <- (Hsnap gr w1). apply Hsave. }
    pose proof (Hq save_weight 0%nat 0%nat H1 (fun _ _ _ => eq_refl)
                  (fun _ => eq_refl)) as H2.
    lia.
Qed.
End RobustExtras.

(** ** Building a session and choosing a metric *)

(** X3: choosing a metric by name.  "physics" yields the Physics metric for
    every [cfg], the absent one included.  "robust_physics" yields a metric
    exactly for a [cfg] that has [uncertainty.xyz], [uncertainty.rpy] and
    [sample_count], and the metric holds exactly these; with the default
    [cfg] (None) it raises [TypeError].  Any other name raises [ValueError]
    naming it: no metric is ever substituted. *)
Theorem get_quality_fn_dispatch :
  (forall cfg, get_quality_fn "physics" cfg = inr PhysicsFn) /\
  (forall cfg m,
      get_quality_fn "robust_physics" cfg = inr (RobustPhysicsFn m) <->
      cfg = Some (mkQualityCfg
                    (Some (mkUncertainty (Some (RobustPhysicsMetric.xyz m))
                                         (Some (RobustPhysicsMetric.rpy m))))
                    (Some (RobustPhysicsMetric.sample_count m)))) /\
  get_quality_fn "robust_physics" None =
    inl (ConfigTypeError "'NoneType' object is not subscriptable") /\
  (forall name cfg,
      name <> "physics"%string -> name <> "robust_physics"%string ->
      get_quality_fn name cfg =
        inl (ConfigValueError (name ++ " quality_fn does not exist."))) /\
  (forall name cfg f,
      get_quality_fn name cfg = inr f ->
      (name = "physics"%string /\ f = PhysicsFn) \/
      (name = "robust_physics"%string /\ exists m, f = RobustPhysicsFn m)).
Proof.
  split; [reflexivity |]. split; [| split; [reflexivity | split]].
  - intros cfg m. change (get_quality_fn "robust_physics" cfg)
      with (RobustPhysicsMetric_init cfg).
    unfold RobustPhysicsMetric_init. split.
    + destruct cfg as [[[[[xyz |] [rpy |]] |] [n |]] |]; try discriminate.
      intro E. injection E as <-. reflexivity.
    + intros ->. destruct m. reflexivity.
  - intros name cfg H1 H2. unfold get_quality_fn, quality_fns.
    apply String.eqb_neq in H1, H2. rewrite H1, H2. reflexivity.
  - intros name cfg f. unfold get_quality_fn, quality_fns.
    destruct (String.eqb name "physics") eqn:E1.
    + apply String.eqb_eq in E1. intro E. injection E as <-. left. tauto.
    + destruct (String.eqb name "robust_physics") eqn:E2; [| discriminate].
      apply String.eqb_eq in E2. unfold RobustPhysicsMetric_init.
      destruct cfg as [[[[[xyz |] [rpy |]] |] [n |]] |]; try discriminate.
      intro E. injection E as <-. right. split; [exact E2 | eexists; reflexivity].
Qed.

Section SessionFacts.
Context {SP : Spatial} {W : Type} (h : handler W).

Lemma joint_resets_app (t1 t2 : trace) :
  joint_resets (t1 ++ t2) = joint_resets t1 ++ joint_resets t2.
Proof.
  induction t1 as [| e t1 IH]; cbn [app joint_resets]; [reflexivity |].
  destruct (joint_reset_of e); cbn [app]; rewrite IH; reflexivity.
Qed.

Lemma loads_reset_events sim g p wd : loads (reset_events sim g p wd) = [].
Proof. unfold reset_events, step_events. destruct (GraspSim.sleep sim); reflexivity. Qed.

(** [GraspSim.__init__], call by call. *)
Lemma exec_GraspSim_init (cfg : config) (w : W) :
  let sim := GraspSim.mk 60 (1.0 / 60) (cfg_sleep cfg) None in
  let w4 := world_of (exec h (GraspSim.configure_physics_engine (cfg_gui cfg) 60 4 ;;
                              GraspSim.configure_visualizer) w) in
  let ld := LoadURDF "assets/panda/hand.urdf" (0, 0, 0)%Q (0, 0, 0, 1)%Q 1 in
  let u := reply h ld w4 in
  let c1 := CreateConstraint u (-1) (-1) (-1) JOINT_FIXED
              (0.0, 0.0, 0.0)%Q (0.0, 0.0, 0.0)%Q (0.0, 0.0, 0.0)%Q in
  let fj := reply h c1 (next h ld w4) in
  let c2 := CreateConstraint u 0 u 1 JOINT_GEAR
              (1.0, 0.0, 0.0)%Q (0.0, 0.0, 0.0)%Q (0.0, 0.0, 0.0)%Q in
  let gear := reply h c2 (next h c1 (next h ld w4)) in
  let gr := new_gripper u fj in
  let park := PandaGripper.reset sim gr (Transform_t (100, 100, 100)%Q) 0.08 in
  let w8 := next h (ChangeConstraintGear gear (-1) 0.1 50)
              (next h c2 (next h c1 (next h ld w4))) in
  let t := configure_events (cfg_gui cfg) ++ gripper_setup_events u fj gear
           ++ reset_events sim gr (Transform_t (100, 100, 100)%Q) 0.08 in
  exec h (GraspSim_init cfg) w =
  match scenes (cfg_scene cfg) with
  | Some k => Done (sim, gr, (k, Scene.init)) (world_of (exec h park w8)) t
  | None => Failed (ValueError (cfg_scene cfg ++ " scene does not exist."))
                   (world_of (exec h park w8)) t
  end.
Proof.
  intros sim w4 ld u c1 fj c2 gear gr park w8 t.
  assert (Ecfg : exec h (GraspSim.configure_physics_engine (cfg_gui cfg) 60 4) w =
                 Done (60, 1.0 / 60)
                      (world_of (exec h (GraspSim.configure_physics_engine
                                           (cfg_gui cfg) 60 4) w))
                      [Ev (Connect (cfg_gui cfg)) tt;
                       Ev (SetPhysicsEngineParameter (1.0 / 60) 4) tt;
                       Ev (SetGravity (0.0, 0.0, -9.81)%Q) tt]).
  { unfold GraspSim.configure_physics_engine. cbn [bind trigger exec prepend app world_of].
    repeat match goal with
           | |- context [Ev ?c (reply h ?c ?w0)] =>
               lazymatch type of (reply h c w0) with
               | unit => destruct (reply h c w0)
               end
           end.
    reflexivity. }
  assert (Ew4 : w4 = next h (ResetDebugVisualizerCamera 1.2 30 (-30) (0.4, 0.0, 0.2)%Q)
                       (world_of (exec h (GraspSim.configure_physics_engine
                                            (cfg_gui cfg) 60 4) w))).
  { subst w4. rewrite exec_bind, Ecfg. reflexivity. }
  assert (Eg : exec h (PandaGripper.init sim) w4 =
               Done gr (world_of (exec h park w8))
                    (gripper_setup_events u fj gear
                     ++ reset_events sim gr (Transform_t (100, 100, 100)%Q) 0.08)).
  { unfold PandaGripper.init.
    rewrite exec_bind, exec_trigger. fold ld u. cbn [prepend].
    rewrite exec_bind.
    assert (Ec : exec h (PandaGripper.create_joints u) (next h ld w4) =
                 Done fj w8 [Ev c1 fj; Ev c2 gear;
                             Ev (ChangeConstraintGear gear (-1) 0.1 50) tt]).
    { unfold PandaGripper.create_joints.
      cbn [bind trigger exec prepend app]. fold c1 fj c2 gear.
      destruct (reply h (ChangeConstraintGear gear (-1) 0.1 50) _). reflexivity. }
    rewrite Ec. cbn [prepend]. fold gr.
    change (PandaGripper.max_width gr) with (0.08)%Q. fold park.
    rewrite (exec_seq h park _ w8 (safe_reset _ _ _ _)).
    subst park. rewrite reset_trace. cbn [exec prepend app].
    rewrite app_nil_r. reflexivity. }
  unfold GraspSim_init.
  rewrite exec_bind, Ecfg. cbn [prepend fst snd].
  rewrite exec_bind. unfold GraspSim.configure_visualizer at 1.
  rewrite exec_trigger. cbn [prepend]. rewrite <- Ew4.
  destruct (reply h (ResetDebugVisualizerCamera 1.2 30 (-30) (0.4, 0.0, 0.2)%Q) _).
  rewrite exec_bind. fold sim. rewrite Eg. cbn [prepend].
  rewrite exec_bind. unfold get_scene.
  destruct (scenes (cfg_scene cfg)); cbn [exec prepend app];
    rewrite ?app_nil_r; reflexivity.
Qed.
Lemma init_trace_facts (gui : bool) (sim : GraspSim.t) (u fj gear : Z) :
  let gr := new_gripper u fj in
  let t := configure_events gui ++ gripper_setup_events u fj gear
           ++ reset_events sim gr (Transform_t (100, 100, 100)%Q) 0.08 in
  hd_error t = Some (Ev (Connect gui) tt) /\
  loads t = [u] /\
  step_count t = 1%nat /\
  joint_resets t = [(u, 0%Z, (0.5 * 0.08)%Q); (u, 1%Z, (0.5 * 0.08)%Q)].
Proof.
  intros gr t. subst t.
  split; [reflexivity |]. split; [| split].
  - unfold loads. rewrite !collect_app.
    change (collect load_of (reset_events sim gr (Transform_t (100, 100, 100)%Q) 0.08))
      with (loads (reset_events sim gr (Transform_t (100, 100, 100)%Q) 0.08)).
    rewrite loads_reset_events. reflexivity.
  - rewrite !step_count_app, reset_events_steps. reflexivity.
  - rewrite !joint_resets_app, joint_resets_reset. reflexivity.
Qed.

(** X1: an unknown scene name is found late.  [GraspSim.__init__] raises
    [ValueError] naming the scene, but only as its last action: by then it
    has connected to the engine, configured it, loaded the gripper body,
    created its constraints and advanced the simulation by one step. *)
Theorem session_unknown_scene (cfg : config) (w : W) :
  cfg_scene cfg <> "packed"%string ->
  cfg_scene cfg <> "pile"%string ->
  exists w' t u,
    exec h (GraspSim_init cfg) w =
      Failed (ValueError (cfg_scene cfg ++ " scene does not exist.")) w' t /\
    hd_error t = Some (Ev (Connect (cfg_gui cfg)) tt) /\
    loads t = [u] /\
    step_count t = 1%nat.
Proof.
  intros H1 H2. pose proof (exec_GraspSim_init cfg w) as E. cbv zeta in E.
  assert (Hs : scenes (cfg_scene cfg) = None).
  { unfold scenes. apply String.eqb_neq in H1, H2. rewrite H1, H2. reflexivity. }
  rewrite Hs in E. rewrite E. do 3 eexists. split; [reflexivity |].
  match goal with
  | |- context [gripper_setup_events ?u ?fj ?gear] =>
      destruct (init_trace_facts (cfg_gui cfg)
                  (GraspSim.mk 60 (1.0 / 60) (cfg_sleep cfg) None) u fj gear)
        as (Hh & Hl & Hc & _)
  end.
  split; [exact Hh |]. split; [exact Hl | exact Hc].
Qed.

(** X2: a fresh session.  For the scene names "packed" and "pile",
    [GraspSim.__init__] returns a session with rate 60, time step 1/60 and
    no snapshot, an empty scene of the kind asked for, and a gripper of
    maximum width 0.08 on the one body it loaded; it has advanced the
    simulation by exactly one step and left both finger joints at half the
    maximum width (jaws fully open). *)
Theorem session_fresh (cfg : config) (w : W) :
  cfg_scene cfg = "packed"%string \/ cfg_scene cfg = "pile"%string ->
  exists u fj gear w' t,
    exec h (GraspSim_init cfg) w =
      Done (GraspSim.mk 60 (1.0 / 60) (cfg_sleep cfg) None,
            new_gripper u fj,
            (if String.eqb (cfg_scene cfg) "packed" then Packed else Pile,
             Scene.init)) w' t /\
    t = configure_events (cfg_gui cfg) ++ gripper_setup_events u fj gear
        ++ reset_events (GraspSim.mk 60 (1.0 / 60) (cfg_sleep cfg) None)
             (new_gripper u fj) (Transform_t (100, 100, 100)%Q) 0.08 /\
    loads t = [u] /\
    step_count t = 1%nat /\
    joint_resets t = [(u, 0%Z, (0.5 * 0.08)%Q); (u, 1%Z, (0.5 * 0.08)%Q)] /\
    (0.5 * 0.08 == 0.5 * PandaGripper.max_width (new_gripper u fj))%Q.
Proof.
  intros Hn. pose proof (exec_GraspSim_init cfg w) as E. cbv zeta in E.
  assert (Hs : scenes (cfg_scene cfg) =
               Some (if String.eqb (cfg_scene cfg) "packed" then Packed else Pile)).
  { destruct Hn as [-> | ->]; reflexivity. }
  rewrite Hs in E. rewrite E. do 5 eexists. split; [reflexivity |].
  split; [reflexivity |].
  match goal with
  | |- context [gripper_setup_events ?u ?fj ?gear] =>
      destruct (init_trace_facts (cfg_gui cfg)
                  (GraspSim.mk 60 (1.0 / 60) (cfg_sleep cfg) None) u fj gear)
        as (_ & Hl & Hc & Hj)
  end.
  split; [exact Hl |]. split; [exact Hc |]. split; [exact Hj | reflexivity].
Qed.
End SessionFacts.

(** ** Removing objects from a scene *)

Section RemovalFacts.
Context {SP : Spatial} {W : Type} (h : handler W).

Lemma list_remove_none (u : Z) (l : list Z) :
  ~ In u l -> list_remove u l = None.
Proof.
  induction l as [| y r IH]; intro H; [reflexivity |].
  cbn [list_remove]. destruct (Z.eqb u y) eqn:E.
  - apply Z.eqb_eq in E. exfalso. apply H. left. congruence.
  - rewrite IH; [reflexivity |]. intro G. apply H. right. exact G.
Qed.

(** X8: [remove_object] on a handle the scene does not manage.  The body is
    removed from the engine first and the list is searched after: the call
    raises [ValueError], but the engine has already been told to remove the
    body, and that is its only call. *)
Theorem remove_object_unmanaged (s : Scene.t) (u : Z) (w : W) :
  ~ In u (Scene.object_uids s) ->
  exec h (Scene.remove_object s u) w =
    Failed (ValueError "list.remove(x): x not in list")
           (next h (RemoveBody u) w) [Ev (RemoveBody u) tt].
Proof.
  intro H. rewrite exec_remove_object, (list_remove_none u _ H). reflexivity.
Qed.

(** Removing the handles [l] that head the managed list, one by one. *)
Lemma exec_remove_each (l r : list Z) (s : Scene.t) (w : W) :
  Scene.object_uids s = l ++ r ->
  exists w',
    exec h (Scene.remove_each l s) w =
    Done (Scene.set_object_uids s r) w' (map (fun u => Ev (RemoveBody u) tt) l).
Proof.
  revert s w; induction l as [| x l IH]; intros s w E; cbn [Scene.remove_each map].
  - exists w. cbn [exec]. f_equal. destruct s. cbn in *. subst. reflexivity.
  - rewrite exec_bind, exec_remove_object, E. cbn [app list_remove].
    rewrite Z.eqb_refl. cbn [prepend].
    destruct (IH (Scene.set_object_uids s (l ++ r)) (next h (RemoveBody x) w) eq_refl)
      as [w' E'].
    rewrite E'. cbn [prepend app]. exists w'. reflexivity.
Qed.

Lemma removals_remove_events (l : list Z) :
  removals (map (fun u => Ev (RemoveBody u) tt) l) = l.
Proof.
  induction l as [| x l IH]; [reflexivity |].
  cbn [map]. unfold removals in *. cbn [collect removal_of]. rewrite IH.
  reflexivity.
Qed.

(** X9: [remove_all_objects] empties the managed set.  It never raises,
    even when a handle occurs twice; it removes one body per entry of the
    list, in list order, and makes no other call; it leaves the set empty
    and every other field of the scene as it was. *)
Theorem remove_all_objects_empties (s : Scene.t) (w : W) :
  exists w',
    exec h (Scene.remove_all_objects s) w =
      Done (Scene.set_object_uids s []) w'
           (map (fun u => Ev (RemoveBody u) tt) (Scene.object_uids s)) /\
    Scene.object_count (Scene.set_object_uids s []) = 0%nat /\
    removals (map (fun u => Ev (RemoveBody u) tt) (Scene.object_uids s)) =
      Scene.object_uids s.
Proof.
  unfold Scene.remove_all_objects.
  destruct (exec_remove_each (Scene.object_uids s) [] s w) as [w' E];
    [rewrite app_nil_r; reflexivity |].
  exists w'. split; [exact E |]. split; [reflexivity |].
  apply removals_remove_events.
Qed.

(** X10: [clear] removes the support, then every managed object in list
    order, and leaves the set empty.  It does not forget the support
    handle: the scene it returns still holds it, so clearing again asks the
    engine to remove that same body a second time (and nothing else). *)
Theorem clear_then_clear (s : Scene.t) (w : W) :
  let s' := Scene.set_object_uids s [] in
  exists w',
    exec h (Scene.clear s) w =
      Done s' w'
           (Ev (RemoveBody (Scene.support_uid s)) tt ::
            map (fun u => Ev (RemoveBody u) tt) (Scene.object_uids s)) /\
    Scene.support_uid s' = Scene.support_uid s /\
    exec h (Scene.clear s') w' =
      Done s' (next h (RemoveBody (Scene.support_uid s)) w')
           [Ev (RemoveBody (Scene.support_uid s)) tt].
Proof.
  intro s'. unfold Scene.clear, Scene.remove_support, Scene.remove_all_objects.
  rewrite exec_bind, exec_trigger.
  destruct (reply h (RemoveBody (Scene.support_uid s)) w). cbn [prepend].
  destruct (exec_remove_each (Scene.object_uids s) [] s
              (next h (RemoveBody (Scene.support_uid s)) w)) as [w' E];
    [rewrite app_nil_r; reflexivity |].
  rewrite E. cbn [prepend app]. exists w'.
  split; [reflexivity |]. split; [reflexivity |].
  rewrite exec_bind, exec_trigger.
  destruct (reply h (RemoveBody (Scene.support_uid s')) w'). reflexivity.
Qed.

(** X13: [remove_outside_objects] on a scene that has no origin yet.  After
    the 60 steps, an empty scene is returned as it is; with an object in the
    set the walk reads the position of the first one and raises
    [AttributeError], having removed nothing. *)
Theorem remove_outside_without_origin (sim : GraspSim.t) (s : Scene.t) (w : W) :
  Scene.origin s = None ->
  let steps := List.concat (repeat (step_events sim) 60) in
  let w60 := world_of (exec h (Scene.wait_for_objects_to_rest sim) w) in
  match Scene.object_uids s with
  | [] => exec h (Scene.remove_outside_objects sim s) w = Done s w60 steps
  | u :: _ =>
      let q := GetBasePositionAndOrientation u in
      exec h (Scene.remove_outside_objects sim s) w =
        Failed (AttributeError "'NoneType' object has no attribute 'translation'")
               (next h q w60) (steps ++ [Ev q (reply h q w60)])
  end.
Proof.
  intros Ho steps w60. rewrite exec_remove_outside. fold steps w60.
  destruct (Scene.object_uids s) as [| u l] eqn:Eu.
  - cbn [List.length Scene.outside_loop exec prepend]. rewrite app_nil_r. reflexivity.
  - intro q. cbn [List.length Scene.outside_loop]. rewrite Eu. cbn [nth_error].
    rewrite exec_bind, exec_trigger. fold q. cbn [prepend]. rewrite Ho.
    cbn [exec prepend app]. reflexivity.
Qed.
End RemovalFacts.

(** ** The walk of [remove_outside_objects], case by case *)

Section WalkCases.
Context {SP : Spatial} {W : Type} (h : handler W).




Lemma list_remove_mid (a : Z) (pre rest : list Z) :
  ~ In a pre -> list_remove a (pre ++ a :: rest) = Some (pre ++ rest).
Proof.
  induction pre as [| y pre IH]; intro H; cbn [app list_remove].
  - rewrite Z.eqb_refl. reflexivity.
  - destruct (Z.eqb a y) eqn:E.
    + apply Z.eqb_eq in E. exfalso. apply H. left. congruence.
    + rewrite IH; [reflexivity |]. intro G. apply H. right. exact G.
Qed.



End WalkCases.

(** ** What generating a scene costs *)

Section WeightedCosts.
Context {SP : Spatial}.
Variables (mu : event -> nat) (ks kl : nat).
Hypothesis mu_step : mu (Ev StepSimulation tt) = ks.
Hypothesis mu_load :
  forall path pos ori sc r, mu (Ev (LoadURDF path pos ori sc) r) = kl.
Hypothesis mu_other :
  forall X (c : call X) (r : X),
    is_step (Ev c r) = false -> load_of (Ev c r) = None -> mu (Ev c r) = 0%nat.

Let anything {A : Type} : A -> Prop := fun _ => True.

Lemma wc_trigger {X} (c : call X) :
  (forall r, is_step (Ev c r) = false) -> (forall r, load_of (Ev c r) = None) ->
  costs mu 0 anything (trigger c).
Proof.
  intros H1 H2. apply costs_trigger; [| unfold anything; auto].
  intro r. apply mu_other; [apply H1 | apply H2].
Qed.

Lemma wc_step sim : costs mu ks anything (GraspSim.step sim).
Proof.
  apply costs_step; [exact mu_step |].
  intro d. apply mu_other; reflexivity.
Qed.

Lemma wc_wait sim : costs mu (60 * ks) anything (Scene.wait_for_objects_to_rest sim).
Proof. apply costs_repeat, wc_step. Qed.

Lemma wc_add_object (s : Scene.t) urdf pose scaling :
  costs mu kl
    (fun su => Scene.object_uids (fst su) = Scene.object_uids s ++ [snd su] /\
               Scene.origin (fst su) = Scene.origin s)
    (Scene.add_object s urdf pose scaling).
Proof.
  intros W h w. pose proof (exec_add_object h s urdf pose scaling w) as E.
  cbv zeta in E. rewrite E. do 3 eexists. split; [reflexivity |].
  split; [| split; reflexivity].
  unfold tally. cbn [map list_sum fold_right].
  rewrite mu_load, (mu_other _ (ChangeDynamics _ _ _)) by reflexivity. lia.
Qed.

Lemma wc_add_support (s : Scene.t) pose :
  costs mu kl
    (fun s' => Scene.object_uids s' = Scene.object_uids s /\
               Scene.origin s' = Scene.origin s)
    (Scene.add_support s pose).
Proof.
  unfold Scene.add_support, load_urdf.
  eapply costs_bind with (P := anything) (m := 0%nat).
  - apply costs_trigger; [intro r; apply mu_load | unfold anything; auto].
  - intros u _. apply costs_ret. split; reflexivity.
  - lia.
Qed.

Lemma wc_remove_object (s : Scene.t) (u : Z) :
  In u (Scene.object_uids s) ->
  costs mu 0
    (fun s' => Scene.origin s' = Scene.origin s /\
               List.length (Scene.object_uids s) =
               S (List.length (Scene.object_uids s')))
    (Scene.remove_object s u).
Proof.
  intros Hu W h w. rewrite exec_remove_object.
  destruct (list_remove_in u _ Hu) as [l El]. rewrite El.
  do 3 eexists. split; [reflexivity |]. split.
  - unfold tally. cbn [map list_sum fold_right].
    rewrite (mu_other _ (RemoveBody u)) by reflexivity. lia.
  - split; [reflexivity |]. cbn [Scene.set_object_uids Scene.object_uids].
    apply (list_remove_length u _ l El).
Qed.

Lemma wc_outside_loop (f i : nat) (s : Scene.t) (o : Transform) :
  Scene.origin s = Some o ->
  costs mu 0
    (fun s' => (List.length (Scene.object_uids s') <=
                List.length (Scene.object_uids s))%nat)
    (Scene.outside_loop f i s).
Proof.
  revert i s; induction f as [| f IH]; intros i s Ho.
  - apply costs_ret. lia.
  - cbn [Scene.outside_loop].
    destruct (nth_error (Scene.object_uids s) i) as [u |] eqn:En;
      [| apply costs_ret; lia].
    eapply costs_bind with (n := 0%nat) (m := 0%nat);
      [apply wc_trigger; reflexivity | | reflexivity].
    intros po _. rewrite Ho.
    destruct (Scene.outside s _).
    + eapply costs_bind with (n := 0%nat) (m := 0%nat);
        [apply wc_remove_object; eapply nth_error_In; exact En | | reflexivity].
      intros s1 [O1 L1]. eapply costs_weaken; [| apply IH; congruence].
      cbv beta. intros s2 L2. lia.
    + apply IH. exact Ho.
Qed.

Lemma wc_remove_outside sim (s : Scene.t) (o : Transform) :
  Scene.origin s = Some o ->
  costs mu (60 * ks)
    (fun s' => (List.length (Scene.object_uids s') <=
                List.length (Scene.object_uids s))%nat)
    (Scene.remove_outside_objects sim s).
Proof.
  intro Ho. unfold Scene.remove_outside_objects.
  eapply costs_bind with (m := 0%nat); [apply wc_wait | | lia].
  intros _ _. apply wc_outside_loop with (o := o). exact Ho.
Qed.

Lemma wc_drop_object sim (s : Scene.t) origin urdf scaling :
  costs mu (kl + 60 * ks)
    (fun s' => Scene.origin s' = Scene.origin s /\
               List.length (Scene.object_uids s') =
               S (List.length (Scene.object_uids s)))
    (PileScene.drop_object sim s origin urdf scaling).
Proof.
  unfold PileScene.drop_object.
  eapply costs_bind with (n := 0%nat);
    [apply wc_trigger; reflexivity | | reflexivity].
  intros ori _.
  eapply costs_bind with (n := 0%nat);
    [apply wc_trigger; reflexivity | | reflexivity].
  intros ab _.
  eapply costs_bind; [apply wc_add_object | | reflexivity].
  intros [s1 u] [E1 O1]. cbn [fst snd] in *.
  eapply costs_bind with (m := 0%nat); [apply wc_wait | | lia].
  intros _ _. apply costs_ret. split; [exact O1 |].
  rewrite E1, length_app. cbn [List.length]. lia.
Qed.

Lemma wc_drop_objects sim (s : Scene.t) origin specs :
  costs mu (List.length specs * (kl + 60 * ks))
    (fun s' => Scene.origin s' = Scene.origin s /\
               List.length (Scene.object_uids s') =
               (List.length (Scene.object_uids s) + List.length specs)%nat)
    (PileScene.drop_objects sim s origin specs).
Proof.
  revert s; induction specs as [| [urdf scaling] specs IH]; intro s;
    cbn [PileScene.drop_objects List.length].
  - apply costs_ret. split; [reflexivity | lia].
  - eapply costs_bind; [apply wc_drop_object | | reflexivity].
    intros s1 [O1 L1]. eapply costs_weaken; [| apply IH].
    cbv beta. intros s2 [O2 L2]. split; [congruence | lia].
Qed.

Lemma wc_pile_generate sim (s : Scene.t) origin urdfs scalings :
  let n := List.length (combine urdfs (expand_scalings scalings urdfs)) in
  costs mu (kl + (kl + (n * (kl + 60 * ks) + 60 * ks)))
    (fun s' => (List.length (Scene.object_uids s') <=
                List.length (Scene.object_uids s) + n)%nat)
    (PileScene.generate sim s origin urdfs scalings).
Proof.
  intro n. unfold PileScene.generate. cbv zeta.
  eapply costs_bind; [apply wc_add_support | | reflexivity].
  intros s1 [U1 O1]. cbn [Scene.set_origin_center Scene.origin Scene.object_uids] in *.
  unfold load_urdf.
  eapply costs_bind with (P := anything);
    [apply costs_trigger; [intro r; apply mu_load | unfold anything; auto]
    | | reflexivity].
  intros box _.
  eapply costs_bind; [apply wc_drop_objects | | reflexivity].
  intros s2 [O2 L2].
  eapply costs_bind with (n := 0%nat);
    [apply wc_trigger; reflexivity | | reflexivity].
  intros _ _.
  eapply costs_weaken; [| apply wc_remove_outside with (o := origin); congruence].
  cbv beta. intros s3 L3. fold n in L2. rewrite U1 in L2. lia.
Qed.
End WeightedCosts.

Section Budgets.
Context {SP : Spatial} {W : Type} (h : handler W).

Lemma step_weight_other X (c : call X) (r : X) :
  is_step (Ev c r) = false -> load_of (Ev c r) = None ->
  step_weight (Ev c r) = 0%nat.
Proof. intros H _. unfold step_weight. rewrite H. reflexivity. Qed.

Lemma load_weight_other X (c : call X) (r : X) :
  is_step (Ev c r) = false -> load_of (Ev c r) = None ->
  load_weight (Ev c r) = 0%nat.
Proof. intros _ H. unfold load_weight. rewrite H. reflexivity. Qed.

Lemma quiet_no_loads (t : trace) : quiet t -> loads t = [] /\ removals t = [].
Proof.
  unfold quiet, loads, removals. induction t as [| e t IH]; cbn [forallb collect].
  - intros _. split; reflexivity.
  - intro H. apply andb_true_iff in H. destruct H as [He Ht].
    destruct (IH Ht) as [Hl Hr]. unfold quiet_event in He.
    destruct (load_of e); [discriminate |].
    destruct (removal_of e); [discriminate |]. split; assumption.
Qed.

Lemma costs_neutral_load {A} (p : prog A) :
  safe p -> neutral p -> costs load_weight 0 (fun _ => True) p.
Proof.
  intros Hs Hn W' h' w. destruct (Hs W' h' w) as [a E]. apply done_eta in E.
  specialize (Hn W' h' w). do 3 eexists. split; [exact E |]. split; [| exact I].
  rewrite tally_load. destruct (quiet_no_loads _ Hn) as [-> _]. reflexivity.
Qed.

Lemma load_place_object sim (s : Scene.t) origin n urdf scaling :
  costs load_weight 1
    (fun s' => Scene.origin s' = Scene.origin s /\
               (List.length (Scene.object_uids s') <=
                S (List.length (Scene.object_uids s)))%nat /\
               (n = 0%nat -> List.length (Scene.object_uids s') =
                             List.length (Scene.object_uids s)))
    (PackedScene.place_object sim s origin n urdf scaling).
Proof.
  unfold PackedScene.place_object.
  eapply costs_bind;
    [apply (wc_add_object load_weight 0 1 eq_refl
              (fun _ _ _ _ _ => eq_refl) load_weight_other) | | reflexivity].
  intros [s1 u] [E1 O1]. cbn [fst snd] in *.
  eapply costs_bind with (n := 0%nat) (P := fun _ => True);
    [apply costs_trigger; [intro; reflexivity | auto] | | reflexivity].
  intros lu _.
  eapply costs_bind with (n := 0%nat) (P := fun _ => True);
    [apply costs_trigger; [intro; reflexivity | auto] | | reflexivity].
  intros sid _.
  eapply costs_bind with (n := 0%nat) (m := 0%nat)
    (P := fun placed : bool => n = 0%nat -> placed = false);
    [| | reflexivity].
  - destruct n as [| n].
    + cbn [PackedScene.attempts]. apply costs_ret. reflexivity.
    + eapply costs_weaken;
        [| apply costs_neutral_load; [apply safe_attempts | apply neutral_attempts]].
      intros; discriminate.
  - intros [|] Hp.
    + apply costs_ret. split; [exact O1 |].
      rewrite E1, length_app. cbn [List.length].
      split; [lia |]. intro Hn. specialize (Hp Hn). discriminate.
    + eapply costs_weaken;
        [| apply (wc_remove_object load_weight 0 eq_refl load_weight_other s1 u)].
      * cbv beta. intros s2 [O2 L2]. split; [congruence |].
        rewrite E1, length_app in L2. cbn [List.length] in L2.
        split; [lia | intros _; lia].
      * rewrite E1. apply in_or_app. right. left. reflexivity.
Qed.

Lemma load_place_objects sim (s : Scene.t) origin n specs :
  costs load_weight (List.length specs)
    (fun s' => Scene.origin s' = Scene.origin s /\
               (List.length (Scene.object_uids s') <=
                List.length (Scene.object_uids s) + List.length specs)%nat /\
               (n = 0%nat -> List.length (Scene.object_uids s') =
                             List.length (Scene.object_uids s)))
    (PackedScene.place_objects sim s origin n specs).
Proof.
  revert s; induction specs as [| [urdf scaling] specs IH]; intro s;
    cbn [PackedScene.place_objects List.length].
  - apply costs_ret. split; [reflexivity |]. split; [lia | reflexivity].
  - eapply costs_bind; [apply load_place_object | | reflexivity].
    intros s1 (O1 & L1 & Z1). eapply costs_weaken; [| apply IH].
    cbv beta. intros s2 (O2 & L2 & Z2). split; [congruence |].
    split; [lia |]. intro Hn. rewrite (Z2 Hn), (Z1 Hn). reflexivity.
Qed.

(** X14: what [PackedScene.generate] creates.  It never raises.  It loads
    the support and then one body per pair of [zip(urdfs, scalings)] -- as
    many as the shorter of the two lists, all of [urdfs] when [scalings] is
    a single float -- so the number of bodies created is 1 plus that
    number; the managed set grows by at most that number; and with
    [max_attempts = 0] no object is kept at all. *)
Theorem packed_generate_budget (sim : GraspSim.t) (s : Scene.t)
    (origin : Transform) (urdfs : list string) (scalings : scalings_arg)
    (max_attempts : nat) (w : W) :
  let n := Nat.min (List.length urdfs)
                   (List.length (expand_scalings scalings urdfs)) in
  exists s' w' t,
    exec h (PackedScene.generate sim s origin urdfs scalings max_attempts) w =
      Done s' w' t /\
    List.length (loads t) = S n /\
    (Scene.object_count s' <= Scene.object_count s + n)%nat /\
    (max_attempts = 0%nat -> (Scene.object_count s' <= Scene.object_count s)%nat) /\
    (forall x, scalings = ScalarScaling x -> n = List.length urdfs).
Proof.
  intro n.
  assert (Hc : costs load_weight (1 + (n + 0))
                 (fun s' => (Scene.object_count s' <= Scene.object_count s + n)%nat /\
                            (max_attempts = 0%nat ->
                             (Scene.object_count s' <= Scene.object_count s)%nat))
                 (PackedScene.generate sim s origin urdfs scalings max_attempts)).
  { unfold PackedScene.generate. cbv zeta.
    eapply costs_bind;
      [apply (wc_add_support load_weight 0 1 eq_refl (fun _ _ _ _ _ => eq_refl))
      | | reflexivity].
    intros s1 [U1 O1].
    cbn [Scene.set_origin_center Scene.origin Scene.object_uids] in *.
    eapply costs_bind; [apply load_place_objects | | ].
    - intros s2 (O2 & L2 & Z2).
      eapply costs_weaken;
        [| apply (wc_remove_outside load_weight 0 eq_refl load_weight_other sim s2
                    origin); congruence].
      cbv beta. intros s3 L3. unfold Scene.object_count.
      rewrite length_combine in L2. fold n in L2. rewrite U1 in L2, Z2.
      split; [lia |]. intro Hm. specialize (Z2 Hm). lia.
    - rewrite length_combine. reflexivity. }
  destruct (Hc W h w) as (s' & w' & t & E & Ht & Hb & Hz).
  exists s', w', t. split; [exact E |].
  split; [rewrite <- tally_load, Ht; lia |].
  split; [exact Hb |]. split; [exact Hz |].
  intros x ->. subst n. cbn [expand_scalings]. rewrite repeat_length. lia.
Qed.

(** X15: what [PileScene.generate] costs.  It never raises.  With [n] the
    number of pairs of [zip(urdfs, scalings)], it creates exactly [n + 2]
    bodies (the support, the confining box and the objects), advances the
    simulation by exactly [60 (n + 1)] steps (60 after each drop and 60
    before the clean-up), and the managed set grows by at most [n]. *)
Theorem pile_generate_budget (sim : GraspSim.t) (s : Scene.t)
    (origin : Transform) (urdfs : list string) (scalings : scalings_arg) (w : W) :
  let n := Nat.min (List.length urdfs)
                   (List.length (expand_scalings scalings urdfs)) in
  exists s' w' t,
    exec h (PileScene.generate sim s origin urdfs scalings) w = Done s' w' t /\
    List.length (loads t) = (n + 2)%nat /\
    step_count t = (60 * (n + 1))%nat /\
    (Scene.object_count s' <= Scene.object_count s + n)%nat.
Proof.
  intro n.
  pose proof (wc_pile_generate load_weight 0 1 eq_refl (fun _ _ _ _ _ => eq_refl)
                load_weight_other sim s origin urdfs scalings W h w) as Hl.
  pose proof (wc_pile_generate step_weight 1 0 eq_refl (fun _ _ _ _ _ => eq_refl)
                step_weight_other sim s origin urdfs scalings W h w) as Hs.
  cbv zeta in Hl, Hs. rewrite length_combine in Hl, Hs. fold n in Hl, Hs.
  destruct Hl as (s' & w' & t & E & Hl & Hb).
  destruct Hs as (s2 & w2 & t2 & E2 & Hs & _).
  rewrite E in E2. apply done_trace in E2. subst t2.
  exists s', w', t. split; [exact E |].
  split; [rewrite <- tally_load, Hl; lia |].
  split; [rewrite <- tally_step, Hs; lia | exact Hb].
Qed.
End Budgets.

Section PileBox.
Context {SP : Spatial} {W : Type} (h : handler W).

Lemma live_no_loads (t : trace) :
  loads t = [] -> forall B x, In x (live_bodies B t) -> In x B.
Proof.
  unfold loads. induction t as [| e t IH]; intros Hl B x Hx; [exact Hx |].
  cbn [collect] in Hl. destruct (load_of e) eqn:El; [discriminate |].
  cbn [live_bodies fold_left] in Hx. apply (IH Hl) in Hx.
  destruct e as [X c r]. destruct c; cbn [live_step load_of] in Hx, El;
    try exact Hx; try discriminate El.
  apply in_remove in Hx. tauto.
Qed.

Lemma exec_add_support (s : Scene.t) (pose : Transform) (w : W) :
  let ld := LoadURDF (Scene.support_urdf s) (translation pose)
              (as_quat (rotation pose)) 0.3 in
  exec h (Scene.add_support s pose) w =
  Done (Scene.set_support_uid s (reply h ld w)) (next h ld w)
       [Ev ld (reply h ld w)].
Proof. reflexivity. Qed.

(** X16: the confining box of the Pile generator does not leak.  The box is
    created after the support and removed before the clean-up; provided the
    engine hands out fresh handles, it is not among the bodies present when
    [generate] returns, and its handle is not in the managed set. *)
Theorem pile_box_removed (sim : GraspSim.t) (s : Scene.t) (origin : Transform)
    (urdfs : list string) (scalings : scalings_arg) (B : list Z) (w : W) :
  in_sync s B ->
  let center :=
    tmul origin (Transform_t (0.5 * Scene.size s, 0.5 * Scene.size s, 0)%Q) in
  let s0 := Scene.set_origin_center s origin center in
  let w1 := world_of (exec h (Scene.add_support s0 center) w) in
  let box_pose := Transform_t (0.02, 0.02, 0.05)%Q in
  let ldb := LoadURDF "assets/box/model.urdf" (translation box_pose)
               (as_quat (rotation box_pose)) 1.3 in
  let box := reply h ldb w1 in
  exists s' w' t,
    exec h (PileScene.generate sim s origin urdfs scalings) w = Done s' w' t /\
    In box (loads t) /\
    In box (removals t) /\
    (fresh_loads B t ->
     ~ In box (live_bodies B t) /\ ~ In box (Scene.object_uids s')).
Proof.
  intros HS center s0 w1 box_pose ldb box.
  pose proof (keeps_pile_generate h sim s origin urdfs scalings w B
                (proj1 (in_sync_with s B) HS)) as K.
  unfold PileScene.generate in *. cbv zeta in *. fold center in K |- *.
  fold s0 in K |- *.
  rewrite exec_bind, exec_add_support in K |- *. cbn [prepend] in K |- *.
  set (lds := LoadURDF (Scene.support_urdf s0) (translation center)
                (as_quat (rotation center)) 0.3) in *.
  set (s1 := Scene.set_support_uid s0 (reply h lds w)) in *.
  assert (Ew1 : next h lds w = w1) by reflexivity. rewrite Ew1 in *.
  unfold load_urdf in K |- *. fold box_pose in K |- *. fold ldb in K |- *.
  rewrite exec_bind, exec_trigger in K |- *. fold box in K |- *.
  cbn [prepend] in K |- *.
  rewrite exec_bind in K |- *.
  destruct (returns_drop_objects sim s1 origin
              (combine urdfs (expand_scalings scalings urdfs)) W h (next h ldb w1))
    as (s2 & w3 & t2 & E2 & O2).
  rewrite E2 in K |- *. cbn [prepend] in K |- *.
  rewrite exec_bind, exec_trigger in K |- *.
  destruct (reply h (RemoveBody box) w3). cbn [prepend] in K |- *.
  assert (Ho2 : Scene.origin s2 = Some origin) by (rewrite O2; reflexivity).
  destruct (wc_remove_outside load_weight 0 eq_refl load_weight_other sim s2
              origin Ho2 W h (next h (RemoveBody box) w3))
    as (s3 & w5 & t3 & E3 & Hl3 & _).
  rewrite E3 in K |- *. cbn [prepend] in K |- *.
  assert (Hno : loads t3 = []).
  { rewrite tally_load in Hl3. destruct (loads t3); [reflexivity | discriminate]. }
  do 3 eexists. split; [reflexivity |].
  split; [| split].
  - unfold loads. rewrite !collect_app. cbn [collect load_of app].
    right. left. reflexivity.
  - unfold removals. rewrite !collect_app. cbn [collect removal_of app].
    rewrite !in_app_iff. right. right. right. left. reflexivity.
  - intro Hfr. specialize (K Hfr). destruct K as [[_ Hin] _].
    assert (Hbox : ~ In box (live_bodies B
                     ([Ev lds (reply h lds w)] ++
                      [Ev ldb box] ++ t2 ++ [Ev (RemoveBody box) tt] ++ t3))).
    { rewrite !live_bodies_app. intro G. apply (live_no_loads t3 Hno) in G.
      cbn [live_bodies fold_left live_step] in G. revert G. apply remove_In. }
    split; [exact Hbox |]. intro G. apply Hbox, Hin, G.
Qed.
End PileBox.

(** ** Pacing to real time *)

Section Pacing.
Context {SP : Spatial}.
























End Pacing.

(** ** Adding an object and taking it back *)

Section AddRemove.
Context {SP : Spatial} {W : Type} (h : handler W).

(** X18: adding an object and removing it again.  The pair never raises and
    makes exactly three calls (load, friction, removal of the body just
    created).  When the engine's handle is not already managed, the scene is
    the one before; when it is (a stale handle is reused), [list.remove]
    takes the first, old occurrence and the new one stays at the end of the
    list, although its body has just been removed. *)
Theorem add_then_remove (s : Scene.t) (urdf : string) (pose : Transform)
    (scaling : Q) (w : W) :
  let ld := LoadURDF urdf (translation pose) (as_quat (rotation pose)) scaling in
  let u := reply h ld w in
  let cd := ChangeDynamics u (-1) LATERAL_FFRICITON in
  exists s' w',
    exec h (su <- Scene.add_object s urdf pose scaling ;;
            Scene.remove_object (fst su) (snd su)) w =
    Done s' w' [Ev ld u; Ev cd tt; Ev (RemoveBody u) tt] /\
    (~ In u (Scene.object_uids s) -> s' = s) /\
    (forall pre rest,
       Scene.object_uids s = pre ++ u :: rest -> ~ In u pre ->
       Scene.object_uids s' = pre ++ rest ++ [u]).
Proof.
  intros ld u cd.
  rewrite exec_bind, exec_add_object. fold ld u cd. cbn [prepend fst snd].
  rewrite exec_remove_object.
  cbn [Scene.object_uids Scene.set_object_uids].
  destruct (list_remove_last u (Scene.object_uids s)) as (l' & E & Hl).
  rewrite E. cbn [prepend app]. do 2 eexists. split; [reflexivity |].
  split.
  - intro Hn. rewrite (Hl Hn). destruct s; reflexivity.
  - intros pre rest Hs Hp. cbn [Scene.object_uids Scene.set_object_uids].
    rewrite Hs, <- app_assoc in E. cbn [app] in E.
    rewrite (list_remove_mid u pre (rest ++ [u]) Hp) in E.
    injection E as <-. reflexivity.
Qed.
End AddRemove.

(** ** Scenarios for the further properties *)

(** A session asked for the scene "shelf". *)
Lemma session_unknown_scene_witness :
  exists w' t,
    exec Mock.engine (GraspSim_init (mkConfig false false "shelf")) Mock.world0 =
      Failed (ValueError "shelf scene does not exist.") w' t /\
    step_count t = 1%nat.
Proof.
  destruct (@session_unknown_scene Mock.spatial Mock.world Mock.engine
              (mkConfig false false "shelf") Mock.world0)
    as (w' & t & u & E & _ & _ & Hs).
  - intro H; discriminate H.
  - intro H; discriminate H.
  - exists w', t. split; [exact E | exact Hs].
Defined.

(** A session asked for the scene "packed". *)
Lemma session_fresh_witness :
  exists r w' t,
    exec Mock.engine (GraspSim_init (mkConfig false false "packed")) Mock.world0 =
      Done r w' t /\
    step_count t = 1%nat.
Proof.
  destruct (@session_fresh Mock.spatial Mock.world Mock.engine
              (mkConfig false false "packed") Mock.world0)
    as (u & fj & gear & w' & t & E & _ & _ & Hs & _).
  - left. reflexivity.
  - do 3 eexists. split; [exact E | exact Hs].
Defined.

(** The robust test with three samples on a session that was never saved. *)
Lemma robust_without_snapshot_witness :
  exists w' t,
    exec Mock.engine
      (RobustPhysicsMetric.call_ Mock.sim Mock.gripper (Mock.metric 3)
         Mock.grasp0) Mock.world_grip =
    Failed (AttributeError "'GraspSim' object has no attribute 'snapshot_id'")
           w' t /\
    List.length t = 2%nat.
Proof.
  pose proof (@robust_without_snapshot Mock.spatial Mock.world Mock.engine
                Mock.sim Mock.gripper (Mock.metric 3) Mock.grasp0
                Mock.world_grip eq_refl) as H.
  cbv zeta in H. cbn [RobustPhysicsMetric.sample_count Mock.metric] in H.
  do 2 eexists. split; [exact H | reflexivity].
Defined.

(** Removing body 9 from a scene that manages body 3 only. *)
Lemma remove_object_unmanaged_witness :
  exists w' t,
    exec Mock.engine (Scene.remove_object (Mock.scene_of [3%Z]) 9) Mock.world_high =
    Failed (ValueError "list.remove(x): x not in list") w' t /\
    removals t = [9%Z].
Proof.
  assert (H : ~ In 9%Z (Scene.object_uids (Mock.scene_of [3%Z])))
    by (intros [H | []]; discriminate H).
  pose proof (@remove_object_unmanaged Mock.spatial Mock.world Mock.engine
                (Mock.scene_of [3%Z]) 9%Z Mock.world_high H) as E.
  do 2 eexists. split; [exact E | reflexivity].
Defined.



(** The clean-up on a scene with one object and no origin. *)
Lemma remove_outside_without_origin_witness :
  exists e w' t,
    exec Mock.engine
      (Scene.remove_outside_objects Mock.sim
         (Scene.set_object_uids Scene.init [3%Z])) Mock.world_high =
    Failed e w' t.
Proof.
  pose proof (@remove_outside_without_origin Mock.spatial Mock.world
                Mock.engine Mock.sim (Scene.set_object_uids Scene.init [3%Z])
                Mock.world_high eq_refl) as H.
  cbv zeta in H. cbn [Scene.object_uids Scene.set_object_uids] in H.
  do 3 eexists. exact H.
Defined.

(** A pile of one object generated from the empty scene, with the gripper
    as the only body present. *)
Lemma pile_box_removed_witness :
  exists box s' w' t,
    exec Mock.engine
      (PileScene.generate Mock.sim Scene.init Mock.at_origin ["a.urdf"%string]
         (ScalarScaling 1)) Mock.world0 = Done s' w' t /\
    In box (loads t) /\ In box (removals t).
Proof.
  assert (H : in_sync (@Scene.init Mock.spatial) [0%Z])
    by (split; [constructor | intros u []]).
  pose proof (@pile_box_removed Mock.spatial Mock.world Mock.engine Mock.sim
                Scene.init Mock.at_origin ["a.urdf"%string] (ScalarScaling 1)
                [0%Z] Mock.world0 H) as K.
  cbv zeta in K. destruct K as (s' & w' & t & E & Hl & Hr & _).
  eexists. exists s', w', t. split; [exact E |]. split; [exact Hl | exact Hr].
Defined.
